(** * VoiceScribe: the webhook queue, the Whisper client and the store

  A shallow embedding of the message pipeline of the Voice-to-text
  server: [routes/webhook.js] (queue, audio handler), the Whisper client
  ([transcribeAudio]), the sql.js backed store ([services/storage]) and
  the settings route of [routes/api.js].

  Network calls, the clock and the process environment are inputs of the
  model: every function that awaits the outside world takes the outcome
  of each call as an argument and returns the list of effects it
  performed together with the way it completed.  Console output is
  modelled only for the error line of the drain loop. *)

From Stdlib Require Import ZArith QArith_base String Ascii List Bool Lia DecimalString.
From stdpp Require Import base strings gmap list.
Import ListNotations.

Local Open Scope string_scope.
Local Open Scope list_scope.
Local Open Scope Z_scope.

(* ================================================================== *)
(** ** JavaScript primitives *)
(* ================================================================== *)

Module Js.

(** [s.includes(p)]: some suffix of [s] starts with [p]. *)
Fixpoint includes (s p : string) : bool :=
  String.prefix p s ||
  match s with
  | EmptyString => false
  | String _ s' => includes s' p
  end.

(** [s.split(sep)] for a one-character separator. *)
Fixpoint split (sep : ascii) (s : string) : list string :=
  match s with
  | EmptyString => [EmptyString]
  | String c s' =>
      if Ascii.eqb c sep then EmptyString :: split sep s'
      else match split sep s' with
           | [] => [String c EmptyString]
           | piece :: pieces => String c piece :: pieces
           end
  end.

(** White space of [trim], restricted to the ASCII range (tab, line
    feed, vertical tab, form feed, carriage return, space). *)
Definition is_space (c : ascii) : bool :=
  let n := N_of_ascii c in
  ((9 <=? n) && (n <=? 13))%N || (n =? 32)%N.

Fixpoint trimStart (s : string) : string :=
  match s with
  | EmptyString => EmptyString
  | String c s' => if is_space c then trimStart s' else s
  end.

Fixpoint trimEnd (s : string) : string :=
  match s with
  | EmptyString => EmptyString
  | String c s' =>
      match trimEnd s' with
      | EmptyString => if is_space c then EmptyString else String c EmptyString
      | t => String c t
      end
  end.

Definition trim (s : string) : string := trimEnd (trimStart s).

(** Template-literal rendering of an integer. *)
Definition decimal (z : Z) : string := NilZero.string_of_int (Z.to_int z).

(** [Math.round] on an exact rational: round half up. *)
Definition round (q : Q) : Z :=
  (2 * Qnum q + Z.pos (Qden q)) / (2 * Z.pos (Qden q)).

(** Truthiness of the values the pipeline tests with [||] and [&&]. *)
Definition truthy_string (s : string) : bool := negb (String.eqb s "").
Definition truthy_number (q : Q) : bool := negb (Qnum q =? 0).

(** [a || b] on optional strings and numbers ([None] is null or
    undefined; the empty string and zero are falsy as well). *)
Definition or_string (a : option string) (b : option string) : option string :=
  match a with
  | Some s => if truthy_string s then Some s else b
  | None => b
  end.

Definition or_number (a : option Q) (b : option Q) : option Q :=
  match a with
  | Some q => if truthy_number q then Some q else b
  | None => b
  end.

(** [v === s] for a value that is a string or null. *)
Definition strict_equal (v : option string) (s : string) : bool :=
  match v with
  | Some v' => String.eqb v' s
  | None => false
  end.

Definition line_feed : string := String (ascii_of_N 10%N) EmptyString.

(** A thrown [Error] object. *)
Record Error := { message : string }.

(** How a call completes: it returns a value or throws.  The thrown
    value is an [Error], or [None] for a thrown [null]. *)
Inductive Completion (A : Type) :=
| Returned (a : A)
| Threw (e : option Error).
Arguments Returned {A} a.
Arguments Threw {A} e.

(** Values found in a parsed JSON request body, and [String(value)],
    here [String_of] since [String] is the constructor of strings.
    [VNumber z] is a number whose value is the integer [z]; [String_of]
    prints it as JavaScript does while [z] is a safe integer, one of
    magnitude at most [MAX_SAFE_INTEGER].  [VObject] is an object that
    has no property toString of its own: [String] gives one text for all
    of these and throws for the others, which are not represented, as
    numbers with a fraction are not. *)
#[warnings="-register-all"]
Inductive Value :=
| VNull
| VBoolean (b : bool)
| VNumber (z : Z)
| VString (s : string)
| VArray (items : list Value)
| VObject.

Definition MAX_SAFE_INTEGER : Z := 2 ^ 53 - 1.

(** [Array.prototype.join] with a comma, on the texts of the elements. *)
Fixpoint Array_join (texts : list string) : string :=
  match texts with
  | [] => EmptyString
  | [text] => text
  | text :: rest => text +:+ "," +:+ Array_join rest
  end.

(** An array prints its elements joined by commas, an element that is
    null as the empty string. *)
Fixpoint String_of (v : Value) : string :=
  match v with
  | VNull => "null"
  | VBoolean true => "true"
  | VBoolean false => "false"
  | VNumber z => decimal z
  | VString s => s
  | VArray items =>
      Array_join (List.map (fun item =>
                              match item with
                              | VNull => EmptyString
                              | _ => String_of item
                              end) items)
  | VObject => "[object Object]"
  end.

End Js.

(* ================================================================== *)
(** ** Data model *)
(* ================================================================== *)

(** An audio [Buffer].  The pipeline reads its [length] and hands the
  bytes to the transcription API untouched, so only the length is kept. *)
Module Buffer.
Record t := { length : Z }.
End Buffer.

(** The multipart form sent to the transcription API. *)
Record FormData := {
file_type : string;
file_name : string;
model : string;
response_format : string;
form_language : option string
}.

(** The object handed to [saveTranscription]. *)
Record NewTranscription := {
sender : string;
senderName : string;
timestamp : Z;
transcription : string;
language : string;
duration : option Q;
source : string
}.

(** What a function did to the outside world, in order. *)
Inductive Effect :=
| Download (mediaId : string)
| Sleep (ms : Z)
| SendMessage (to text : string)
| SendTemplate (to templateName : string) (params : list string)
| WhisperRequest (attempt : Z) (form : FormData)
| Save (record : NewTranscription).

(* ================================================================== *)
(** ** services/whisper: [transcribeAudio] *)
(* ================================================================== *)

Module Whisper.
Import Js.

Definition MIME_EXT_MAP : list (string * string) :=
  [ ("audio/ogg", "ogg"); ("audio/mpeg", "mp3"); ("audio/mp4", "m4a");
    ("audio/mp4a-latm", "m4a"); ("audio/wav", "wav"); ("audio/x-wav", "wav");
    ("audio/webm", "webm"); ("audio/aac", "aac"); ("audio/flac", "flac");
    ("audio/x-m4a", "m4a") ].

Definition MAX_FILE_SIZE : Z := 25 * 1024 * 1024.

(** The [verbose_json] body of a successful API response. *)
Record VerboseJson := {
  json_text : string;
  json_language : option string;
  json_duration : option Q;
  json_segments : option (list string)
}.

Inductive JsonBody :=
| Parsed (v : VerboseJson)
| Malformed (syntaxError : string).

Record Response := {
  status : Z;
  body_text : string;
  body_json : JsonBody
}.

(** Outcome of one [fetch] of the transcription endpoint. *)
Inductive FetchOutcome :=
| Rejected (reason : string)
| Responded (r : Response).

Definition ok (r : Response) : bool :=
  (200 <=? status r) && (status r <=? 299).

Record TranscriptionResult := {
  text : string;
  result_language : string;
  result_duration : option Q;
  segments : list string
}.

(** The options argument [{ maxRetries = 3, language } = {}]. *)
Record Options := {
  maxRetries : option Z;
  opt_language : option string
}.

Definition no_options : Options :=
  {| maxRetries := None; opt_language := None |}.

(** [MIME_EXT_MAP[baseMime]], over the entries of the literal. *)
Definition lookup_ext (baseMime : string) : option string :=
  snd <$> List.find (fun entry => String.eqb (fst entry) baseMime) MIME_EXT_MAP.

Definition buildForm (mimeType : string) (lang : option string) : FormData :=
  let baseMime := trim (List.hd EmptyString (split ";" mimeType)) in
  let ext := default "ogg" (or_string (lookup_ext baseMime) (Some "ogg")) in
  {| file_type := baseMime;
     file_name := "audio." +:+ ext;
     model := "whisper-1";
     response_format := "verbose_json";
     form_language :=
       match lang with
       | Some l => if truthy_string l && negb (String.eqb l "auto")
                   then Some l else None
       | None => None
       end |}.

Definition size_error (len : Z) : Error :=
  {| message := "Fișierul audio este prea mare ("
                +:+ decimal ((2 * len + 1024 * 1024) / (2 * 1024 * 1024))
                +:+ "MB). Maximum: 25MB." |}.

(** The body of the [try] block, after the [fetch] has settled. *)
Definition attemptOnce (o : FetchOutcome) : TranscriptionResult + Error :=
  match o with
  | Rejected reason => inr {| message := reason |}
  | Responded r =>
      if negb (ok r) then
        if (status r <? 500) && negb (status r =? 429) then
          inr {| message := "Whisper API error " +:+ decimal (status r)
                             +:+ ": " +:+ body_text r |}
        else
          inr {| message := "Whisper API " +:+ decimal (status r)
                             +:+ ": " +:+ body_text r |}
      else
        match body_json r with
        | Malformed syntaxError => inr {| message := syntaxError |}
        | Parsed v =>
            inl {| text := json_text v;
                   result_language :=
                     default "unknown" (or_string (json_language v) (Some "unknown"));
                   result_duration := or_number (json_duration v) None;
                   segments := default [] (json_segments v) |}
        end
  end.

Definition isRetryable (msg : string) : bool :=
  includes msg "429" || includes msg "500" || includes msg "502" ||
  includes msg "503" || includes msg "fetch".

(** The [for] loop.  [api attempt] is the outcome of the fetch made in
    iteration [attempt]; [fuel] bounds the iterations and [None] means
    it ran out. *)
Fixpoint retryLoop (api : Z -> FetchOutcome) (form : FormData) (maxRetries : Z)
    (fuel : nat) (attempt : Z) (lastError : option Error)
    : option (list Effect * Completion TranscriptionResult) :=
  if attempt <=? maxRetries then
    match fuel with
    | O => None
    | S fuel' =>
        match attemptOnce (api attempt) with
        | inl result => Some ([WhisperRequest attempt form], Returned result)
        | inr error =>
            if (attempt <? maxRetries) && isRetryable (message error) then
              match retryLoop api form maxRetries fuel' (attempt + 1) (Some error) with
              | Some (effects, completion) =>
                  Some (WhisperRequest attempt form
                          :: Sleep (2 ^ attempt * 1000) :: effects, completion)
              | None => None
              end
            else Some ([WhisperRequest attempt form], Threw (Some error))
        end
    end
  else Some ([], Threw lastError).

Definition transcribeAudio (api : Z -> FetchOutcome) (audioBuffer : Buffer.t)
    (mimeType : string) (options : Options)
    : option (list Effect * Completion TranscriptionResult) :=
  if Buffer.length audioBuffer >? MAX_FILE_SIZE then
    Some ([], Threw (Some (size_error (Buffer.length audioBuffer))))
  else
    let retries := default 3 (maxRetries options) in
    retryLoop api (buildForm mimeType (opt_language options)) retries
              (Z.to_nat retries) 1 None.

End Whisper.

(* ================================================================== *)
(** ** services/storage: the sql.js database and its file *)
(* ================================================================== *)

Module Storage.
Import Js.

(** A row of the [transcriptions] table. *)
Record Row := {
  row_id : Z;
  row_sender : string;
  row_sender_name : string;
  row_timestamp : Z;
  row_transcription : string;
  row_language : string;
  row_duration : option Q;
  row_source : string;
  created_at : string
}.

(** The in-memory database: both tables and the AUTOINCREMENT counter
    of [transcriptions]. *)
Record Database := {
  transcriptions : list Row;
  settings : gmap string string;
  sequence : Z
}.

(** The module state: the open database [db] and every image that
    [fs.writeFileSync] has put at [dbPath], the latest first.  Writing
    the file is taken to succeed. *)
Record Store := {
  db : Database;
  written : list Database
}.

(** Contents of the database file. *)
Definition file (s : Store) : option Database := List.head (written s).

(** The effect of a [db.run] that turns the database into [d]. *)
Definition with_db (d : Database) (s : Store) : Store :=
  {| db := d; written := written s |}.

(** [persist]: export the whole database and overwrite the file. *)
Definition persist (s : Store) : Store :=
  {| db := db s; written := db s :: written s |}.

Definition getTranscription (id : Z) (s : Store) : option Row :=
  List.find (fun r => row_id r =? id) (transcriptions (db s)).

Definition insertRow (now : string) (t : NewTranscription) (d : Database) : Database :=
  let id := sequence d + 1 in
  {| transcriptions :=
       transcriptions d ++
         [ {| row_id := id;
              row_sender := sender t;
              row_sender_name := senderName t;
              row_timestamp := timestamp t;
              row_transcription := transcription t;
              row_language := language t;
              row_duration := duration t;
              row_source := source t;
              created_at := now |} ];
     settings := settings d;
     sequence := id |}.

Record Saved := {
  saved_store : Store;
  saved_id : Z;
  emitted : option Row
}.

(** [saveTranscription].  [now] is CURRENT_TIMESTAMP and [rowid] is the
    answer of [SELECT last_insert_rowid()], which is asked after the
    export of [persist].  The result carries the record handed to the
    listeners of the 'new' event, if the lookup by [rowid] finds one. *)
Definition saveTranscription (now : string) (rowid : Z) (t : NewTranscription)
    (s : Store) : Saved :=
  let s1 := persist (with_db (insertRow now t (db s)) s) in
  let id := rowid in
  {| saved_store := s1; saved_id := id; emitted := getTranscription id s1 |}.

Definition countById (id : Z) (d : Database) : Z :=
  Z.of_nat (List.length (List.filter (fun r => row_id r =? id) (transcriptions d))).

Definition setText (id : Z) (newText : string) (r : Row) : Row :=
  if row_id r =? id then
    {| row_id := row_id r;
       row_sender := row_sender r;
       row_sender_name := row_sender_name r;
       row_timestamp := row_timestamp r;
       row_transcription := newText;
       row_language := row_language r;
       row_duration := row_duration r;
       row_source := row_source r;
       created_at := created_at r |}
  else r.

Definition updateTranscription (id : Z) (newText : string) (s : Store) : Store * bool :=
  if countById id (db s) =? 0 then (s, false)
  else
    let d := {| transcriptions := List.map (setText id newText) (transcriptions (db s));
                settings := settings (db s);
                sequence := sequence (db s) |} in
    (persist (with_db d s), true).

Definition deleteTranscription (id : Z) (s : Store) : Store * bool :=
  let existed := countById id (db s) >? 0 in
  if existed then
    let d := {| transcriptions :=
                  List.filter (fun r => negb (row_id r =? id)) (transcriptions (db s));
                settings := settings (db s);
                sequence := sequence (db s) |} in
    (persist (with_db d s), existed)
  else (s, existed).

Definition deleteAllTranscriptions (s : Store) : Store :=
  let d := {| transcriptions := [];
              settings := settings (db s);
              sequence := sequence (db s) |} in
  persist (with_db d s).

Definition getSetting (key : string) (s : Store) : option string :=
  settings (db s) !! key.

Definition setSetting (key : string) (value : Value) (s : Store) : Store :=
  let d := {| transcriptions := transcriptions (db s);
              settings := <[ key := String_of value ]> (settings (db s));
              sequence := sequence (db s) |} in
  persist (with_db d s).

End Storage.

(* ================================================================== *)
(** ** routes/api: PATCH /api/settings *)
(* ================================================================== *)

Module Api.
Import Js Storage.

Definition allowed : list string := ["auto_reply"; "default_language"].

(** [allowed.includes(key)] *)
Definition is_allowed (key : string) : bool :=
  List.existsb (String.eqb key) allowed.

(** The loop over [Object.entries(req.body)]. *)
Definition patchSettings (body : list (string * Value)) (s : Store) : Store :=
  List.fold_left
    (fun st entry =>
       if is_allowed (fst entry) then setSetting (fst entry) (snd entry) st else st)
    body s.

End Api.

(* ================================================================== *)
(** ** routes/webhook: the audio handler *)
(* ================================================================== *)

Module Webhook.
Import Js.

Record Audio := {
  audio_id : string;
  mime_type : option string;
  audio_duration : option Q
}.

(** A message of the webhook payload ([message.from], [message.type],
    [message.audio], [message.text.body]). *)
Record Message := {
  from : string;
  type : string;
  audio : option Audio;
  text_body : option string
}.

(** What the outside world does during one run of [handleAudioMessage]:
    the outcome of each awaited call and the value of each setting and
    environment variable at the moment it is read.  A delivery is [None]
    when the send succeeds and the thrown error otherwise. *)
Record World := {
  download : nat -> Buffer.t + Error;
  notice_delivery : option Error;
  default_language : option string;
  whisper : Z -> Whisper.FetchOutcome;
  auto_reply : option string;
  reply_delivery : option Error;
  FORWARD_TO_NUMBERS : option string;
  template_delivery : nat -> option Error;
  plain_delivery : nat -> option Error
}.

Definition DOWNLOAD_FAILED_NOTICE : string :=
  "❌ Nem sikerült letölteni a hangüzenetet, kérlek próbáld újra.".

Definition TOO_LARGE_NOTICE : string :=
  "⚠️ A hangüzenet túl nagy (max 25MB). Kérlek küldj rövidebb üzenetet.".

Definition roundedSeconds (t : Whisper.TranscriptionResult) : string :=
  decimal (round (default (0 # 1)%Q (or_number (Whisper.result_duration t) (Some (0 # 1)%Q)))).

Definition replyText (t : Whisper.TranscriptionResult) : string :=
  "📝 *Átírás:*" +:+ line_feed +:+ line_feed +:+ Whisper.text t
    +:+ line_feed +:+ line_feed +:+ "_Nyelv: " +:+ Whisper.result_language t
    +:+ " | " +:+ roundedSeconds t +:+ "s_".

Definition durationStr (t : Whisper.TranscriptionResult) : string :=
  roundedSeconds t +:+ "s | " +:+ Whisper.result_language t.

Definition senderLabel (senderName senderPhone : string) : string :=
  senderName +:+ " (" +:+ senderPhone +:+ ")".

Definition forwardText (t : Whisper.TranscriptionResult)
    (senderName senderPhone : string) : string :=
  "📨 *Új hangüzenet átírás*" +:+ line_feed +:+ line_feed
    +:+ "👤 *Feladó:* " +:+ senderLabel senderName senderPhone +:+ line_feed
    +:+ "⏱️ *Hossz:* " +:+ durationStr t +:+ line_feed +:+ line_feed
    +:+ "📝 *Szöveg:*" +:+ line_feed +:+ Whisper.text t.

(** [promise.catch(() => { })]: the failure of the call is dropped. *)
Definition swallowed (delivery : option Error) : option Error := None.

(** [forwardNumbers.split(',').map(n => n.trim()).filter(Boolean)] *)
Definition parseNumbers (forwardNumbers : string) : list string :=
  List.filter truthy_string (List.map trim (split "," forwardNumbers)).

(** Step 5, the loop over the forward numbers; [index] is the position
    of [number] in the parsed list. *)
Fixpoint forwardLoop (w : World) (t : Whisper.TranscriptionResult)
    (senderName senderPhone : string) (index : nat) (numbers : list string)
    : list Effect :=
  match numbers with
  | [] => []
  | number :: rest =>
      (if negb (String.eqb number senderPhone) then
         SendTemplate number "voice_transcription_forward"
           [senderLabel senderName senderPhone; durationStr t; Whisper.text t]
         :: match template_delivery w index with
            | None => []
            | Some templateErr =>
                SendMessage number (forwardText t senderName senderPhone)
                :: match plain_delivery w index with
                   | None => []
                   | Some plainErr => []
                   end
            end
       else [])
      ++ forwardLoop w t senderName senderPhone (S index) rest
  end.

Definition forward (w : World) (t : Whisper.TranscriptionResult)
    (senderName senderPhone : string) : list Effect :=
  match FORWARD_TO_NUMBERS w with
  | Some forwardNumbers =>
      if truthy_string forwardNumbers
      then forwardLoop w t senderName senderPhone 0%nat (parseNumbers forwardNumbers)
      else []
  | None => []
  end.

(** Steps 3 to 5, once the transcription is there. *)
Definition saveAndNotify (w : World) (a : Audio) (senderPhone senderName : string)
    (timestamp : Z) (t : Whisper.TranscriptionResult) : list Effect * Completion unit :=
  let saved :=
    Save {| sender := senderPhone;
            senderName := senderName;
            timestamp := timestamp / 1000;
            transcription := Whisper.text t;
            language := Whisper.result_language t;
            duration := or_number (or_number (Whisper.result_duration t)
                                             (audio_duration a)) None;
            source := "whatsapp" |} in
  if strict_equal (auto_reply w) "true" then
    match reply_delivery w with
    | Some replyErr =>
        ([saved; SendMessage senderPhone (replyText t)], Threw (Some replyErr))
    | None =>
        (saved :: SendMessage senderPhone (replyText t)
               :: forward w t senderName senderPhone, Returned tt)
    end
  else (saved :: forward w t senderName senderPhone, Returned tt).

Definition mimeTypeOf (a : Audio) : string :=
  default "audio/ogg" (or_string (mime_type a) (Some "audio/ogg")).

(** The options of the call: [{ language: defaultLang !== 'auto' ?
    defaultLang : undefined }]. *)
Definition whisperOptions (w : World) : Whisper.Options :=
  let defaultLang := default_language w in
  {| Whisper.maxRetries := None;
     Whisper.opt_language :=
       if negb (strict_equal defaultLang "auto") then defaultLang else None |}.

(** The size check and step 2, with the downloaded [audioBuffer]. *)
Definition transcribeAndSave (w : World) (a : Audio) (senderPhone senderName : string)
    (timestamp : Z) (audioBuffer : Buffer.t) : option (list Effect * Completion unit) :=
  let mimeType := mimeTypeOf a in
  if Buffer.length audioBuffer >? 25 * 1024 * 1024 then
    match swallowed (notice_delivery w) with
    | None => Some ([SendMessage senderPhone TOO_LARGE_NOTICE], Returned tt)
    | Some sendErr => Some ([SendMessage senderPhone TOO_LARGE_NOTICE], Threw (Some sendErr))
    end
  else
    match Whisper.transcribeAudio (whisper w) audioBuffer mimeType (whisperOptions w) with
    | None => None
    | Some (requests, Threw e) => Some (requests, Threw e)
    | Some (requests, Returned t) =>
        let (effects, completion) := saveAndNotify w a senderPhone senderName timestamp t in
        Some (requests ++ effects, completion)
    end.

Definition prepend (effects : list Effect)
    (rest : option (list Effect * Completion unit)) : option (list Effect * Completion unit) :=
  match rest with
  | Some (effects', completion) => Some (effects ++ effects', completion)
  | None => None
  end.

(** [handleAudioMessage(message, senderPhone, senderName, timestamp)];
    [None] only if the retry loop of the Whisper client ran out of fuel. *)
Definition handleAudioMessage (w : World) (message : Message)
    (senderPhone senderName : string) (timestamp : Z)
    : option (list Effect * Completion unit) :=
  match audio message with
  | None =>
      Some ([], Threw (Some {| message :=
        "Cannot read properties of undefined (reading 'id')" |}))
  | Some a =>
      let audioId := audio_id a in
      match download w 0%nat with
      | inl audioBuffer =>
          prepend [Download audioId]
            (transcribeAndSave w a senderPhone senderName timestamp audioBuffer)
      | inr downloadErr =>
          match download w 1%nat with
          | inl audioBuffer =>
              prepend [Download audioId; Sleep 2000; Download audioId]
                (transcribeAndSave w a senderPhone senderName timestamp audioBuffer)
          | inr retryErr =>
              match swallowed (notice_delivery w) with
              | None =>
                  Some ([Download audioId; Sleep 2000; Download audioId;
                         SendMessage senderPhone DOWNLOAD_FAILED_NOTICE], Returned tt)
              | Some sendErr =>
                  Some ([Download audioId; Sleep 2000; Download audioId;
                         SendMessage senderPhone DOWNLOAD_FAILED_NOTICE],
                        Threw (Some sendErr))
              end
          end
      end
  end.

End Webhook.

(* ================================================================== *)
(** ** routes/webhook: the sequential queue *)
(* ================================================================== *)

Module Queue.
Import Js Webhook.

Record QueueItem := {
  message : Message;
  senderPhone : string;
  senderName : string
}.

(** A call [console.error(format, detail)]: the text handed over as
    first argument and the second argument, a string. *)
Record Logged := {
  log_format : string;
  log_detail : string
}.

(** The module variables [messageQueue] and [processing], and the
    activations of [processQueue] that are suspended at an [await]:
    [awaiting] holds, for each of them, the item whose handler it waits
    for.  [dispatched] and [settled] record the order in which items
    were shifted off the queue and in which their processing ended;
    [console] holds the calls of [console.error]. *)
Record State := {
  messageQueue : list QueueItem;
  processing : bool;
  awaiting : list QueueItem;
  dispatched : list QueueItem;
  settled : list QueueItem;
  console : list Logged
}.

Definition initial : State :=
  {| messageQueue := []; processing := false; awaiting := [];
     dispatched := []; settled := []; console := [] |}.

(** An item whose type is 'audio' or 'text' is handed to an async
    handler and awaited; any other type falls through the [if]. *)
Definition awaited (item : QueueItem) : bool :=
  String.eqb (type (message item)) "audio" || String.eqb (type (message item)) "text".

(** The [while] loop from its head, run until it suspends at an [await]
    or leaves the loop and clears [processing]; [queue] is the content
    of [messageQueue]. *)
Fixpoint drain (queue : list QueueItem) (st : State) : State :=
  match queue with
  | [] =>
      {| messageQueue := []; processing := false; awaiting := awaiting st;
         dispatched := dispatched st; settled := settled st; console := console st |}
  | item :: rest =>
      if awaited item then
        {| messageQueue := rest; processing := processing st;
           awaiting := awaiting st ++ [item];
           dispatched := dispatched st ++ [item];
           settled := settled st; console := console st |}
      else
        drain rest
          {| messageQueue := rest; processing := processing st;
             awaiting := awaiting st;
             dispatched := dispatched st ++ [item];
             settled := settled st ++ [item]; console := console st |}
  end.

Definition whileLoop (st : State) : State := drain (messageQueue st) st.

Definition processQueue (st : State) : State :=
  if processing st || (Z.of_nat (List.length (messageQueue st)) =? 0) then st
  else
    whileLoop
      {| messageQueue := messageQueue st; processing := true;
         awaiting := awaiting st; dispatched := dispatched st;
         settled := settled st; console := console st |}.

(** A POST /webhook request: the verdict of [verifySignature], the
    first message of the payload and the contact's profile name. *)
Record Request := {
  verified : bool;
  first_message : option Message;
  profile_name : option string
}.

Definition itemOf (m : Message) (r : Request) : QueueItem :=
  {| message := m;
     senderPhone := from m;
     senderName := default "Ismeretlen" (or_string (profile_name r) (Some "Ismeretlen")) |}.

Definition post (r : Request) (st : State) : State :=
  if negb (verified r) then st
  else
    match first_message r with
    | Some m =>
        processQueue
          {| messageQueue := messageQueue st ++ [itemOf m r];
             processing := processing st; awaiting := awaiting st;
             dispatched := dispatched st; settled := settled st;
             console := console st |}
    | None => st
    end.

(** How an awaited handler ends: its promise fulfils, or it rejects
    with an [Error]; [at_time] is the clock reading of the log line. *)
Inductive Settlement :=
| Fulfilled
| Failed (error : Error) (at_time : string).

(** The call of the [catch] clause: a template literal that holds the
    clock reading, the sender's name and the sender's phone, and
    [error.message]. *)
Definition errorLine (item : QueueItem) (error : Error) (at_time : string) : Logged :=
  {| log_format := "❌ [" +:+ at_time +:+ "] Error processing message from "
                     +:+ senderName item +:+ " (" +:+ senderPhone item +:+ "):";
     log_detail := Js.message error |}.

(** The [k]-th suspended activation resumes after its handler has
    settled: the [catch] clause logs, then the loop goes on. *)
Definition resume (k : nat) (outcome : Settlement) (st : State) : State :=
  match awaiting st !! k with
  | None => st
  | Some item =>
      whileLoop
        {| messageQueue := messageQueue st; processing := processing st;
           awaiting := delete k (awaiting st);
           dispatched := dispatched st;
           settled := settled st ++ [item];
           console :=
             match outcome with
             | Fulfilled => console st
             | Failed error at_time => console st ++ [errorLine item error at_time]
             end |}
  end.

(** What the event loop runs next. *)
Inductive Event :=
| Post (r : Request)
| Settle (k : nat) (outcome : Settlement).

Definition step (st : State) (e : Event) : State :=
  match e with
  | Post r => post r st
  | Settle k outcome => resume k outcome st
  end.

Definition run (events : list Event) (st : State) : State :=
  List.fold_left step events st.

(** The items the requests of [events] put on the queue, in order. *)
Definition enqueued (events : list Event) : list QueueItem :=
  List.flat_map
    (fun e =>
       match e with
       | Post r =>
           if verified r then
             match first_message r with
             | Some m => [itemOf m r]
             | None => []
             end
           else []
       | Settle _ _ => []
       end)
    events.

End Queue.

(* ================================================================== *)
(** ** Node: what console.error prints *)
(* ================================================================== *)

Module Console.
Import Js.

Section Format.

(** The text that one of the specifiers d, i, f, j, o and O puts in
    place of a string argument: its conversion to a number, or its JSON
    or inspected form. *)
Variable convert : ascii -> string -> string.

(** What a specifier that takes the argument puts in its place: s the
    argument itself, c nothing. *)
Definition conversion (specifier : ascii) (detail : string) : option string :=
  if Ascii.eqb specifier "s" then Some detail
  else if Ascii.eqb specifier "c" then Some EmptyString
  else if List.existsb (Ascii.eqb specifier) ["d"; "i"; "f"; "j"; "o"; "O"]%char
       then Some (convert specifier detail)
       else None.

(** The rest of the format once the argument is used up: two percent
    signs still give one, everything else stays. *)
Fixpoint leftover (format : string) : string :=
  match format with
  | String "%" (String c rest) =>
      if Ascii.eqb c "%" then String "%" (leftover rest)
      else String "%" (String c (leftover rest))
  | String c rest => String c (leftover rest)
  | EmptyString => EmptyString
  end.

(** The scan of the format while the argument is unused: the text, and
    whether a specifier has taken the argument.  A percent sign at the
    very end is no specifier. *)
Fixpoint fill (format detail : string) : string * bool :=
  match format with
  | String "%" (String c rest) =>
      if Ascii.eqb c "%" then
        let (text, used) := fill rest detail in (String "%" text, used)
      else
        match conversion c detail with
        | Some converted => (converted +:+ leftover rest, true)
        | None =>
            let (text, used) := fill rest detail in (String "%" (String c text), used)
        end
  | String c rest =>
      let (text, used) := fill rest detail in (String c text, used)
  | EmptyString => (EmptyString, false)
  end.

(** [util.format(format, detail)] for two strings: an argument that no
    specifier has taken is added after a space. *)
Definition format (format detail : string) : string :=
  let (text, used) := fill format detail in
  if used then text else text +:+ " " +:+ detail.

(** The line a call of [console.error] writes. *)
Definition printed (call : Queue.Logged) : string :=
  format (Queue.log_format call) (Queue.log_detail call).

End Format.

End Console.

(* ================================================================== *)
(** ** Vocabulary of the specification *)
(* ================================================================== *)

Module Observe.
Import Js.

(** The attempt numbers of the transcription requests, in order. *)
Definition attempts (effects : list Effect) : list Z :=
  List.flat_map (fun e => match e with WhisperRequest n _ => [n] | _ => [] end) effects.

(** The timed waits, in milliseconds. *)
Definition delays (effects : list Effect) : list Z :=
  List.flat_map (fun e => match e with Sleep ms => [ms] | _ => [] end) effects.

(** The media downloads. *)
Definition downloads (effects : list Effect) : list string :=
  List.flat_map (fun e => match e with Download m => [m] | _ => [] end) effects.

(** The records handed to the store. *)
Definition saves (effects : list Effect) : list NewTranscription :=
  List.flat_map (fun e => match e with Save r => [r] | _ => [] end) effects.

(** The plain messages sent, as (recipient, text). *)
Definition messages (effects : list Effect) : list (string * string) :=
  List.flat_map (fun e => match e with SendMessage to text => [(to, text)] | _ => [] end)
                effects.

(** The user-facing failure notices among the messages sent. *)
Definition is_notice (m : string * string) : bool :=
  String.eqb (snd m) Webhook.DOWNLOAD_FAILED_NOTICE
  || String.eqb (snd m) Webhook.TOO_LARGE_NOTICE.

Definition notices (effects : list Effect) : list (string * string) :=
  List.filter is_notice (messages effects).

(** The failures the retry policy singles out: rate limiting (429),
    the server errors 500, 502 and 503, and a rejected fetch whose
    reason mentions fetch, as in Node's "fetch failed". *)
Definition transient (o : Whisper.FetchOutcome) : bool :=
  match o with
  | Whisper.Rejected reason => includes reason "fetch"
  | Whisper.Responded r =>
      let s := Whisper.status r in
      (s =? 429) || (s =? 500) || (s =? 502) || (s =? 503)
  end.

(** The failures the claim calls retryable: rate limiting, any 5xx
    status, any rejected fetch. *)
Definition retryable_as_claimed (o : Whisper.FetchOutcome) : bool :=
  match o with
  | Whisper.Rejected _ => true
  | Whisper.Responded r =>
      let s := Whisper.status r in
      (s =? 429) || ((500 <=? s) && (s <=? 599))
  end.

(** A client error: a 4xx status other than 429. *)
Definition client_error (o : Whisper.FetchOutcome) : bool :=
  match o with
  | Whisper.Rejected _ => false
  | Whisper.Responded r =>
      let s := Whisper.status r in
      (400 <=? s) && (s <=? 499) && negb (s =? 429)
  end.

(** [c] does not occur in [p]. *)
Fixpoint lacks (c : ascii) (p : string) : bool :=
  match p with
  | EmptyString => true
  | String x p' => negb (Ascii.eqb x c) && lacks c p'
  end.

(** The statuses from 400 to 499. *)
Definition client_statuses : list Z := List.map Z.of_nat (List.seq 400 100).

(** The error an attempt throws, if it throws. *)
Definition thrown (o : Whisper.FetchOutcome) : option Error :=
  match Whisper.attemptOnce o with
  | inl _ => None
  | inr error => Some error
  end.

(** [k] attempts numbered from [attempt], each followed by its wait of
    [2 ^ attempt] seconds. *)
Fixpoint backoff (form : FormData) (attempt : Z) (k : nat) : list Effect :=
  match k with
  | O => []
  | S k' =>
      WhisperRequest attempt form :: Sleep (2 ^ attempt * 1000)
        :: backoff form (attempt + 1) k'
  end.

(** The buffer the download step of the audio handler ends with. *)
Definition downloaded (w : Webhook.World) : option Buffer.t :=
  match Webhook.download w 0%nat with
  | inl audioBuffer => Some audioBuffer
  | inr _ =>
      match Webhook.download w 1%nat with
      | inl audioBuffer => Some audioBuffer
      | inr _ => None
      end
  end.

(** The call of the Whisper client the audio handler makes. *)
Definition transcribed (w : Webhook.World) (a : Webhook.Audio) (audioBuffer : Buffer.t)
    : option (list Effect * Completion Whisper.TranscriptionResult) :=
  Whisper.transcribeAudio (Webhook.whisper w) audioBuffer
    (Webhook.mimeTypeOf a) (Webhook.whisperOptions w).

(** The duration of the record as the specification words it: the
    result's duration if present, else the message's, else null. *)
Definition duration_as_claimed (t : Whisper.TranscriptionResult) (a : Webhook.Audio)
    : option Q :=
  match Whisper.result_duration t with
  | Some d => Some d
  | None =>
      match Webhook.audio_duration a with
      | Some d => Some d
      | None => None
      end
  end.

(** The duration the handler stores: a message duration of zero counts
    as absent. *)
Definition duration_stored (t : Whisper.TranscriptionResult) (a : Webhook.Audio)
    : option Q :=
  match Whisper.result_duration t with
  | Some d => Some d
  | None =>
      match Webhook.audio_duration a with
      | Some d => if Qnum d =? 0 then None else Some d
      | None => None
      end
  end.

(** The mutating calls of the store. *)
Inductive Mutation :=
| Create (now : string) (rowid : Z) (t : NewTranscription)
| UpdateText (id : Z) (newText : string)
| DeleteOne (id : Z)
| DeleteAll
| SetSetting (key : string) (value : Value).

(** The store after the call returns. *)
Definition perform (m : Mutation) (s : Storage.Store) : Storage.Store :=
  match m with
  | Create now rowid t => Storage.saved_store (Storage.saveTranscription now rowid t s)
  | UpdateText id newText => fst (Storage.updateTranscription id newText s)
  | DeleteOne id => fst (Storage.deleteTranscription id s)
  | DeleteAll => Storage.deleteAllTranscriptions s
  | SetSetting key value => Storage.setSetting key value s
  end.

(** The queue state without the console: what is queued, in flight and
    done. *)
Definition schedule (st : Queue.State)
    : list Queue.QueueItem * bool * list Queue.QueueItem
      * list Queue.QueueItem * list Queue.QueueItem :=
  (Queue.messageQueue st, Queue.processing st, Queue.awaiting st,
   Queue.dispatched st, Queue.settled st).

(** Nothing is in flight and nothing waits. *)
Definition idle (st : Queue.State) : Prop :=
  Queue.processing st = false /\ Queue.awaiting st = [] /\ Queue.messageQueue st = [].

(** One activation of [processQueue] is suspended on one item. *)
Definition busy (st : Queue.State) : Prop :=
  Queue.processing st = true /\ exists item, Queue.awaiting st = [item].

Definition consistent (st : Queue.State) : Prop :=
  (idle st \/ busy st) /\ Queue.dispatched st = Queue.settled st ++ Queue.awaiting st.

End Observe.
(* ================================================================== *)
(** ** Sample inputs *)
(* ================================================================== *)

Module Samples.
Import Js Whisper Webhook.

Definition small_buffer : Buffer.t := {| Buffer.length := 48000 |}.

Definition ogg_form : FormData := buildForm "audio/ogg; codecs=opus" None.

Definition respond (s : Z) (body : string) (_ : Z) : FetchOutcome :=
  Responded {| status := s; body_text := body; body_json := Malformed "Unexpected token" |}.

Definition voice_note (seconds : option Q) : Message :=
  {| from := "40712345678";
     type := "audio";
     audio := Some {| audio_id := "media-77";
                      mime_type := Some "audio/ogg; codecs=opus";
                      audio_duration := seconds |};
     text_body := None |}.

Definition voice_audio (seconds : option Q) : Audio :=
  {| audio_id := "media-77";
     mime_type := Some "audio/ogg; codecs=opus";
     audio_duration := seconds |}.

Definition transcript (seconds : option Q) (_ : Z) : FetchOutcome :=
  Responded {| status := 200; body_text := "";
               body_json := Parsed {| json_text := "Szia";
                                      json_language := Some "hu";
                                      json_duration := seconds;
                                      json_segments := None |} |}.

(** A world with the given downloads and API behaviour, in which plain
    messages cannot be delivered, auto-reply is off and nothing is
    forwarded. *)
Definition world (dl : nat -> Buffer.t + Error) (api : Z -> FetchOutcome) : World :=
  {| download := dl;
     notice_delivery := Some {| message := "Failed to send WhatsApp message: 401" |};
     default_language := Some "auto";
     whisper := api;
     auto_reply := Some "false";
     reply_delivery := Some {| message := "Failed to send WhatsApp message: 401" |};
     FORWARD_TO_NUMBERS := None;
     template_delivery := fun _ => None;
     plain_delivery := fun _ => None |}.

(** A world in which everything works, auto-reply is on, and two numbers
    are configured for forwarding, the second one with no template. *)
Definition forwarding (api : Z -> FetchOutcome) : World :=
  {| download := fun _ => inl {| Buffer.length := 48000 |};
     notice_delivery := None;
     default_language := Some "hu";
     whisper := api;
     auto_reply := Some "true";
     reply_delivery := None;
     FORWARD_TO_NUMBERS := Some "40712345678, 40799999999 ,";
     template_delivery :=
       fun index => Some {| message := "Failed to send template message: 400" |};
     plain_delivery := fun _ => None |}.

Definition unreachable : Error := {| message := "Failed to get media URL: 404 Not Found" |}.

Definition never (_ : nat) : Buffer.t + Error := inr unreachable.

Definition second_time (audioBuffer : Buffer.t) (n : nat) : Buffer.t + Error :=
  match n with
  | O => inr unreachable
  | S _ => inl audioBuffer
  end.

Definition at_once (audioBuffer : Buffer.t) (_ : nat) : Buffer.t + Error :=
  inl audioBuffer.

Definition huge_buffer : Buffer.t := {| Buffer.length := 25 * 1024 * 1024 + 1 |}.

Definition sample_record (seconds : option Q) : NewTranscription :=
  {| sender := "40712345678"; senderName := "Anna"; timestamp := 1700000000;
     transcription := "Szia"; language := "hu"; duration := seconds;
     source := "whatsapp" |}.

Definition fresh_store : Storage.Store :=
  {| Storage.db := {| Storage.transcriptions := [];
                      Storage.settings :=
                        <[ "auto_reply" := "true" ]> (<[ "default_language" := "auto" ]> ∅);
                      Storage.sequence := 0 |};
     Storage.written := [] |}.

Definition signed (m : Message) : Queue.Request :=
  {| Queue.verified := true; Queue.first_message := Some m;
     Queue.profile_name := Some "Anna" |}.

Definition sticker : Message :=
  {| from := "40712345678"; type := "sticker"; audio := None; text_body := None |}.

Definition help_request : Message :=
  {| from := "40787654321"; type := "text"; audio := None; text_body := Some "help" |}.

Definition busy_morning : list Queue.Event :=
  [ Queue.Post (signed (voice_note None)); Queue.Post (signed sticker);
    Queue.Post (signed help_request); Queue.Settle 0 Queue.Fulfilled ].

End Samples.

(* ================================================================== *)
(** ** services/whatsapp: [downloadWhatsAppMedia] *)
(* ================================================================== *)

Module WhatsApp.
Import Js.

Definition WHATSAPP_API_URL : string := "https://graph.facebook.com/v18.0".

(** A GET request with its Authorization header. *)
Record Get := {
  url : string;
  authorization : string
}.

(** A response: [payload] is what reading the body gives, the parsed
    value or the message of the rejection. *)
Record Reply (A : Type) := {
  status : Z;
  statusText : string;
  payload : A + string
}.
Arguments status {A} r.
Arguments statusText {A} r.
Arguments payload {A} r.

Inductive Fetched (A : Type) :=
| Refused (reason : string)
| Replied (r : Reply A).
Arguments Refused {A} reason.
Arguments Replied {A} r.

Definition ok {A : Type} (r : Reply A) : bool :=
  (200 <=? status r) && (status r <=? 299).

(** What the network answers: to the lookup of a media id, whose JSON
    body carries the field [url] or not, and to the download of a URL. *)
Record Network := {
  lookup : string -> Fetched (option string);
  file : string -> Fetched Buffer.t
}.

(** [`Bearer ${process.env.WHATSAPP_ACCESS_TOKEN}`] *)
Definition bearer (accessToken : option string) : string :=
  "Bearer " +:+ default "undefined" accessToken.

Definition downloadWhatsAppMedia (accessToken : option string) (net : Network)
    (mediaId : string) : list Get * (Buffer.t + Error) :=
  let first := {| url := WHATSAPP_API_URL +:+ "/" +:+ mediaId;
                  authorization := bearer accessToken |} in
  match lookup net (url first) with
  | Refused reason => ([first], inr {| message := reason |})
  | Replied mediaResponse =>
      if negb (ok mediaResponse) then
        ([first], inr {| message := "Failed to get media URL: "
                                      +:+ decimal (status mediaResponse) +:+ " "
                                      +:+ statusText mediaResponse |})
      else
        match payload mediaResponse with
        | inr reason => ([first], inr {| message := reason |})
        | inl None =>
            ([first], inr {| message := "Failed to parse URL from undefined" |})
        | inl (Some mediaUrl) =>
            let second := {| url := mediaUrl; authorization := bearer accessToken |} in
            match file net mediaUrl with
            | Refused reason => ([first; second], inr {| message := reason |})
            | Replied fileResponse =>
                if negb (ok fileResponse) then
                  ([first; second],
                   inr {| message := "Failed to download media: "
                                       +:+ decimal (status fileResponse) +:+ " "
                                       +:+ statusText fileResponse |})
                else
                  match payload fileResponse with
                  | inr reason => ([first; second], inr {| message := reason |})
                  | inl audioBuffer => ([first; second], inl audioBuffer)
                  end
            end
        end
  end.

End WhatsApp.

(* ================================================================== *)
(** ** routes/webhook: signature check and verification handshake *)
(* ================================================================== *)

Module Signature.
Import Js.

Section Hmac.

(** [crypto.createHmac('sha256', key).update(data).digest('hex')] *)
Variable hmac_sha256_hex : string -> string -> string.

(** [verifySignature(req)]: [appSecret] is WHATSAPP_APP_SECRET,
    [signature] the x-hub-signature-256 header and [body] the text of
    [JSON.stringify(req.body)].  [crypto.timingSafeEqual] throws when its
    two buffers differ in length. *)
Definition verifySignature (appSecret signature : option string) (body : string)
    : Completion bool :=
  match or_string appSecret None with
  | None => Returned true
  | Some secret =>
      match or_string signature None with
      | None => Returned false
      | Some given =>
          let expected := "sha256=" +:+ hmac_sha256_hex secret body in
          if Nat.eqb (String.length given) (String.length expected)
          then Returned (String.eqb given expected)
          else Threw (Some {| message := "Input buffers must have the same byte length" |})
      end
  end.

(** POST /webhook: the status of the answer and the queue afterwards.
    An exception of the check reaches the framework, which answers 500. *)
Definition postWebhook (appSecret signature : option string) (body : string)
    (first_message : option Webhook.Message) (profile_name : option string)
    (st : Queue.State) : Z * Queue.State :=
  match verifySignature appSecret signature body with
  | Threw _ => (500, st)
  | Returned verdict =>
      (if verdict then 200 else 403,
       Queue.post {| Queue.verified := verdict;
                     Queue.first_message := first_message;
                     Queue.profile_name := profile_name |} st)
  end.

End Hmac.

(** [a === b] for two values that are each a string or undefined. *)
Definition same (a b : option string) : bool :=
  match a, b with
  | Some x, Some y => String.eqb x y
  | None, None => true
  | _, _ => false
  end.

(** GET /webhook: the status and the body of the answer.  [verifyToken]
    is WHATSAPP_VERIFY_TOKEN; the other three are the query parameters
    hub.mode, hub.verify_token and hub.challenge. *)
Definition getWebhook (verifyToken mode token challenge : option string) : Z * string :=
  if strict_equal mode "subscribe" && same token verifyToken
  then (200, default "" challenge)
  else (403, "Forbidden").

End Signature.

(* ================================================================== *)
(** ** services/storage: [initDatabase] and [getAllSettings] *)
(* ================================================================== *)

Module Startup.
Import Js Storage.

Definition empty_database : Database :=
  {| transcriptions := []; settings := ∅; sequence := 0 |}.

Definition defaults : list (string * string) :=
  [("auto_reply", "true"); ("default_language", "auto")].

(** One turn of the loop over the defaults: insert unless the key has a
    row. *)
Definition seed (d : Database) (entry : string * string) : Database :=
  match settings d !! fst entry with
  | Some _ => d
  | None =>
      {| transcriptions := transcriptions d;
         settings := <[ fst entry := snd entry ]> (settings d);
         sequence := sequence d |}
  end.

(** [initDatabase]; [onDisk] is the content of the database file, if the
    file exists. *)
Definition initDatabase (onDisk : option Database) : Store :=
  persist {| db := List.fold_left seed defaults (default empty_database onDisk);
             written := match onDisk with
                        | Some d => [d]
                        | None => []
                        end |}.

(** [getAllSettings]: the rows of [settings] as an object.  Assigning a
    string to the property __proto__ of an object has no effect. *)
Definition getAllSettings (s : Store) : gmap string string :=
  delete "__proto__" (settings (db s)).

(** GET /api/settings: the stored settings and the two computed
    entries. *)
Definition getSettings (BASE_URL ACCESS_TOKEN PHONE_NUMBER_ID : option string)
    (s : Store) : gmap string Value :=
  let webhook_url :=
    default "https://your-domain.com" (or_string BASE_URL (Some "https://your-domain.com"))
      +:+ "/webhook" in
  let connected :=
    match or_string ACCESS_TOKEN None, or_string PHONE_NUMBER_ID None with
    | Some _, Some _ => true
    | _, _ => false
    end in
  <[ "whatsapp_connected" := VBoolean connected ]>
    (<[ "webhook_url" := VString webhook_url ]> (VString <$> getAllSettings s)).

End Startup.

(* ================================================================== *)
(** ** routes/transcribe: POST /api/transcribe *)
(* ================================================================== *)

Module Upload.
Import Js Storage.

(** [req.file], as multer leaves it. *)
Record File := {
  buffer : Buffer.t;
  mimetype : string;
  originalname : string
}.

Inductive Body :=
| ErrorBody (error : string)
| ResultBody (id : Z) (text language : string) (duration : option Q)
             (segments : list string).

Record Answer := {
  status : Z;
  body : Body
}.

(** The outcome of a request: the answer sent, if one is sent, the
    requests made to the transcription API and the store afterwards. *)
Record Outcome := {
  answer : option Answer;
  requests : list Effect;
  store : Store
}.

(** The handler.  [clock] is [Date.now()], [now] and [rowid] are those of
    [saveTranscription], [senderNameField] is [req.body.senderName].  The
    [catch] clause reads [error.message], which throws when the caught
    value is [null]: then no answer is sent. *)
Definition postTranscribe (api : Z -> Whisper.FetchOutcome) (clock : Z) (now : string)
    (rowid : Z) (file : option File) (senderNameField : option string) (s : Store)
    : option Outcome :=
  match file with
  | None =>
      Some {| answer := Some {| status := 400;
                                body := ErrorBody "No audio file provided" |};
              requests := []; store := s |}
  | Some f =>
      match Whisper.transcribeAudio api (buffer f) (mimetype f) Whisper.no_options with
      | None => None
      | Some (sent, Threw None) =>
          Some {| answer := None; requests := sent; store := s |}
      | Some (sent, Threw (Some error)) =>
          Some {| answer := Some {| status := 500; body := ErrorBody (message error) |};
                  requests := sent; store := s |}
      | Some (sent, Returned result) =>
          let saved :=
            saveTranscription now rowid
              {| sender := "manual";
                 senderName :=
                   default "Kézi feltöltés"
                           (or_string senderNameField (Some "Kézi feltöltés"));
                 timestamp := clock / 1000;
                 transcription := Whisper.text result;
                 language := Whisper.result_language result;
                 duration := Whisper.result_duration result;
                 source := "manual" |} s in
          Some {| answer :=
                    Some {| status := 200;
                            body := ResultBody (saved_id saved) (Whisper.text result)
                                      (Whisper.result_language result)
                                      (Whisper.result_duration result)
                                      (Whisper.segments result) |};
                  requests := sent;
                  store := saved_store saved |}
      end
  end.

End Upload.

(* ================================================================== *)
(** ** routes/api: the event stream *)
(* ================================================================== *)

Module Stream.

(** A frame written to a client: the greeting, or a new record. *)
Inductive Frame :=
| Connected
| NewTranscription (data : Storage.Row).

(** The set [sseClients], in insertion order, and every [write] so far:
    the client written to and the frame.  A client stands for the
    response object of its request. *)
Record Hub := {
  sseClients : list nat;
  wire : list (nat * Frame)
}.

Definition quiet : Hub := {| sseClients := []; wire := [] |}.

(** [sseClients.add(res)] *)
Definition add (client : nat) (clients : list nat) : list nat :=
  if List.existsb (Nat.eqb client) clients then clients else clients ++ [client].

(** [sseClients.delete(res)] *)
Definition remove (client : nat) (clients : list nat) : list nat :=
  List.filter (fun c => negb (Nat.eqb c client)) clients.

Inductive Signal :=
| Open (client : nat)
| Close (client : nat)
| Emit (data : Storage.Row).

Definition step (h : Hub) (s : Signal) : Hub :=
  match s with
  | Open client =>
      {| sseClients := add client (sseClients h);
         wire := wire h ++ [(client, Connected)] |}
  | Close client =>
      {| sseClients := remove client (sseClients h); wire := wire h |}
  | Emit data =>
      {| sseClients := sseClients h;
         wire := wire h ++ List.map (fun client => (client, NewTranscription data))
                                    (sseClients h) |}
  end.

Definition run (signals : list Signal) (h : Hub) : Hub :=
  List.fold_left step signals h.

End Stream.

(* ================================================================== *)
(** ** routes/api: the CSV of GET /api/export *)
(* ================================================================== *)

Module Csv.
Import Js.

Definition double_quote : ascii := ascii_of_N 34%N.

(** The global [replace] of the cell: every double quote is written
    twice. *)
Fixpoint doubleQuotes (text : string) : string :=
  match text with
  | EmptyString => EmptyString
  | String c rest =>
      if Ascii.eqb c double_quote
      then String c (String c (doubleQuotes rest))
      else String c (doubleQuotes rest)
  end.

(** The cell of a value, given its rendering [String(val)]. *)
Definition csvCell (val : string) : string :=
  String double_quote (doubleQuotes val +:+ String double_quote EmptyString).

(** [pieces.join(sep)] *)
Fixpoint join (sep : string) (pieces : list string) : string :=
  match pieces with
  | [] => EmptyString
  | [piece] => piece
  | piece :: rest => piece +:+ sep +:+ join sep rest
  end.

Definition headers : list string :=
  ["id"; "sender"; "sender_name"; "timestamp"; "transcription"; "language";
   "duration"; "source"; "created_at"].

(** The renderings [String(row[h] ?? '')] of the columns of a row;
    [number_text] is [String] on the numbers of the REAL column. *)
Definition cells (number_text : Q -> string) (row : Storage.Row) : list string :=
  [ decimal (Storage.row_id row);
    Storage.row_sender row;
    Storage.row_sender_name row;
    decimal (Storage.row_timestamp row);
    Storage.row_transcription row;
    Storage.row_language row;
    match Storage.row_duration row with
    | Some seconds => number_text seconds
    | None => EmptyString
    end;
    Storage.row_source row;
    Storage.created_at row ].

Definition csvLine (values : list string) : string :=
  join ";" (List.map csvCell values).

(** U+FEFF in UTF-8. *)
Definition BOM : string :=
  String (ascii_of_N 239%N) (String (ascii_of_N 187%N) (String (ascii_of_N 191%N) EmptyString)).

(** The body of the CSV answer for the rows [data]. *)
Definition csv (number_text : Q -> string) (data : list Storage.Row) : string :=
  BOM +:+ join line_feed
            (join ";" headers :: List.map (fun row => csvLine (cells number_text row)) data).

End Csv.

(* ================================================================== *)
(** ** More vocabulary *)
(* ================================================================== *)

Module Reading.
Import Js.

(** The forms of the transcription requests, in order. *)
Definition forms (effects : list Effect) : list FormData :=
  List.flat_map (fun e => match e with WhisperRequest _ f => [f] | _ => [] end) effects.

(** The recipients of the template messages, in order. *)
Definition templates (effects : list Effect) : list string :=
  List.flat_map (fun e => match e with SendTemplate to _ _ => [to] | _ => [] end) effects.

(** The sum of a list of waits. *)
Definition total (waits : list Z) : Z := List.fold_right Z.add 0 waits.

(** The extensions of [MIME_EXT_MAP]. *)
Definition known_extensions : list string :=
  ["ogg"; "mp3"; "m4a"; "wav"; "webm"; "aac"; "flac"].

(** An effect of the download and transcription steps. *)
Definition is_intake (e : Effect) : bool :=
  match e with
  | Download _ | Sleep _ | WhisperRequest _ _ => true
  | _ => false
  end.

(** A message or a template sent. *)
Definition is_send (e : Effect) : bool :=
  match e with
  | SendMessage _ _ | SendTemplate _ _ _ => true
  | _ => false
  end.

(** The positions of [numbers], counted from [index], that forwarding
    serves: those whose number is not the sender's. *)
Fixpoint served (senderPhone : string) (index : nat) (numbers : list string)
    : list (nat * string) :=
  match numbers with
  | [] => []
  | number :: rest =>
      (if String.eqb number senderPhone then [] else [(index, number)])
      ++ served senderPhone (S index) rest
  end.

(** The plain messages forwarding falls back to: one for each served
    position whose template could not be delivered. *)
Definition fallbacks (w : Webhook.World) (text : string) (positions : list (nat * string))
    : list (string * string) :=
  List.flat_map
    (fun position =>
       match Webhook.template_delivery w (fst position) with
       | Some _ => [(snd position, text)]
       | None => []
       end)
    positions.

(** The numbers configured for forwarding. *)
Definition configured (w : Webhook.World) : list string :=
  match Webhook.FORWARD_TO_NUMBERS w with
  | Some forwardNumbers => Webhook.parseNumbers forwardNumbers
  | None => []
  end.

(** A text that is empty or starts with a character that is no white
    space. *)
Definition starts_clean (s : string) : bool :=
  match s with
  | EmptyString => true
  | String c _ => negb (is_space c)
  end.

(** The language the handler asks the Whisper client to force. *)
Definition forced_language (w : Webhook.World) : option string :=
  match Webhook.default_language w with
  | Some l => if String.eqb l "" || String.eqb l "auto" then None else Some l
  | None => None
  end.

(** The ids of the stored records. *)
Definition ids (d : Storage.Database) : list Z :=
  List.map Storage.row_id (Storage.transcriptions d).

(** Ids are distinct and none exceeds the AUTOINCREMENT counter. *)
Definition well_keyed (d : Storage.Database) : Prop :=
  List.NoDup (ids d) /\ List.Forall (fun id => id <= Storage.sequence d) (ids d).

(** The row [saveTranscription] writes for [t] under [id]. *)
Definition row_of (id : Z) (now : string) (t : NewTranscription) : Storage.Row :=
  {| Storage.row_id := id;
     Storage.row_sender := sender t;
     Storage.row_sender_name := senderName t;
     Storage.row_timestamp := timestamp t;
     Storage.row_transcription := transcription t;
     Storage.row_language := language t;
     Storage.row_duration := duration t;
     Storage.row_source := source t;
     Storage.created_at := now |}.

(** Both default settings have a row. *)
Definition seeded (d : Storage.Database) : Prop :=
  is_Some (Storage.settings d !! "auto_reply")
  /\ is_Some (Storage.settings d !! "default_language").

(** A sequence of calls of the store. *)
Definition performAll (calls : list Observe.Mutation) (s : Storage.Store) : Storage.Store :=
  List.fold_left (fun st m => Observe.perform m st) calls s.

(** The frames written to one client, in order. *)
Definition heard (client : nat) (wire : list (nat * Stream.Frame)) : list Stream.Frame :=
  List.map snd (List.filter (fun w => Nat.eqb (fst w) client) wire).

(** What one client should hear, told from its own point of view: the
    greeting whenever it opens, and the records emitted while it is
    connected.  [connected] says whether it is connected at the start. *)
Fixpoint tuned (client : nat) (connected : bool) (signals : list Stream.Signal)
    : list Stream.Frame :=
  match signals with
  | [] => []
  | Stream.Open c :: rest =>
      if Nat.eqb c client then Stream.Connected :: tuned client true rest
      else tuned client connected rest
  | Stream.Close c :: rest =>
      if Nat.eqb c client then tuned client false rest
      else tuned client connected rest
  | Stream.Emit data :: rest =>
      (if connected then [Stream.NewTranscription data] else [])
      ++ tuned client connected rest
  end.

(** Reading a cell back: [text] is what follows the opening quote; the
    result is the value and what follows the closing quote. *)
Fixpoint readCell (text : string) : option (string * string) :=
  match text with
  | EmptyString => None
  | String c rest =>
      if Ascii.eqb c Csv.double_quote then
        match rest with
        | String c' rest' =>
            if Ascii.eqb c' Csv.double_quote then
              match readCell rest' with
              | Some (value, after) => Some (String c value, after)
              | None => None
              end
            else Some (EmptyString, rest)
        | EmptyString => Some (EmptyString, EmptyString)
        end
      else
        match readCell rest with
        | Some (value, after) => Some (String c value, after)
        | None => None
        end
  end.

(** Reading a line of [count] cells back. *)
Fixpoint readLine (count : nat) (text : string) : option (list string) :=
  match count, text with
  | S count', String c rest =>
      if Ascii.eqb c Csv.double_quote then
        match readCell rest with
        | Some (value, EmptyString) =>
            match count' with
            | O => Some [value]
            | S _ => None
            end
        | Some (value, String sep after) =>
            if Ascii.eqb sep ";" then
              match readLine count' after with
              | Some values => Some (value :: values)
              | None => None
              end
            else None
        | None => None
        end
      else None
  | _, _ => None
  end.

(** What follows the closing quote of a cell in a line: nothing, or a
    separator and the next cells. *)
Definition after_cell (rest : list string) : string :=
  match rest with
  | [] => EmptyString
  | _ :: _ => ";" +:+ Csv.csvLine rest
  end.

(** Every number in [v] is a safe integer. *)
Fixpoint safe (v : Value) : bool :=
  match v with
  | VNumber z => Z.abs z <=? MAX_SAFE_INTEGER
  | VArray items => List.forallb safe items
  | _ => true
  end.

(** The values that switch the reply on: the boolean true, the string
    true, and an array whose only element is such a value. *)
Fixpoint switches_on (v : Value) : bool :=
  match v with
  | VBoolean b => b
  | VString s => String.eqb s "true"
  | VArray [item] => switches_on item
  | _ => false
  end.

(** The value an update leaves under [key]: that of its last entry with
    that key. *)
Fixpoint last_value (key : string) (body : list (string * Value)) : option Value :=
  match body with
  | [] => None
  | entry :: rest =>
      match last_value key rest with
      | Some v => Some v
      | None => if String.eqb (fst entry) key then Some (snd entry) else None
      end
  end.

End Reading.

(* ================================================================== *)
(** ** More sample inputs *)
(* ================================================================== *)

Module Cases.
Import Js.

(** A stand-in for the conversions of the format specifiers. *)
Definition no_conversion (_ : ascii) (_ : string) : string := "NaN".



(** A stand-in for the HMAC: sixty-four zeros. *)
Definition zeros (_ _ : string) : string :=
  "0000000000000000000000000000000000000000000000000000000000000000".

Definition a_row (id : Z) (text : string) : Storage.Row :=
  {| Storage.row_id := id; Storage.row_sender := "40712345678";
     Storage.row_sender_name := "Anna"; Storage.row_timestamp := 1700000000;
     Storage.row_transcription := text; Storage.row_language := "hu";
     Storage.row_duration := None; Storage.row_source := "whatsapp";
     Storage.created_at := "2024-01-01 10:00:00" |}.

Definition a_note : NewTranscription :=
  {| sender := "40712345678"; senderName := "Anna"; timestamp := 1700000000;
     transcription := "Szia"; language := "hu"; duration := None;
     source := "whatsapp" |}.

(** The sample store after one note has been saved. *)
Definition one_note : Storage.Store :=
  Storage.saved_store
    (Storage.saveTranscription "2024-01-01 10:00:00" 1 a_note Samples.fresh_store).

Definition an_upload : Upload.File :=
  {| Upload.buffer := {| Buffer.length := 48000 |};
     Upload.mimetype := "audio/mpeg"; Upload.originalname := "memo.mp3" |}.

Definition a_network (mediaUrl : string) : WhatsApp.Network :=
  {| WhatsApp.lookup := fun _ =>
       WhatsApp.Replied {| WhatsApp.status := 200; WhatsApp.statusText := "OK";
                           WhatsApp.payload := inl (Some mediaUrl) |};
     WhatsApp.file := fun _ =>
       WhatsApp.Replied {| WhatsApp.status := 200; WhatsApp.statusText := "OK";
                           WhatsApp.payload := inl {| Buffer.length := 48000 |} |} |}.

(** An API that is rate limited once and then answers. *)
Definition once_limited (attempt : Z) : Whisper.FetchOutcome :=
  if attempt =? 1 then Samples.respond 429 "slow down" attempt
  else Samples.transcript (Some (7 # 2)%Q) attempt.

(** A world in which the reply cannot be delivered although numbers are
    configured for forwarding; Romanian is forced. *)
Definition muted : Webhook.World :=
  {| Webhook.download := fun _ => inl {| Buffer.length := 48000 |};
     Webhook.notice_delivery := None;
     Webhook.default_language := Some "ro";
     Webhook.whisper := Samples.transcript None;
     Webhook.auto_reply := Some "true";
     Webhook.reply_delivery := Some {| message := "Failed to send WhatsApp message: 401" |};
     Webhook.FORWARD_TO_NUMBERS := Some "40799999999";
     Webhook.template_delivery := fun _ => None;
     Webhook.plain_delivery := fun _ => None |}.

(** A world whose stored auto_reply is the text of the number one. *)
Definition numbered : Webhook.World :=
  {| Webhook.download := fun _ => inl {| Buffer.length := 48000 |};
     Webhook.notice_delivery := None;
     Webhook.default_language := Some "auto";
     Webhook.whisper := Samples.transcript None;
     Webhook.auto_reply := Some "1";
     Webhook.reply_delivery := None;
     Webhook.FORWARD_TO_NUMBERS := None;
     Webhook.template_delivery := fun _ => None;
     Webhook.plain_delivery := fun _ => None |}.

Definition a_result : Whisper.TranscriptionResult :=
  {| Whisper.text := "Szia"; Whisper.result_language := "hu";
     Whisper.result_duration := None; Whisper.segments := [] |}.

End Cases.

(* ================================================================== *)
(** * Properties *)
(* ================================================================== *)

(** ** Substring search *)

Module JsFacts.
Import Js Observe.

Lemma prefix_empty (s : string) : String.prefix EmptyString s = true.
Proof. destruct s; reflexivity. Qed.

Lemma prefix_append_l (p a b : string) :
  String.prefix p a = true -> String.prefix p (a +:+ b) = true.
Proof.
  revert a; induction p as [|c p IH]; intros a H.
  - apply prefix_empty.
  - destruct a as [|c' a]; simpl in *; [discriminate|].
    destruct (ascii_dec c c'); [auto | discriminate].
Qed.

Lemma includes_append_l (a b p : string) :
  includes a p = true -> includes (a +:+ b) p = true.
Proof.
  induction a as [|c a IH]; simpl; intros H.
  - rewrite orb_false_r in H. destruct p; [|discriminate].
    destruct b; reflexivity.
  - apply orb_true_iff in H as [H|H].
    + apply (prefix_append_l _ (String c a) b) in H. simpl in H. rewrite H. reflexivity.
    + rewrite (IH H). apply orb_true_r.
Qed.

Lemma includes_append_r (a b p : string) :
  includes b p = true -> includes (a +:+ b) p = true.
Proof.
  induction a as [|c a IH]; simpl; intros H; [exact H|].
  rewrite (IH H). apply orb_true_r.
Qed.

Lemma append_assoc (a b c : string) : (a +:+ b) +:+ c = a +:+ b +:+ c.
Proof.
  induction a as [|x a IH]; [reflexivity|].
  change (String x ((a +:+ b) +:+ c) = String x (a +:+ b +:+ c)).
  rewrite IH. reflexivity.
Qed.

Lemma prefix_skip (c : ascii) (b p : string) :
  forall a,
    lacks c p = true ->
    String.prefix p (a +:+ String c b) = String.prefix p a.
Proof.
  induction p as [|x p IH]; intros a Hp.
  - rewrite !prefix_empty. reflexivity.
  - simpl in Hp. apply andb_true_iff in Hp as [Hx Hp].
    destruct a as [|y a]; simpl.
    + destruct (ascii_dec x c) as [->|_]; [|reflexivity].
      rewrite Ascii.eqb_refl in Hx. discriminate.
    + destruct (ascii_dec x y); [apply IH; assumption | reflexivity].
Qed.

(** An occurrence of [p] cannot straddle a character that [p] lacks. *)
Lemma includes_skip (c : ascii) (a b p : string) :
  lacks c p = true ->
  includes (a +:+ String c b) p = includes a p || includes b p.
Proof.
  intros Hp. induction a as [|y a IH].
  - pose proof (prefix_skip c b p EmptyString Hp) as H.
    change (EmptyString +:+ String c b) with (String c b) in *.
    cbn [includes]. rewrite H, orb_false_r. reflexivity.
  - pose proof (prefix_skip c b p (String y a) Hp) as H.
    change (String y a +:+ String c b) with (String y (a +:+ String c b)) in *.
    cbn [includes]. rewrite H, IH. apply orb_assoc.
Qed.

End JsFacts.

(** ** The Whisper client *)

Module WhisperFacts.
Import Js Whisper Observe Samples JsFacts.

Lemma isRetryable_marker (msg marker : string) :
  List.In marker ["429"; "500"; "502"; "503"; "fetch"] ->
  includes msg marker = true -> isRetryable msg = true.
Proof.
  unfold isRetryable; simpl.
  intros [<-|[<-|[<-|[<-|[<-|[]]]]]] ->; rewrite ?orb_true_r; reflexivity.
Qed.

(** A transient failure makes the attempt throw an error that the
    [catch] clause classifies as retryable. *)
Lemma transient_thrown (o : FetchOutcome) :
  transient o = true ->
  exists error, attemptOnce o = inr error /\ isRetryable (message error) = true.
Proof.
  destruct o as [reason | [s body parsed]]; simpl.
  - intros H. eexists; split; [reflexivity|].
    apply (isRetryable_marker _ "fetch"); simpl; auto 10.
  - intros H.
    repeat (apply orb_true_iff in H as [H|H]); apply Z.eqb_eq in H; subst s;
      (eexists; split; [reflexivity|]); cbn [message].
    + apply (isRetryable_marker _ "429"); [simpl; auto 10|].
      apply (includes_append_l "Whisper API 429"); reflexivity.
    + apply (isRetryable_marker _ "500"); [simpl; auto 10|].
      apply (includes_append_l "Whisper API 500"); reflexivity.
    + apply (isRetryable_marker _ "502"); [simpl; auto 10|].
      apply (includes_append_l "Whisper API 502"); reflexivity.
    + apply (isRetryable_marker _ "503"); [simpl; auto 10|].
      apply (includes_append_l "Whisper API 503"); reflexivity.
Qed.

Section Loop.
Variables (api : Z -> FetchOutcome) (form : FormData) (maxRetries : Z).

(** With one unit of fuel per remaining attempt the loop ends. *)
Lemma retryLoop_total (fuel : nat) (attempt : Z) (lastError : option Error) :
  maxRetries - attempt + 1 <= Z.of_nat fuel ->
  exists result, retryLoop api form maxRetries fuel attempt lastError = Some result.
Proof.
  revert attempt lastError.
  induction fuel as [|fuel IH]; intros attempt lastError Hfuel; simpl.
  - destruct (Z.leb_spec attempt maxRetries); [lia | eauto].
  - destruct (Z.leb_spec attempt maxRetries); [|eauto].
    destruct (attemptOnce (api attempt)) as [result|error]; [eauto|].
    destruct ((attempt <? maxRetries) && isRetryable (message error)); [|eauto].
    destruct (IH (attempt + 1) (Some error)) as [[effects completion] ->]; [lia | eauto].
Qed.

(** An iteration always starts with a request. *)
Lemma retryLoop_request (fuel : nat) (attempt : Z) (lastError : option Error) :
  attempt <= maxRetries ->
  maxRetries - attempt + 1 <= Z.of_nat fuel ->
  exists rest completion,
    retryLoop api form maxRetries fuel attempt lastError
    = Some (WhisperRequest attempt form :: rest, completion).
Proof.
  intros Hle Hfuel. destruct fuel as [|fuel]; [lia|]. simpl.
  destruct (Z.leb_spec attempt maxRetries); [|lia].
  destruct (attemptOnce (api attempt)) as [result|error]; [eauto|].
  destruct ((attempt <? maxRetries) && isRetryable (message error)); [|eauto].
  destruct (retryLoop_total fuel (attempt + 1) (Some error)) as [[effects completion] ->];
    [lia | eauto].
Qed.

(** [k] transient failures in a row, with attempts remaining after
    each, produce [k] requests each followed by its wait, and the
    loop goes on with the next attempt. *)
Lemma retryLoop_backoff (k : nat) :
  forall (fuel : nat) (attempt : Z) (lastError : option Error),
    attempt + Z.of_nat k <= maxRetries ->
    maxRetries - attempt + 1 <= Z.of_nat fuel ->
    (forall j, attempt <= j < attempt + Z.of_nat k -> transient (api j) = true) ->
    exists rest completion,
      retryLoop api form maxRetries fuel attempt lastError
      = Some (backoff form attempt k
                ++ WhisperRequest (attempt + Z.of_nat k) form :: rest, completion).
Proof.
  induction k as [|k IH]; intros fuel attempt lastError Hle Hfuel Hall.
  - rewrite Z.add_0_r. simpl. apply retryLoop_request; lia.
  - destruct fuel as [|fuel]; [lia|]. simpl.
    destruct (Z.leb_spec attempt maxRetries); [|lia].
    destruct (transient_thrown (api attempt)) as (error & -> & ->); [apply Hall; lia|].
    destruct (Z.ltb_spec attempt maxRetries); [|lia]. simpl.
    destruct (IH fuel (attempt + 1) (Some error)) as (rest & completion & ->);
      [lia | lia | intros; apply Hall; lia |].
    replace (attempt + 1 + Z.of_nat k) with (attempt + Z.of_nat (S k)) by lia.
    eauto.
Qed.

(** When every attempt fails transiently the loop makes [maxRetries]
    attempts, waits between them and throws the last error. *)
Lemma retryLoop_exhausted (k : nat) :
  forall (fuel : nat) (attempt : Z) (lastError : option Error),
    attempt + Z.of_nat k = maxRetries ->
    maxRetries - attempt + 1 <= Z.of_nat fuel ->
    (forall j, attempt <= j <= maxRetries -> transient (api j) = true) ->
    retryLoop api form maxRetries fuel attempt lastError
    = Some (backoff form attempt k ++ [WhisperRequest maxRetries form],
            Threw (thrown (api maxRetries))).
Proof.
  induction k as [|k IH]; intros fuel attempt lastError Hle Hfuel Hall.
  - rewrite Z.add_0_r in Hle. subst attempt.
    destruct fuel as [|fuel]; [lia|]. simpl.
    destruct (Z.leb_spec maxRetries maxRetries); [|lia].
    unfold thrown.
    destruct (transient_thrown (api maxRetries)) as (error & -> & _); [apply Hall; lia|].
    destruct (Z.ltb_spec maxRetries maxRetries); [lia|]. reflexivity.
  - destruct fuel as [|fuel]; [lia|]. simpl.
    destruct (Z.leb_spec attempt maxRetries); [|lia].
    destruct (transient_thrown (api attempt)) as (error & -> & ->); [apply Hall; lia|].
    destruct (Z.ltb_spec attempt maxRetries); [|lia]. simpl.
    rewrite (IH fuel (attempt + 1) (Some error)); [reflexivity | lia | lia |].
    intros; apply Hall; lia.
Qed.

End Loop.

Lemma size_guard_passes (audioBuffer : Buffer.t) :
  Buffer.length audioBuffer <= MAX_FILE_SIZE ->
  (Buffer.length audioBuffer >? MAX_FILE_SIZE) = false.
Proof.
  intros H.
  destruct (Z.gtb_spec (Buffer.length audioBuffer) MAX_FILE_SIZE); [lia | reflexivity].
Qed.

(** [transcribeAudio] always completes: the fuel it gives the loop is
    enough. *)
Lemma transcribeAudio_total (api : Z -> FetchOutcome) (audioBuffer : Buffer.t)
    (mimeType : string) (options : Options) :
  exists result, transcribeAudio api audioBuffer mimeType options = Some result.
Proof.
  unfold transcribeAudio.
  destruct (Buffer.length audioBuffer >? MAX_FILE_SIZE); [eauto|].
  apply retryLoop_total. lia.
Qed.

(** The duration of a result is never a falsy number. *)
Lemma attemptOnce_duration (o : FetchOutcome) (t : TranscriptionResult) (d : Q) :
  attemptOnce o = inl t -> result_duration t = Some d -> Qnum d <> 0.
Proof.
  destruct o as [reason | r]; simpl; [discriminate|].
  destruct (negb (ok r)).
  - destruct ((status r <? 500) && negb (status r =? 429)); discriminate.
  - destruct (body_json r) as [v|]; [|discriminate].
    intros [= <-]; simpl. unfold or_number, truthy_number.
    destruct (json_duration v) as [q|]; [|discriminate].
    destruct (Z.eqb_spec (Qnum q) 0); simpl; [discriminate|]. intros [= <-]; assumption.
Qed.

Lemma retryLoop_duration (api : Z -> FetchOutcome) (form : FormData) (maxRetries : Z)
    (fuel : nat) :
  forall (attempt : Z) (lastError : option Error) effects t d,
    retryLoop api form maxRetries fuel attempt lastError = Some (effects, Returned t) ->
    result_duration t = Some d -> Qnum d <> 0.
Proof.
  induction fuel as [|fuel IH]; intros attempt lastError effects t d; simpl.
  - destruct (attempt <=? maxRetries); discriminate.
  - destruct (attempt <=? maxRetries); [|discriminate].
    destruct (attemptOnce (api attempt)) as [result|error] eqn:Hone.
    + intros [= <- <-]. eapply attemptOnce_duration; eassumption.
    + destruct ((attempt <? maxRetries) && isRetryable (message error)); [|discriminate].
      destruct (retryLoop api form maxRetries fuel (attempt + 1) (Some error))
        as [[effects' completion]|] eqn:Hrec; [|discriminate].
      intros [= <- ->]. eapply IH; eassumption.
Qed.

Lemma transcribeAudio_duration (api : Z -> FetchOutcome) (audioBuffer : Buffer.t)
    (mimeType : string) (options : Options) effects t d :
  transcribeAudio api audioBuffer mimeType options = Some (effects, Returned t) ->
  result_duration t = Some d -> Qnum d <> 0.
Proof.
  unfold transcribeAudio.
  destruct (Buffer.length audioBuffer >? MAX_FILE_SIZE); [discriminate|].
  apply retryLoop_duration.
Qed.

(** A client error whose message carries none of the markers ends the
    call after one attempt. *)
Lemma client_error_single_attempt (api : Z -> FetchOutcome) (audioBuffer : Buffer.t)
    (mimeType : string) (options : Options) (error : Error) :
  Buffer.length audioBuffer <= MAX_FILE_SIZE ->
  1 <= default 3 (maxRetries options) ->
  thrown (api 1) = Some error ->
  isRetryable (message error) = false ->
  transcribeAudio api audioBuffer mimeType options
  = Some ([WhisperRequest 1 (buildForm mimeType (opt_language options))],
          Threw (Some error)).
Proof.
  intros Hsize Hretries Hthrown Hmsg. unfold transcribeAudio.
  rewrite size_guard_passes by assumption.
  destruct (Z.to_nat (default 3 (maxRetries options))) eqn:Hfuel; [lia|]. simpl.
  destruct (Z.leb_spec 1 (default 3 (maxRetries options))); [|lia].
  unfold thrown in Hthrown.
  destruct (attemptOnce (api 1)) as [|error']; [discriminate|].
  injection Hthrown as ->. rewrite Hmsg, andb_false_r. reflexivity.
Qed.

(** The error message of a failed response is retryable exactly when its
    head, up to the colon, or the response body is. *)
Lemma isRetryable_message (head body : string) :
  isRetryable (head +:+ ": " +:+ body)
  = isRetryable (head +:+ ":") || isRetryable body.
Proof.
  assert (Hsplit : forall marker,
             lacks " " marker = true ->
             includes (head +:+ ": " +:+ body) marker
             = includes (head +:+ ":") marker || includes body marker).
  { intros marker Hm. rewrite <- (includes_skip " " (head +:+ ":") body marker Hm).
    f_equal. symmetry. apply (append_assoc head ":" (String " " body)). }
  unfold isRetryable. rewrite !Hsplit by reflexivity.
  destruct (includes (head +:+ ":") "429"), (includes (head +:+ ":") "500"),
    (includes (head +:+ ":") "502"), (includes (head +:+ ":") "503"),
    (includes (head +:+ ":") "fetch");
    simpl; rewrite ?orb_true_r; reflexivity.
Qed.

Lemma client_statuses_spec (s : Z) : 400 <= s <= 499 -> List.In s client_statuses.
Proof.
  intros Hs. unfold client_statuses. apply List.in_map_iff.
  exists (Z.to_nat s). split; [lia|]. apply List.in_seq. lia.
Qed.

(** The text before the body of a client error names no marker. *)
Lemma client_error_head (s : Z) :
  400 <= s <= 499 -> s <> 429 ->
  isRetryable ("Whisper API error " +:+ decimal s +:+ ":") = false.
Proof.
  intros Hs Hne.
  assert (Hall : List.forallb
                   (fun s => (s =? 429)
                             || negb (isRetryable ("Whisper API error " +:+ decimal s +:+ ":")))
                   client_statuses = true) by (vm_compute; reflexivity).
  rewrite List.forallb_forall in Hall.
  specialize (Hall s (client_statuses_spec s Hs)).
  destruct (Z.eqb_spec s 429); [contradiction|].
  simpl in Hall. apply negb_true_iff in Hall. exact Hall.
Qed.

(** A 4xx response other than 429 whose body names no marker ends the
    call after one attempt, whatever the number of retries. *)
Lemma client_error_with_clean_body (api : Z -> FetchOutcome) (audioBuffer : Buffer.t)
    (mimeType : string) (options : Options) (r : Response) :
  Buffer.length audioBuffer <= MAX_FILE_SIZE ->
  1 <= default 3 (maxRetries options) ->
  api 1 = Responded r ->
  client_error (Responded r) = true ->
  isRetryable (body_text r) = false ->
  transcribeAudio api audioBuffer mimeType options
  = Some ([WhisperRequest 1 (buildForm mimeType (opt_language options))],
          Threw (Some {| message := "Whisper API error " +:+ decimal (status r)
                                     +:+ ": " +:+ body_text r |})).
Proof.
  intros Hsize Hretries Hapi Hclient Hbody.
  unfold client_error in Hclient.
  apply andb_true_iff in Hclient as [Hrange Hne].
  apply andb_true_iff in Hrange as [Hlo Hhi].
  apply Z.leb_le in Hlo, Hhi. apply negb_true_iff, Z.eqb_neq in Hne.
  apply client_error_single_attempt; try assumption.
  - unfold thrown. rewrite Hapi. unfold attemptOnce, ok.
    destruct (Z.leb_spec (status r) 299); [lia|]. rewrite andb_false_r. cbn [negb].
    destruct (Z.ltb_spec (status r) 500); [|lia].
    destruct (Z.eqb_spec (status r) 429); [contradiction|]. reflexivity.
  - cbn [message]. rewrite <- append_assoc, isRetryable_message, Hbody, orb_false_r.
    rewrite append_assoc. apply client_error_head; [lia | assumption].
Qed.

(** C2 (amended): a failure with status 429, 500, 502 or 503, or a
    rejected fetch whose reason mentions fetch, that leaves attempts
    remaining is followed by a wait of 2^attempt seconds and by the next
    attempt: 2, 4 and 8 seconds after attempts 1, 2 and 3.  When every
    attempt fails this way and maxRetries is 3, exactly three attempts
    are made, with waits of 2 and 4 seconds, and the call throws the
    error of the third attempt. *)
Theorem transient_failures_back_off (api : Z -> FetchOutcome) (audioBuffer : Buffer.t)
    (mimeType : string) (options : Options) :
  Buffer.length audioBuffer <= MAX_FILE_SIZE ->
  let retries := default 3 (maxRetries options) in
  let form := buildForm mimeType (opt_language options) in
  (forall k : nat,
      Z.of_nat k < retries ->
      (forall j, 1 <= j <= Z.of_nat k -> transient (api j) = true) ->
      exists rest completion,
        transcribeAudio api audioBuffer mimeType options
        = Some (backoff form 1 k ++ WhisperRequest (Z.of_nat k + 1) form :: rest,
                completion))
  /\ backoff form 1 3
     = [WhisperRequest 1 form; Sleep 2000; WhisperRequest 2 form; Sleep 4000;
        WhisperRequest 3 form; Sleep 8000]
  /\ (retries = 3 ->
      (forall j, 1 <= j <= 3 -> transient (api j) = true) ->
      exists error,
        thrown (api 3) = Some error /\
        transcribeAudio api audioBuffer mimeType options
        = Some ([WhisperRequest 1 form; Sleep 2000; WhisperRequest 2 form; Sleep 4000;
                 WhisperRequest 3 form], Threw (Some error))).
Proof.
  intros Hsize retries form. unfold transcribeAudio.
  rewrite size_guard_passes by assumption. fold retries form.
  split; [|split].
  - intros k Hk Hall.
    destruct (retryLoop_backoff api form retries k (Z.to_nat retries) 1 None)
      as (rest & completion & Heq); [lia | lia | intros; apply Hall; lia |].
    rewrite Heq. replace (1 + Z.of_nat k) with (Z.of_nat k + 1) by lia. eauto.
  - reflexivity.
  - intros Hretries Hall.
    destruct (transient_thrown (api 3)) as (error & Hone & _); [apply Hall; lia|].
    exists error. split; [unfold thrown; rewrite Hone; reflexivity|].
    rewrite (retryLoop_exhausted api form retries 2%nat); [| lia | lia |].
    + rewrite Hretries. unfold thrown. rewrite Hone. reflexivity.
    + intros; apply Hall; lia.
Qed.

Lemma transient_failures_back_off_witness :
  Buffer.length small_buffer <= MAX_FILE_SIZE /\
  transcribeAudio (respond 503 "overloaded") small_buffer "audio/ogg; codecs=opus" no_options
  = Some ([WhisperRequest 1 ogg_form; Sleep 2000; WhisperRequest 2 ogg_form; Sleep 4000;
           WhisperRequest 3 ogg_form],
          Threw (Some {| message := "Whisper API 503: overloaded" |})).
Proof.
  assert (Hsize : Buffer.length small_buffer <= MAX_FILE_SIZE) by (vm_compute; discriminate).
  split; [exact Hsize|].
  destruct (transient_failures_back_off (respond 503 "overloaded") small_buffer
              "audio/ogg; codecs=opus" no_options Hsize) as (_ & _ & H).
  destruct (H eq_refl (fun j _ => eq_refl)) as (error & Hthrown & Heq).
  injection Hthrown as <-. exact Heq.
Defined.

(** C2, counterexample: a 504 response is a 5xx failure, yet with three
    attempts allowed the call makes one attempt, waits for nothing and
    throws. *)
Lemma gateway_timeout_not_retried :
  (forall j, retryable_as_claimed (respond 504 "" j) = true) /\
  transcribeAudio (respond 504 "") small_buffer "audio/ogg; codecs=opus"
                  {| maxRetries := Some 3; opt_language := None |}
  = Some ([WhisperRequest 1 ogg_form], Threw (Some {| message := "Whisper API 504: " |})).
Proof. split; [intros j|]; reflexivity. Qed.

(** C5, at the failing input: a 400 response whose body mentions 500
    is retried; the call makes three attempts, not one. *)
Theorem client_error_retried_on_marker_in_body :
  (forall j, client_error (respond 400 "Unsupported file: 15000 bytes received" j) = true) /\
  exists effects,
    transcribeAudio (respond 400 "Unsupported file: 15000 bytes received")
                    small_buffer "audio/ogg; codecs=opus" no_options
    = Some (effects,
            Threw (Some {| message :=
              "Whisper API error 400: Unsupported file: 15000 bytes received" |}))
    /\ attempts effects = [1; 2; 3]
    /\ delays effects = [2000; 4000].
Proof.
  split; [intros j; reflexivity|].
  eexists. split; [vm_compute; reflexivity|]. split; reflexivity.
Qed.

(** C10: with a buffer within the limit and maxRetries zero or negative,
    [transcribeAudio] makes no request and throws the initial [null] of
    [lastError]. *)
Theorem no_attempt_without_retries (api : Z -> FetchOutcome) (audioBuffer : Buffer.t)
    (mimeType : string) (retries : Z) (lang : option string) :
  Buffer.length audioBuffer <= MAX_FILE_SIZE ->
  retries <= 0 ->
  transcribeAudio api audioBuffer mimeType
                  {| maxRetries := Some retries; opt_language := lang |}
  = Some ([], Threw None).
Proof.
  intros Hsize Hretries. unfold transcribeAudio.
  rewrite size_guard_passes by assumption. simpl.
  destruct (Z.to_nat retries); simpl;
    destruct (Z.leb_spec 1 retries); solve [lia | reflexivity].
Qed.

Lemma no_attempt_without_retries_witness :
  Buffer.length small_buffer <= MAX_FILE_SIZE /\ 0 <= 0 /\
  transcribeAudio (respond 200 "") small_buffer "audio/ogg"
                  {| maxRetries := Some 0; opt_language := Some "hu" |}
  = Some ([], Threw None).
Proof.
  assert (Hsize : Buffer.length small_buffer <= MAX_FILE_SIZE) by (vm_compute; discriminate).
  split; [exact Hsize|]. split; [lia|].
  apply (no_attempt_without_retries _ _ _ 0 _ Hsize). lia.
Defined.

End WhisperFacts.

(** ** The audio handler *)

Module HandlerFacts.
Import Js Whisper Webhook Observe Samples WhisperFacts.

Lemma saves_app (xs ys : list Effect) : saves (xs ++ ys) = saves xs ++ saves ys.
Proof. apply List.flat_map_app. Qed.

Lemma messages_app (xs ys : list Effect) : messages (xs ++ ys) = messages xs ++ messages ys.
Proof. apply List.flat_map_app. Qed.

Lemma downloads_app (xs ys : list Effect) :
  downloads (xs ++ ys) = downloads xs ++ downloads ys.
Proof. apply List.flat_map_app. Qed.

Lemma notices_app (xs ys : list Effect) : notices (xs ++ ys) = notices xs ++ notices ys.
Proof. unfold notices. rewrite messages_app. apply List.filter_app. Qed.

(** The Whisper client only sends requests and sleeps. *)
Lemma retryLoop_quiet (api : Z -> FetchOutcome) (form : FormData) (retries : Z)
    (fuel : nat) :
  forall (attempt : Z) (lastError : option Error) effects completion,
    retryLoop api form retries fuel attempt lastError = Some (effects, completion) ->
    saves effects = [] /\ messages effects = [] /\ downloads effects = [].
Proof.
  induction fuel as [|fuel IH]; intros attempt lastError effects completion; simpl.
  - destruct (attempt <=? retries); [discriminate|]. intros [= <- _]. auto.
  - destruct (attempt <=? retries); [|intros [= <- _]; auto].
    destruct (attemptOnce (api attempt)) as [result|error]; [intros [= <- _]; auto|].
    destruct ((attempt <? retries) && isRetryable (message error));
      [|intros [= <- _]; auto].
    destruct (retryLoop api form retries fuel (attempt + 1) (Some error))
      as [[effects' completion']|] eqn:Hrec; [|discriminate].
    intros [= <- _]. apply IH in Hrec. exact Hrec.
Qed.

Lemma transcribeAudio_quiet (api : Z -> FetchOutcome) (audioBuffer : Buffer.t)
    (mimeType : string) (options : Options) effects completion :
  transcribeAudio api audioBuffer mimeType options = Some (effects, completion) ->
  saves effects = [] /\ messages effects = [] /\ downloads effects = [].
Proof.
  unfold transcribeAudio.
  destruct (Buffer.length audioBuffer >? MAX_FILE_SIZE); [intros [= <- _]; auto|].
  apply retryLoop_quiet.
Qed.

(** The texts of the reply and of the forward are not failure notices. *)
Lemma reply_is_no_notice (to : string) (t : TranscriptionResult) :
  is_notice (to, replyText t) = false.
Proof. reflexivity. Qed.

Lemma forward_is_no_notice (to : string) (t : TranscriptionResult)
    (senderName senderPhone : string) :
  is_notice (to, forwardText t senderName senderPhone) = false.
Proof. reflexivity. Qed.

(** Forwarding saves nothing, downloads nothing and sends no notice. *)
Lemma forwardLoop_quiet (w : World) (t : TranscriptionResult)
    (senderName senderPhone : string) (numbers : list string) :
  forall index,
    let effects := forwardLoop w t senderName senderPhone index numbers in
    saves effects = [] /\ notices effects = [] /\ downloads effects = [].
Proof.
  induction numbers as [|number rest IH]; intros index; simpl; [auto|].
  rewrite saves_app, notices_app, downloads_app.
  destruct (IH (S index)) as (-> & -> & ->).
  destruct (negb (String.eqb number senderPhone)); [|auto].
  destruct (template_delivery w index); [|auto].
  destruct (plain_delivery w index); auto.
Qed.

Lemma forward_quiet (w : World) (t : TranscriptionResult)
    (senderName senderPhone : string) :
  let effects := forward w t senderName senderPhone in
  saves effects = [] /\ notices effects = [] /\ downloads effects = [].
Proof.
  unfold forward. destruct (FORWARD_TO_NUMBERS w) as [forwardNumbers|]; [|simpl; auto].
  destruct (truthy_string forwardNumbers); [|simpl; auto].
  apply forwardLoop_quiet.
Qed.

(** Steps 3 to 5 save one record, the one built from the result. *)
Lemma saveAndNotify_effects (w : World) (a : Audio) (senderPhone senderName : string)
    (timestamp : Z) (t : TranscriptionResult) :
  let effects := fst (saveAndNotify w a senderPhone senderName timestamp t) in
  (exists r, saves effects = [r] /\ source r = "whatsapp" /\
             duration r = or_number (or_number (result_duration t) (audio_duration a)) None)
  /\ notices effects = [] /\ downloads effects = [].
Proof.
  unfold saveAndNotify.
  destruct (forward_quiet w t senderName senderPhone) as (Hs & Hn & Hd).
  destruct (strict_equal (auto_reply w) "true"); [destruct (reply_delivery w)|]; simpl.
  - split; [eexists; split; [reflexivity|split; reflexivity]|]. auto.
  - unfold saves, notices, messages, downloads in *; simpl.
    rewrite Hs, Hd.
    split; [eexists; split; [reflexivity|split; reflexivity]|].
    split; [|reflexivity].
    exact Hn.
  - unfold saves, notices, messages, downloads in *; simpl.
    rewrite Hs, Hd, Hn.
    split; [eexists; split; [reflexivity|split; reflexivity]|]. auto.
Qed.

Lemma stored_duration (t : TranscriptionResult) (a : Audio) :
  (forall d, result_duration t = Some d -> Qnum d <> 0) ->
  or_number (or_number (result_duration t) (audio_duration a)) None = duration_stored t a.
Proof.
  intros Hd. unfold duration_stored, or_number, truthy_number.
  destruct (result_duration t) as [d|].
  - destruct (Z.eqb_spec (Qnum d) 0) as [Hz|Hz]; simpl.
    + exfalso. exact (Hd d eq_refl Hz).
    + rewrite (proj2 (Z.eqb_neq _ _) Hz). reflexivity.
  - destruct (audio_duration a) as [d|]; [|reflexivity].
    destruct (Qnum d =? 0); reflexivity.
Qed.

(** A record saved after the download step comes from a transcription
    that returned. *)
Lemma transcribeAndSave_saves (w : World) (a : Audio) (senderPhone senderName : string)
    (timestamp : Z) (audioBuffer : Buffer.t) effects completion (r : NewTranscription) :
  transcribeAndSave w a senderPhone senderName timestamp audioBuffer
  = Some (effects, completion) ->
  List.In r (saves effects) ->
  exists requests t,
    transcribed w a audioBuffer = Some (requests, Returned t) /\
    source r = "whatsapp" /\ duration r = duration_stored t a.
Proof.
  unfold transcribeAndSave, transcribed.
  destruct (Buffer.length audioBuffer >? 25 * 1024 * 1024).
  - simpl. intros [= <- _] [].
  - destruct (transcribeAudio (whisper w) audioBuffer (mimeTypeOf a) (whisperOptions w))
      as [[requests [t|e]]|] eqn:Hcall; [| |discriminate].
    + destruct (saveAndNotify_effects w a senderPhone senderName timestamp t)
        as ((r0 & Hsaves & Hsource & Hduration) & _).
      destruct (saveAndNotify w a senderPhone senderName timestamp t) as [effects' c].
      simpl in Hsaves. intros [= <- _]. rewrite saves_app.
      destruct (transcribeAudio_quiet _ _ _ _ _ _ Hcall) as (-> & _).
      rewrite Hsaves. simpl. intros [<-|[]].
      exists requests, t. split; [reflexivity|]. split; [assumption|].
      rewrite Hduration. apply stored_duration.
      intros d. eapply transcribeAudio_duration; eassumption.
    + intros [= <- _]. destruct (transcribeAudio_quiet _ _ _ _ _ _ Hcall) as (-> & _).
      intros [].
Qed.

(** When the buffer is within the limit and the transcription returns,
    one record is saved and no failure notice goes out. *)
Lemma transcribeAndSave_success (w : World) (a : Audio) (senderPhone senderName : string)
    (timestamp : Z) (audioBuffer : Buffer.t) requests (t : TranscriptionResult) :
  Buffer.length audioBuffer <= 25 * 1024 * 1024 ->
  transcribed w a audioBuffer = Some (requests, Returned t) ->
  exists effects completion,
    transcribeAndSave w a senderPhone senderName timestamp audioBuffer
    = Some (effects, completion)
    /\ List.length (saves effects) = 1%nat /\ notices effects = []
    /\ downloads effects = [].
Proof.
  intros Hsize Hcall. unfold transcribeAndSave. unfold transcribed in Hcall.
  destruct (Z.gtb_spec (Buffer.length audioBuffer) (25 * 1024 * 1024)); [lia|].
  rewrite Hcall.
  destruct (saveAndNotify_effects w a senderPhone senderName timestamp t)
    as ((r0 & Hsaves & _) & Hnotices & Hdownloads).
  destruct (saveAndNotify w a senderPhone senderName timestamp t) as [effects' c].
  simpl in Hsaves, Hnotices, Hdownloads.
  exists (requests ++ effects'), c. split; [reflexivity|].
  destruct (transcribeAudio_quiet _ _ _ _ _ _ Hcall) as (Hs & Hm & Hd).
  rewrite saves_app, notices_app, downloads_app, Hs, Hd, Hsaves, Hnotices, Hdownloads.
  unfold notices. rewrite Hm. auto.
Qed.

(** The download step is the only one that downloads. *)
Lemma transcribeAndSave_downloads (w : World) (a : Audio) (senderPhone senderName : string)
    (timestamp : Z) (audioBuffer : Buffer.t) effects completion :
  transcribeAndSave w a senderPhone senderName timestamp audioBuffer
  = Some (effects, completion) ->
  downloads effects = [].
Proof.
  unfold transcribeAndSave.
  destruct (Buffer.length audioBuffer >? 25 * 1024 * 1024); [intros [= <- _]; reflexivity|].
  destruct (transcribeAudio (whisper w) audioBuffer (mimeTypeOf a) (whisperOptions w))
    as [[requests [t|e]]|] eqn:Hcall; [| |discriminate].
  - destruct (saveAndNotify_effects w a senderPhone senderName timestamp t)
      as (_ & _ & Hdownloads).
    destruct (saveAndNotify w a senderPhone senderName timestamp t) as [effects' c].
    simpl in Hdownloads. intros [= <- _]. rewrite downloads_app, Hdownloads.
    destruct (transcribeAudio_quiet _ _ _ _ _ _ Hcall) as (_ & _ & ->). reflexivity.
  - intros [= <- _]. destruct (transcribeAudio_quiet _ _ _ _ _ _ Hcall) as (_ & _ & ->).
    reflexivity.
Qed.

Lemma transcribeAndSave_total (w : World) (a : Audio) (senderPhone senderName : string)
    (timestamp : Z) (audioBuffer : Buffer.t) :
  exists result,
    transcribeAndSave w a senderPhone senderName timestamp audioBuffer = Some result.
Proof.
  unfold transcribeAndSave.
  destruct (Buffer.length audioBuffer >? 25 * 1024 * 1024); [simpl; eauto|].
  destruct (transcribeAudio_total (whisper w) audioBuffer (mimeTypeOf a) (whisperOptions w))
    as [[requests [t|e]] ->]; [|eauto].
  destruct (saveAndNotify w a senderPhone senderName timestamp t). eauto.
Qed.

(** The handler always completes. *)
Lemma handleAudioMessage_total (w : World) (message : Message)
    (senderPhone senderName : string) (timestamp : Z) :
  exists result,
    handleAudioMessage w message senderPhone senderName timestamp = Some result.
Proof.
  unfold handleAudioMessage. destruct (audio message) as [a|]; [|eauto].
  destruct (download w 0%nat) as [audioBuffer|downloadErr].
  - destruct (transcribeAndSave_total w a senderPhone senderName timestamp audioBuffer)
      as [[effects c] ->]. simpl. eauto.
  - destruct (download w 1%nat) as [audioBuffer|retryErr]; [|simpl; eauto].
    destruct (transcribeAndSave_total w a senderPhone senderName timestamp audioBuffer)
      as [[effects c] ->]. simpl. eauto.
Qed.

(** The loop throws [null] only when it makes no attempt. *)
Lemma retryLoop_throws_null (api : Z -> FetchOutcome) (form : FormData) (retries : Z)
    (fuel : nat) :
  forall (attempt : Z) (lastError : option Error) effects,
    retryLoop api form retries fuel attempt lastError = Some (effects, Threw None) ->
    lastError = None /\ retries < attempt.
Proof.
  induction fuel as [|fuel IH]; intros attempt lastError effects; simpl.
  - destruct (Z.leb_spec attempt retries); [discriminate|]. intros [= _ ->]. auto.
  - destruct (Z.leb_spec attempt retries); [|intros [= _ ->]; auto].
    destruct (attemptOnce (api attempt)) as [result|error]; [discriminate|].
    destruct ((attempt <? retries) && isRetryable (Js.message error)); [|discriminate].
    destruct (retryLoop api form retries fuel (attempt + 1) (Some error))
      as [[effects' completion]|] eqn:Hrec; [|discriminate].
    intros [= _ ->]. apply IH in Hrec as [Hrec _]. discriminate.
Qed.

(** What the handler throws is an [Error] object, never [null]. *)
Lemma handleAudioMessage_throws_Error (w : World) (message : Message)
    (senderPhone senderName : string) (timestamp : Z) effects :
  handleAudioMessage w message senderPhone senderName timestamp
  <> Some (effects, Threw None).
Proof.
  assert (Hcall : forall a audioBuffer eff,
             transcribeAndSave w a senderPhone senderName timestamp audioBuffer
             <> Some (eff, Threw None)).
  { intros a audioBuffer eff. unfold transcribeAndSave.
    destruct (Buffer.length audioBuffer >? 25 * 1024 * 1024); [discriminate|].
    destruct (transcribeAudio (whisper w) audioBuffer (mimeTypeOf a) (whisperOptions w))
      as [[requests [t|e]]|] eqn:Hcall; [| |discriminate].
    - unfold saveAndNotify.
      destruct (strict_equal (auto_reply w) "true"); [destruct (reply_delivery w)|];
        discriminate.
    - intros [= -> ->]. revert Hcall. unfold transcribeAudio.
      destruct (Buffer.length audioBuffer >? MAX_FILE_SIZE); [discriminate|].
      intros Hcall. apply retryLoop_throws_null in Hcall as [_ Hcall].
      simpl in Hcall. lia. }
  unfold handleAudioMessage. destruct (audio message) as [a|]; [|discriminate].
  destruct (download w 0%nat) as [audioBuffer|downloadErr].
  - specialize (Hcall a audioBuffer).
    destruct (transcribeAndSave w a senderPhone senderName timestamp audioBuffer)
      as [[eff c]|]; [|discriminate].
    simpl. intros [= _ ->]. eapply Hcall; reflexivity.
  - destruct (download w 1%nat) as [audioBuffer|retryErr]; [|discriminate].
    specialize (Hcall a audioBuffer).
    destruct (transcribeAndSave w a senderPhone senderName timestamp audioBuffer)
      as [[eff c]|]; [|discriminate].
    simpl. intros [= _ ->]. eapply Hcall; reflexivity.
Qed.

(** A full run: download, one request with the forced language, the
    save, the reply, and one forward, to the number that is not the
    sender, by template and then by plain text. *)
Lemma full_run_replies_and_forwards :
  exists effects,
    handleAudioMessage (forwarding (transcript (Some (7 # 2)%Q)))
                       (voice_note None) "40712345678" "Anna" 1700000000999
    = Some (effects, Returned tt)
    /\ attempts effects = [1]
    /\ saves effects = [sample_record (Some (7 # 2)%Q)]
    /\ List.map fst (messages effects) = ["40712345678"; "40799999999"]
    /\ notices effects = []
    /\ List.length effects = 6%nat.
Proof.
  eexists. split; [vm_compute; reflexivity|]. repeat split; reflexivity.
Qed.

(** C3 (amended): when the first download fails the handler waits
    2000 ms and downloads once more, and these are its only downloads.
    If the retry fails too, the handler sends the download-failure
    notice to the sender, nothing else, and returns normally whatever
    becomes of that send; no record is saved.  If the retry succeeds,
    the buffer is within 25 MiB and the transcription returns, exactly
    one record is saved and no failure notice is sent. *)
Theorem failed_download_is_retried_once (w : World) (message : Message) (a : Audio)
    (senderPhone senderName : string) (timestamp : Z) (downloadErr : Error) :
  audio message = Some a ->
  download w 0%nat = inr downloadErr ->
  exists rest completion,
    handleAudioMessage w message senderPhone senderName timestamp
    = Some (Download (audio_id a) :: Sleep 2000 :: Download (audio_id a) :: rest,
            completion)
    /\ downloads rest = []
    /\ (forall retryErr,
           download w 1%nat = inr retryErr ->
           rest = [SendMessage senderPhone DOWNLOAD_FAILED_NOTICE]
           /\ completion = Returned tt
           /\ notices rest = [(senderPhone, DOWNLOAD_FAILED_NOTICE)]
           /\ saves rest = [])
    /\ (forall audioBuffer requests t,
           download w 1%nat = inl audioBuffer ->
           Buffer.length audioBuffer <= 25 * 1024 * 1024 ->
           transcribed w a audioBuffer = Some (requests, Returned t) ->
           List.length (saves rest) = 1%nat /\ notices rest = []).
Proof.
  intros Haudio Hfirst. unfold handleAudioMessage. rewrite Haudio, Hfirst.
  destruct (download w 1%nat) as [audioBuffer|retryErr] eqn:Hretry.
  - destruct (transcribeAndSave_total w a senderPhone senderName timestamp audioBuffer)
      as [[rest completion] Hrest].
    rewrite Hrest. simpl. exists rest, completion. split; [reflexivity|].
    split; [eapply transcribeAndSave_downloads; eassumption|].
    split; [discriminate|].
    intros audioBuffer' requests t [= <-] Hsize Hcall.
    destruct (transcribeAndSave_success w a senderPhone senderName timestamp
                audioBuffer requests t Hsize Hcall) as (rest' & c' & Heq & Hs & Hn & _).
    rewrite Hrest in Heq. injection Heq as <- <-. auto.
  - simpl. eexists _, _. split; [reflexivity|]. split; [reflexivity|].
    split; [|discriminate]. intros _ _. repeat split; reflexivity.
Qed.

Lemma failed_download_is_retried_once_witness :
  (audio (voice_note None) = Some (voice_audio None) /\
   download (world never (transcript None)) 0%nat = inr unreachable /\
   handleAudioMessage (world never (transcript None)) (voice_note None)
                      "40712345678" "Anna" 1700000000000
   = Some ([Download "media-77"; Sleep 2000; Download "media-77";
            SendMessage "40712345678" DOWNLOAD_FAILED_NOTICE], Returned tt))
  /\ (download (world (second_time small_buffer) (transcript None)) 0%nat = inr unreachable /\
      download (world (second_time small_buffer) (transcript None)) 1%nat = inl small_buffer /\
      Buffer.length small_buffer <= 25 * 1024 * 1024 /\
      exists rest completion,
        handleAudioMessage (world (second_time small_buffer) (transcript None))
                           (voice_note None) "40712345678" "Anna" 1700000000000
        = Some (Download "media-77" :: Sleep 2000 :: Download "media-77" :: rest,
                completion)
        /\ List.length (saves rest) = 1%nat /\ notices rest = []).
Proof.
  split.
  - split; [reflexivity|]. split; [reflexivity|].
    destruct (failed_download_is_retried_once (world never (transcript None))
                (voice_note None) (voice_audio None) "40712345678" "Anna" 1700000000000
                unreachable eq_refl eq_refl)
      as (rest & completion & Heq & _ & Hfail & _).
    destruct (Hfail unreachable eq_refl) as (-> & -> & _). exact Heq.
  - assert (Hsize : Buffer.length small_buffer <= 25 * 1024 * 1024)
      by (vm_compute; discriminate).
    split; [reflexivity|]. split; [reflexivity|]. split; [exact Hsize|].
    destruct (failed_download_is_retried_once
                (world (second_time small_buffer) (transcript None))
                (voice_note None) (voice_audio None) "40712345678" "Anna" 1700000000000
                unreachable eq_refl eq_refl)
      as (rest & completion & Heq & _ & _ & Hok).
    exists rest, completion. split; [exact Heq|].
    eapply (Hok small_buffer _ _ eq_refl Hsize). vm_compute. reflexivity.
Defined.

(** C3, counterexample: the first download fails, the retry delivers a
    small buffer, and the transcription API answers 400: the handler
    throws and no record is saved. *)
Lemma retried_download_without_record :
  download (world (second_time small_buffer) (respond 400 "bad request")) 0%nat
  = inr unreachable /\
  download (world (second_time small_buffer) (respond 400 "bad request")) 1%nat
  = inl small_buffer /\
  exists effects error,
    handleAudioMessage (world (second_time small_buffer) (respond 400 "bad request"))
                       (voice_note None) "40712345678" "Anna" 1700000000000
    = Some (effects, Threw (Some error))
    /\ saves effects = [].
Proof.
  split; [reflexivity|]. split; [reflexivity|].
  eexists _, _. split; [vm_compute; reflexivity|]. reflexivity.
Qed.

(** C4: when the downloaded buffer exceeds 25 MiB the handler sends the
    too-large notice to the sender and returns normally whatever becomes
    of that send; it makes no transcription request and saves no record.
    The Whisper client refuses such a buffer without a request as well. *)
Theorem oversized_audio_is_refused (w : World) (message : Message) (a : Audio)
    (senderPhone senderName : string) (timestamp : Z) (audioBuffer : Buffer.t) :
  audio message = Some a ->
  downloaded w = Some audioBuffer ->
  Buffer.length audioBuffer > 25 * 1024 * 1024 ->
  (exists effects,
      handleAudioMessage w message senderPhone senderName timestamp
      = Some (effects, Returned tt)
      /\ messages effects = [(senderPhone, TOO_LARGE_NOTICE)]
      /\ attempts effects = []
      /\ saves effects = [])
  /\ (forall api mimeType options,
         exists error,
           transcribeAudio api audioBuffer mimeType options = Some ([], Threw (Some error))).
Proof.
  intros Haudio Hdown Hsize. split.
  - unfold handleAudioMessage, downloaded in *. rewrite Haudio.
    assert (Hstep : transcribeAndSave w a senderPhone senderName timestamp audioBuffer
                    = Some ([SendMessage senderPhone TOO_LARGE_NOTICE], Returned tt)).
    { unfold transcribeAndSave.
      destruct (Z.gtb_spec (Buffer.length audioBuffer) (25 * 1024 * 1024)); [|lia].
      reflexivity. }
    destruct (download w 0%nat) as [b|downloadErr].
    + injection Hdown as ->. rewrite Hstep. simpl. eexists. split; [reflexivity|].
      repeat split; reflexivity.
    + destruct (download w 1%nat) as [b|retryErr]; [|discriminate].
      injection Hdown as ->. rewrite Hstep. simpl. eexists. split; [reflexivity|].
      repeat split; reflexivity.
  - intros api mimeType options. unfold transcribeAudio.
    destruct (Z.gtb_spec (Buffer.length audioBuffer) MAX_FILE_SIZE) as [_|Hle];
      [eauto|].
    unfold MAX_FILE_SIZE in Hle. lia.
Qed.

Lemma oversized_audio_is_refused_witness :
  audio (voice_note None) = Some (voice_audio None) /\
  downloaded (world (at_once huge_buffer) (transcript None)) = Some huge_buffer /\
  Buffer.length huge_buffer > 25 * 1024 * 1024 /\
  exists effects,
    handleAudioMessage (world (at_once huge_buffer) (transcript None)) (voice_note None)
                       "40712345678" "Anna" 1700000000000
    = Some (effects, Returned tt)
    /\ messages effects = [("40712345678", TOO_LARGE_NOTICE)]
    /\ attempts effects = []
    /\ saves effects = [].
Proof.
  assert (Hsize : Buffer.length huge_buffer > 25 * 1024 * 1024) by (vm_compute; reflexivity).
  split; [reflexivity|]. split; [reflexivity|]. split; [exact Hsize|].
  exact (proj1 (oversized_audio_is_refused (world (at_once huge_buffer) (transcript None))
                  (voice_note None) (voice_audio None) "40712345678" "Anna" 1700000000000
                  huge_buffer eq_refl eq_refl Hsize)).
Defined.

(** C9 (amended): every record the handler saves has source 'whatsapp',
    and its duration is the duration of the transcription result if
    present, else the duration of the message's audio metadata if
    present and not zero, else null. *)
Theorem saved_record_source_and_duration (w : World) (message : Message)
    (senderPhone senderName : string) (timestamp : Z)
    effects completion (r : NewTranscription) :
  handleAudioMessage w message senderPhone senderName timestamp
  = Some (effects, completion) ->
  List.In r (saves effects) ->
  source r = "whatsapp" /\
  exists a audioBuffer requests t,
    audio message = Some a /\
    downloaded w = Some audioBuffer /\
    transcribed w a audioBuffer = Some (requests, Returned t) /\
    duration r = duration_stored t a.
Proof.
  unfold handleAudioMessage, downloaded.
  destruct (audio message) as [a|]; [|intros [= <- _] []].
  assert (Hstep : forall pre audioBuffer,
             saves pre = [] ->
             prepend pre (transcribeAndSave w a senderPhone senderName timestamp audioBuffer)
             = Some (effects, completion) ->
             List.In r (saves effects) ->
             source r = "whatsapp" /\
             exists requests t,
               transcribed w a audioBuffer = Some (requests, Returned t) /\
               duration r = duration_stored t a).
  { intros pre audioBuffer Hpre.
    destruct (transcribeAndSave w a senderPhone senderName timestamp audioBuffer)
      as [[effects' c]|] eqn:Hcall; [|discriminate].
    simpl. intros [= <- _]. rewrite saves_app, Hpre. simpl. intros Hin.
    destruct (transcribeAndSave_saves _ _ _ _ _ _ _ _ _ Hcall Hin)
      as (requests & t & Ht & Hsource & Hduration).
    eauto. }
  destruct (download w 0%nat) as [audioBuffer|downloadErr].
  - intros Heq Hin.
    destruct (Hstep [Download (audio_id a)] audioBuffer eq_refl Heq Hin)
      as (Hsource & requests & t & Ht & Hd).
    split; [assumption|]. exists a, audioBuffer, requests, t. auto.
  - destruct (download w 1%nat) as [audioBuffer|retryErr].
    + intros Heq Hin.
      destruct (Hstep [Download (audio_id a); Sleep 2000; Download (audio_id a)]
                  audioBuffer eq_refl Heq Hin) as (Hsource & requests & t & Ht & Hd).
      split; [assumption|]. exists a, audioBuffer, requests, t. auto.
    + simpl. intros [= <- _] [].
Qed.

Lemma saved_record_source_and_duration_witness :
  handleAudioMessage (world (at_once small_buffer) (transcript None))
                     (voice_note (Some (7 # 2)%Q)) "40712345678" "Anna" 1700000000000
  = Some ([Download "media-77"; WhisperRequest 1 ogg_form;
           Save (sample_record (Some (7 # 2)%Q))], Returned tt)
  /\ source (sample_record (Some (7 # 2)%Q)) = "whatsapp"
  /\ exists a audioBuffer requests t,
       audio (voice_note (Some (7 # 2)%Q)) = Some a /\
       downloaded (world (at_once small_buffer) (transcript None)) = Some audioBuffer /\
       transcribed (world (at_once small_buffer) (transcript None)) a audioBuffer
       = Some (requests, Returned t) /\
       duration (sample_record (Some (7 # 2)%Q)) = duration_stored t a.
Proof.
  assert (Hrun : handleAudioMessage (world (at_once small_buffer) (transcript None))
                   (voice_note (Some (7 # 2)%Q)) "40712345678" "Anna" 1700000000000
                 = Some ([Download "media-77"; WhisperRequest 1 ogg_form;
                          Save (sample_record (Some (7 # 2)%Q))], Returned tt))
    by (vm_compute; reflexivity).
  split; [exact Hrun|].
  exact (saved_record_source_and_duration _ _ _ _ _ _ _
           (sample_record (Some (7 # 2)%Q)) Hrun (or_introl eq_refl)).
Defined.

(** C9, counterexample: the API reports no duration and the message's
    audio metadata carries a duration of zero: the record is saved with
    a null duration, not with the metadata's zero. *)
Lemma zero_duration_is_dropped :
  exists t,
    transcribed (world (at_once small_buffer) (transcript None))
                (voice_audio (Some (0 # 1)%Q)) small_buffer
    = Some ([WhisperRequest 1 ogg_form], Returned t)
    /\ handleAudioMessage (world (at_once small_buffer) (transcript None))
                          (voice_note (Some (0 # 1)%Q)) "40712345678" "Anna" 1700000000000
       = Some ([Download "media-77"; WhisperRequest 1 ogg_form;
                Save (sample_record None)], Returned tt)
    /\ duration_as_claimed t (voice_audio (Some (0 # 1)%Q)) = Some (0 # 1)%Q
    /\ duration (sample_record None) = None.
Proof.
  eexists. split; [vm_compute; reflexivity|].
  split; [vm_compute; reflexivity|]. split; reflexivity.
Qed.

End HandlerFacts.

(** ** The store *)

Module StoreFacts.
Import Js Storage Observe Samples.

Lemma persist_written (s : Store) :
  written (persist s) = db (persist s) :: written s.
Proof. reflexivity. Qed.

Lemma getTranscription_In (id : Z) (s : Store) (r : Row) :
  getTranscription id s = Some r -> List.In r (transcriptions (db s)).
Proof.
  unfold getTranscription. intros H. apply List.find_some in H. tauto.
Qed.

(** A call either ends by writing the whole database to the file, or
    leaves the store as it was. *)
Lemma perform_writes_or_skips (m : Mutation) (s : Store) :
  written (perform m s) = db (perform m s) :: written s \/ perform m s = s.
Proof.
  destruct m as [now rowid t|id newText|id| |key value]; simpl.
  - left. reflexivity.
  - unfold updateTranscription. destruct (countById id (db s) =? 0); simpl; auto.
  - unfold deleteTranscription. destruct (countById id (db s) >? 0); simpl; auto.
  - left. reflexivity.
  - left. reflexivity.
Qed.

(** C7: every call of the store that changes the database ends, before it
    returns, by writing the whole database to the file; the only calls
    that write nothing are an update or a delete of an absent id, which
    change nothing.  So the file holds the current state after every call,
    and the record that [saveTranscription] hands to its listeners, like
    every record a reader finds afterwards, is in the file already. *)
Theorem every_mutation_is_persisted (m : Mutation) (s : Store) :
  let s' := perform m s in
  (written s' = db s' :: written s \/ s' = s)
  /\ (db s' <> db s -> file s' = Some (db s'))
  /\ (file s = Some (db s) -> file s' = Some (db s'))
  /\ (match m with
      | Create _ _ _ | DeleteAll | SetSetting _ _ => written s' = db s' :: written s
      | UpdateText id _ | DeleteOne id =>
          if countById id (db s) =? 0 then s' = s
          else written s' = db s' :: written s
      end)
  /\ (forall now rowid t r,
         m = Create now rowid t ->
         emitted (saveTranscription now rowid t s) = Some r ->
         exists d, file s' = Some d /\ List.In r (transcriptions d))
  /\ (forall id r,
         db s' <> db s ->
         getTranscription id s' = Some r ->
         exists d, file s' = Some d /\ List.In r (transcriptions d)).
Proof.
  intros s'. subst s'.
  assert (Hfile : db (perform m s) <> db s -> file (perform m s) = Some (db (perform m s))).
  { destruct (perform_writes_or_skips m s) as [H|H].
    - intros _. unfold file. rewrite H. reflexivity.
    - rewrite H. congruence. }
  split; [apply perform_writes_or_skips|]. split; [exact Hfile|].
  split; [|split; [|split]].
  - destruct (perform_writes_or_skips m s) as [H|H].
    + intros _. unfold file. rewrite H. reflexivity.
    + rewrite H. auto.
  - destruct m as [now rowid t|id newText|id| |key value]; simpl; try reflexivity.
    + unfold updateTranscription. destruct (countById id (db s) =? 0); reflexivity.
    + unfold deleteTranscription.
      destruct (Z.eqb_spec (countById id (db s)) 0) as [->|Hn]; [reflexivity|].
      destruct (Z.gtb_spec (countById id (db s)) 0); [reflexivity|].
      unfold countById in *. lia.
  - intros now rowid t r -> Hr. simpl in *. eexists. split; [reflexivity|].
    apply getTranscription_In in Hr. exact Hr.
  - intros id r Hchanged Hr. exists (db (perform m s)). split; [auto|].
    apply getTranscription_In in Hr. exact Hr.
Qed.

Lemma every_mutation_is_persisted_witness :
  db (perform (SetSetting "auto_reply" (VBoolean false)) fresh_store) <> db fresh_store
  /\ file (perform (SetSetting "auto_reply" (VBoolean false)) fresh_store)
     = Some (db (perform (SetSetting "auto_reply" (VBoolean false)) fresh_store))
  /\ getSetting "auto_reply" (perform (SetSetting "auto_reply" (VBoolean false)) fresh_store)
     = Some "false".
Proof.
  assert (Hchanged : db (perform (SetSetting "auto_reply" (VBoolean false)) fresh_store)
                     <> db fresh_store).
  { intros H. apply (f_equal (fun d => settings d !! "auto_reply")) in H.
    vm_compute in H. discriminate. }
  split; [exact Hchanged|]. split; [|reflexivity].
  exact (proj1 (proj2 (every_mutation_is_persisted
                         (SetSetting "auto_reply" (VBoolean false)) fresh_store)) Hchanged).
Defined.

End StoreFacts.

(** ** The settings route *)

Module ApiFacts.
Import Js Storage Api Observe Samples.

Lemma is_allowed_spec (key : string) :
  is_allowed key = true <-> key = "auto_reply" \/ key = "default_language".
Proof.
  unfold is_allowed, allowed; cbn [List.existsb].
  destruct (String.eqb_spec key "auto_reply"), (String.eqb_spec key "default_language");
    simpl; intuition congruence.
Qed.

Lemma patchSettings_cons (entry : string * Value) (body : list (string * Value)) (s : Store) :
  patchSettings (entry :: body) s
  = patchSettings body
      (if is_allowed (fst entry) then setSetting (fst entry) (snd entry) s else s).
Proof. reflexivity. Qed.

(** Entries whose key is not on the list might as well be absent. *)
Lemma patchSettings_filter (body : list (string * Value)) :
  forall s,
    patchSettings body s
    = patchSettings (List.filter (fun entry => is_allowed (fst entry)) body) s.
Proof.
  induction body as [|entry body IH]; intros s; [reflexivity|].
  rewrite patchSettings_cons. simpl List.filter.
  destruct (is_allowed (fst entry)) eqn:Hkey.
  - rewrite patchSettings_cons, Hkey. apply IH.
  - apply IH.
Qed.

(** A key that is not on the list keeps its value. *)
Lemma patchSettings_frame (key : string) (body : list (string * Value)) :
  is_allowed key = false ->
  forall s, getSetting key (patchSettings body s) = getSetting key s.
Proof.
  intros Hkey. induction body as [|entry body IH]; intros s; [reflexivity|].
  rewrite patchSettings_cons, IH.
  destruct (is_allowed (fst entry)) eqn:Hentry; [|reflexivity].
  unfold getSetting, setSetting; simpl.
  apply lookup_insert_ne. intros Heq. congruence.
Qed.

(** C8: the settings update applies the entries whose key is auto_reply
    or default_language, in order, and skips every other entry: a key
    outside the list keeps its stored value, an update made only of
    unrecognized keys leaves the store as it was, and an update that mixes
    auto_reply with an unknown key does what setting auto_reply alone does. *)
Theorem only_allowed_settings_are_applied (body : list (string * Value)) (s : Store) :
  patchSettings body s
  = patchSettings (List.filter (fun entry => is_allowed (fst entry)) body) s
  /\ (forall key, is_allowed key = true <-> key = "auto_reply" \/ key = "default_language")
  /\ (forall key, is_allowed key = false ->
                  getSetting key (patchSettings body s) = getSetting key s)
  /\ ((forall entry, List.In entry body -> is_allowed (fst entry) = false) ->
      patchSettings body s = s)
  /\ (forall value unknown junk,
         is_allowed unknown = false ->
         patchSettings [("auto_reply", value); (unknown, junk)] s
         = setSetting "auto_reply" value s
         /\ patchSettings [(unknown, junk); ("auto_reply", value)] s
            = setSetting "auto_reply" value s
         /\ getSetting "auto_reply" (setSetting "auto_reply" value s)
            = Some (String_of value)).
Proof.
  split; [apply patchSettings_filter|]. split; [apply is_allowed_spec|].
  split; [intros key Hkey; apply patchSettings_frame; assumption|]. split.
  - intros Hall. rewrite patchSettings_filter.
    replace (List.filter (fun entry => is_allowed (fst entry)) body) with
      (@nil (string * Value)); [reflexivity|].
    symmetry. induction body as [|entry body IH]; [reflexivity|]. simpl.
    rewrite (Hall entry) by (left; reflexivity).
    apply IH. intros e He. apply Hall. right. exact He.
  - intros value unknown junk Hunknown.
    unfold patchSettings. cbn [List.fold_left fst snd]. rewrite Hunknown.
    change (is_allowed "auto_reply") with true. cbv iota.
    split; [reflexivity|]. split; [reflexivity|].
    unfold getSetting, setSetting; simpl. apply lookup_insert_eq.
Qed.

Lemma only_allowed_settings_are_applied_witness :
  is_allowed "webhook_url" = false
  /\ patchSettings [("webhook_url", VString "https://example.org")] fresh_store = fresh_store
  /\ patchSettings [("auto_reply", VBoolean false); ("webhook_url", VString "x")] fresh_store
     = setSetting "auto_reply" (VBoolean false) fresh_store.
Proof.
  assert (Hunknown : is_allowed "webhook_url" = false) by reflexivity.
  split; [exact Hunknown|]. split.
  - apply (proj1 (proj2 (proj2 (proj2 (only_allowed_settings_are_applied
             [("webhook_url", VString "https://example.org")] fresh_store))))).
    intros entry [<-|[]]. exact Hunknown.
  - exact (proj1 (proj2 (proj2 (proj2 (proj2 (only_allowed_settings_are_applied
             [] fresh_store)))) (VBoolean false) "webhook_url" (VString "x") Hunknown)).
Defined.

End ApiFacts.

(** ** The sequential queue *)

Module QueueFacts.
Import Js Webhook Queue Observe Samples JsFacts.

Lemma initial_consistent : consistent initial.
Proof. split; [left; repeat split|reflexivity]. Qed.

(** The loop, entered with the flag set and nothing in flight, takes the
    items in order and stops at the first one it has to wait for, or
    empties the queue and clears the flag. *)
Lemma drain_spec (queue : list QueueItem) :
  forall st,
    processing st = true -> awaiting st = [] -> dispatched st = settled st ->
    consistent (drain queue st)
    /\ dispatched (drain queue st) ++ messageQueue (drain queue st)
       = dispatched st ++ queue
    /\ console (drain queue st) = console st.
Proof.
  induction queue as [|item rest IH]; intros st Hflag Hnone Hdone; simpl.
  - split; [|split; [rewrite !app_nil_r; reflexivity | reflexivity]].
    split; [left; repeat split; assumption|]. simpl. rewrite Hnone, app_nil_r. exact Hdone.
  - destruct (awaited item).
    + simpl. split; [|split; [rewrite <- app_assoc; reflexivity | reflexivity]].
      split; [right; split; [assumption|]; rewrite Hnone; exists item; reflexivity|].
      simpl. rewrite Hnone, Hdone. reflexivity.
    + destruct (IH {| messageQueue := rest; processing := processing st;
                      awaiting := awaiting st;
                      dispatched := dispatched st ++ [item];
                      settled := settled st ++ [item]; console := console st |})
        as (Hc & Hd & Hl); simpl; [assumption | assumption | congruence |].
      split; [exact Hc|]. split; [|exact Hl].
      rewrite Hd. simpl. rewrite <- app_assoc. reflexivity.
Qed.

Lemma whileLoop_spec (st : State) :
  processing st = true -> awaiting st = [] -> dispatched st = settled st ->
  consistent (whileLoop st)
  /\ dispatched (whileLoop st) ++ messageQueue (whileLoop st)
     = dispatched st ++ messageQueue st
  /\ console (whileLoop st) = console st.
Proof. unfold whileLoop. apply drain_spec. Qed.

(** Called while the flag is set, [processQueue] does nothing. *)
Lemma processQueue_reentrant (st : State) :
  processing st = true -> processQueue st = st.
Proof. unfold processQueue. intros ->. reflexivity. Qed.

Lemma post_spec (r : Request) (st : State) :
  consistent st ->
  consistent (post r st)
  /\ dispatched (post r st) ++ messageQueue (post r st)
     = dispatched st ++ messageQueue st ++ enqueued [Post r].
Proof.
  intros Hst. unfold post, enqueued. cbn [List.flat_map].
  destruct (verified r); cbn [negb]; [|rewrite !app_nil_r; auto].
  destruct (first_message r) as [m|]; [|rewrite !app_nil_r; auto].
  rewrite app_nil_r.
  destruct Hst as [[(Hflag & Hnone & Hqueue)|(Hflag & item & Hitem)] Hdone].
  - unfold processQueue. cbn [processing messageQueue awaiting dispatched settled console].
    rewrite Hflag, Hqueue. cbn [app List.length Z.of_nat orb Z.eqb Pos.of_succ_nat].
    destruct (whileLoop_spec
                {| messageQueue := [itemOf m r]; processing := true;
                   awaiting := awaiting st; dispatched := dispatched st;
                   settled := settled st; console := console st |})
      as (Hc & Hd & _); cbn [processing awaiting dispatched settled];
      [reflexivity | assumption | rewrite Hdone, Hnone, app_nil_r; reflexivity |].
    split; [exact Hc | exact Hd].
  - rewrite processQueue_reentrant by assumption.
    cbn [processing messageQueue awaiting dispatched settled console].
    split; [|reflexivity].
    split; [right; split; [assumption | exists item; assumption] | assumption].
Qed.

Lemma resume_spec (k : nat) (outcome : Settlement) (st : State) :
  consistent st ->
  consistent (resume k outcome st)
  /\ dispatched (resume k outcome st) ++ messageQueue (resume k outcome st)
     = dispatched st ++ messageQueue st.
Proof.
  intros Hst. unfold resume.
  destruct (awaiting st !! k) as [item|] eqn:Hlookup; [|auto].
  destruct Hst as [[(Hflag & Hnone & Hqueue)|(Hflag & item' & Hitem)] Hdone].
  - rewrite Hnone in Hlookup. discriminate.
  - rewrite Hitem in Hlookup.
    destruct k as [|k]; [|discriminate]. injection Hlookup as <-.
    rewrite Hitem. cbn [delete list_delete].
    match goal with
    | |- context [whileLoop ?s] =>
        destruct (whileLoop_spec s) as (Hc & Hd & _);
        cbn [processing awaiting dispatched settled];
        [assumption | reflexivity | rewrite Hdone, Hitem; reflexivity |]
    end.
    split; [exact Hc | exact Hd].
Qed.

Lemma enqueued_cons (e : Event) (events : list Event) :
  enqueued (e :: events) = enqueued [e] ++ enqueued events.
Proof. unfold enqueued. simpl. rewrite app_nil_r. reflexivity. Qed.

Lemma step_spec (e : Event) (st : State) :
  consistent st ->
  consistent (step st e)
  /\ dispatched (step st e) ++ messageQueue (step st e)
     = dispatched st ++ messageQueue st ++ enqueued [e].
Proof.
  intros Hst. destruct e as [r|k outcome]; simpl.
  - apply post_spec. assumption.
  - destruct (resume_spec k outcome st Hst) as [Hc Hd].
    split; [exact Hc|]. rewrite Hd. unfold enqueued; simpl. rewrite app_nil_r. reflexivity.
Qed.

Lemma run_spec (events : list Event) :
  forall st,
    consistent st ->
    consistent (run events st)
    /\ dispatched (run events st) ++ messageQueue (run events st)
       = dispatched st ++ messageQueue st ++ enqueued events.
Proof.
  induction events as [|e events IH]; intros st Hst.
  - simpl. unfold enqueued; simpl. rewrite !app_nil_r. auto.
  - destruct (step_spec e st Hst) as [Hc Hd].
    destruct (IH (step st e) Hc) as [Hc' Hd'].
    change (run (e :: events) st) with (run events (step st e)).
    split; [exact Hc'|]. rewrite Hd', enqueued_cons.
    rewrite (app_assoc (dispatched (step st e))), Hd, <- !app_assoc. reflexivity.
Qed.

(** C1: after any sequence of webhook requests and handler settlements,
    at most one item is in flight; the items taken off the queue followed
    by those still queued are the enqueued items in enqueue order; items
    finish in the order they were taken, the one in flight being the last
    taken; the worker is running exactly when an item is in flight, so
    when none is, the queue is empty and every enqueued item has been
    processed; and [processQueue] called while the worker runs changes
    nothing. *)
Theorem queue_is_fifo_and_single_flight (events : list Event) :
  let st := run events initial in
  (List.length (awaiting st) <= 1)%nat
  /\ enqueued events = dispatched st ++ messageQueue st
  /\ dispatched st = settled st ++ awaiting st
  /\ (processing st = true <-> awaiting st <> [])
  /\ (awaiting st = [] -> messageQueue st = [] /\ settled st = enqueued events)
  /\ (processing st = true -> processQueue st = st).
Proof.
  intros st. subst st.
  destruct (run_spec events initial initial_consistent) as [[Hmode Hdone] Horder].
  simpl in Horder.
  split; [|split; [|split; [|split; [|split]]]].
  - destruct Hmode as [(_ & -> & _)|(_ & item & ->)]; simpl; lia.
  - symmetry. exact Horder.
  - exact Hdone.
  - destruct Hmode as [(Hflag & Hnone & _)|(Hflag & item & Hitem)].
    + rewrite Hflag, Hnone. split; [discriminate | congruence].
    + rewrite Hflag, Hitem. split; [discriminate | reflexivity].
  - intros Hnone.
    destruct Hmode as [(_ & _ & Hqueue)|(_ & item & Hitem)]; [|congruence].
    split; [exact Hqueue|].
    rewrite <- Horder, Hqueue, Hdone, Hnone, !app_nil_r. reflexivity.
  - apply processQueue_reentrant.
Qed.

Lemma queue_is_fifo_and_single_flight_witness :
  processing (run busy_morning initial) = true
  /\ processQueue (run busy_morning initial) = run busy_morning initial
  /\ dispatched (run busy_morning initial)
     = [itemOf (voice_note None) (signed (voice_note None)); itemOf sticker (signed sticker);
        itemOf help_request (signed help_request)].
Proof.
  assert (Hflag : processing (run busy_morning initial) = true) by reflexivity.
  split; [exact Hflag|]. split; [|reflexivity].
  exact (proj2 (proj2 (proj2 (proj2 (proj2
           (queue_is_fifo_and_single_flight busy_morning))))) Hflag).
Defined.

(** The loop never writes to the console. *)
Lemma drain_console (queue : list QueueItem) :
  forall st, console (drain queue st) = console st.
Proof.
  induction queue as [|item rest IH]; intros st; simpl; [reflexivity|].
  destruct (awaited item); [reflexivity|]. rewrite IH. reflexivity.
Qed.

(** The loop does not read the console. *)
Lemma drain_schedule (queue : list QueueItem) :
  forall st1 st2,
    schedule st1 = schedule st2 ->
    schedule (drain queue st1) = schedule (drain queue st2).
Proof.
  induction queue as [|item rest IH];
    intros [q1 p1 a1 d1 s1 c1] [q2 p2 a2 d2 s2 c2]; unfold schedule; simpl;
    intros [= -> -> -> -> ->]; [reflexivity|].
  destruct (awaited item); [reflexivity|].
  apply IH. reflexivity.
Qed.

(** A step treats two states with the same schedule alike and logs the
    same lines in both. *)
Lemma step_schedule (e : Event) (st1 st2 : State) :
  schedule st1 = schedule st2 ->
  schedule (step st1 e) = schedule (step st2 e)
  /\ exists lines,
       console (step st1 e) = console st1 ++ lines
       /\ console (step st2 e) = console st2 ++ lines.
Proof.
  destruct st1 as [q1 p1 a1 d1 s1 c1], st2 as [q2 p2 a2 d2 s2 c2].
  unfold schedule; simpl. intros [= -> -> -> -> ->].
  destruct e as [r|k outcome]; simpl.
  - unfold post. destruct (verified r); simpl;
      [|split; [reflexivity | exists []; rewrite !app_nil_r; auto]].
    destruct (first_message r) as [m|];
      [|split; [reflexivity | exists []; rewrite !app_nil_r; auto]].
    unfold processQueue; simpl.
    destruct (p2 || (Z.of_nat (List.length (q2 ++ [itemOf m r])) =? 0)); simpl;
      [split; [reflexivity | exists []; rewrite !app_nil_r; auto]|].
    unfold whileLoop; simpl. split; [apply drain_schedule; reflexivity|].
    exists []. rewrite !drain_console, !app_nil_r. auto.
  - unfold resume; simpl. destruct (a2 !! k) as [item|];
      [|split; [reflexivity | exists []; rewrite !app_nil_r; auto]].
    unfold whileLoop; simpl. split; [apply drain_schedule; reflexivity|].
    rewrite !drain_console; simpl.
    destruct outcome as [|error at_time];
      [exists []; rewrite !app_nil_r; auto | eauto].
Qed.

Lemma run_schedule (events : list Event) :
  forall st1 st2,
    schedule st1 = schedule st2 ->
    schedule (run events st1) = schedule (run events st2)
    /\ exists lines,
         console (run events st1) = console st1 ++ lines
         /\ console (run events st2) = console st2 ++ lines.
Proof.
  induction events as [|e events IH]; intros st1 st2 Hsame.
  - split; [exact Hsame|]. exists []. simpl. rewrite !app_nil_r. auto.
  - destruct (step_schedule e st1 st2 Hsame) as (Hstep & lines & H1 & H2).
    destruct (IH (step st1 e) (step st2 e) Hstep) as (Hrun & lines' & H1' & H2').
    change (run (e :: events) st1) with (run events (step st1 e)).
    change (run (e :: events) st2) with (run events (step st2 e)).
    split; [exact Hrun|]. exists (lines ++ lines').
    rewrite H1', H2', H1, H2, <- !app_assoc. auto.
Qed.

Lemma includes_prefix (s p : string) : String.prefix p s = true -> includes s p = true.
Proof. intros H. destruct s; simpl in *; rewrite H; reflexivity. Qed.

Lemma prefix_append_self (p b : string) : String.prefix p (p +:+ b) = true.
Proof.
  induction p as [|c p IH]; simpl; [apply prefix_empty|].
  destruct (ascii_dec c c); [exact IH | congruence].
Qed.

(** A text occurs in whatever it is spliced into. *)
Lemma includes_spliced (a p b : string) : includes (a +:+ p +:+ b) p = true.
Proof. apply includes_append_r, includes_prefix, prefix_append_self. Qed.

Lemma lacks_append (c : ascii) (a b : string) :
  lacks c (a +:+ b) = lacks c a && lacks c b.
Proof.
  induction a as [|x a IH]; [reflexivity|].
  change (String x a +:+ b) with (String x (a +:+ b)). cbn [lacks].
  rewrite IH. apply andb_assoc.
Qed.

(** A format without a percent sign is printed as it is, and the
    argument after it. *)
Lemma fill_plain (convert : ascii -> string -> string) (format detail : string) :
  lacks "%" format = true -> Console.fill convert format detail = (format, false).
Proof.
  induction format as [|c rest IH]; [reflexivity|]. cbn [lacks]. intros Hc.
  apply andb_true_iff in Hc as [Hc Hrest]. apply negb_true_iff in Hc.
  assert (Hstep : Console.fill convert (String c rest) detail
                  = let (text, used) := Console.fill convert rest detail in
                    (String c text, used)).
  { destruct c as [[] [] [] [] [] [] [] []]; try reflexivity. discriminate Hc. }
  rewrite Hstep, (IH Hrest). reflexivity.
Qed.

Lemma format_plain (convert : ascii -> string -> string) (format detail : string) :
  lacks "%" format = true ->
  Console.format convert format detail = format +:+ " " +:+ detail.
Proof. intros H. unfold Console.format. rewrite (fill_plain convert _ _ H). reflexivity. Qed.

(** The catch clause changes nothing but the console. *)
Lemma resume_schedule (st : State) (item : QueueItem) (error : Error) (at_time : string) :
  awaiting st = [item] ->
  schedule (resume 0 (Failed error at_time) st) = schedule (resume 0 Fulfilled st)
  /\ console (resume 0 (Failed error at_time) st)
     = console st ++ [errorLine item error at_time]
  /\ console (resume 0 Fulfilled st) = console st.
Proof.
  intros Hitem. unfold resume. rewrite Hitem. simpl. unfold whileLoop.
  rewrite !drain_console. simpl. split; [|split; reflexivity].
  apply drain_schedule. reflexivity.
Qed.


(** X27: a failed handler is isolated.  When the handler of the item in
    flight throws, the catch clause calls console.error once, with a
    text that holds the sender's name and phone and with the error
    message; when the clock reading, the name and the phone have no
    percent sign, the line printed is that text, a space and the
    message.  Otherwise the loop goes on exactly as after a handler that
    returned: the next queued item is taken, and under any later
    requests and settlements the queue, the flag, the item in flight and
    the order of processing are the same, and so are the calls logged
    for the other items. *)
Theorem handler_failure_is_isolated (convert : ascii -> string -> string) (st : State)
    (item : QueueItem) (error : Error) (at_time : string) (later : list Event) :
  awaiting st = [item] ->
  let failed := resume 0 (Failed error at_time) st in
  let passed := resume 0 Fulfilled st in
  let call := errorLine item error at_time in
  console failed = console st ++ [call]
  /\ includes (log_format call) (senderName item) = true
  /\ includes (log_format call) (senderPhone item) = true
  /\ log_detail call = Js.message error
  /\ (lacks "%" at_time = true -> lacks "%" (senderName item) = true ->
      lacks "%" (senderPhone item) = true ->
      Console.printed convert call = log_format call +:+ " " +:+ Js.message error)
  /\ console passed = console st
  /\ schedule failed = schedule passed
  /\ (forall next rest,
         messageQueue st = next :: rest -> awaited next = true ->
         awaiting failed = [next] /\ messageQueue failed = rest
         /\ settled failed = settled st ++ [item])
  /\ schedule (run later failed) = schedule (run later passed)
  /\ exists calls,
       console (run later failed) = console failed ++ calls
       /\ console (run later passed) = console passed ++ calls.
Proof.
  intros Hitem failed passed call.
  destruct (resume_schedule st item error at_time Hitem) as (Hsame & Hlog & Hquiet).
  split; [exact Hlog|].
  split; [|split; [|split; [reflexivity|split; [|split; [exact Hquiet|split;
    [exact Hsame|split]]]]]].
  - unfold call, errorLine; cbn [log_format].
    apply (includes_append_r "❌ ["), (includes_append_r at_time).
    apply (includes_spliced "] Error processing message from ").
  - unfold call, errorLine; cbn [log_format].
    apply (includes_append_r "❌ ["), (includes_append_r at_time).
    apply (includes_append_r "] Error processing message from ").
    apply (includes_append_r (senderName item)).
    apply (includes_spliced " (").
  - intros Htime Hname Hphone. unfold Console.printed. apply format_plain.
    unfold call, errorLine; cbn [log_format].
    rewrite !lacks_append, Htime, Hname, Hphone. reflexivity.
  - intros next rest Hqueue Hnext. subst failed. unfold resume. rewrite Hitem. simpl.
    unfold whileLoop. simpl. rewrite Hqueue. simpl. rewrite Hnext. simpl. auto.
  - apply run_schedule. exact Hsame.
Qed.

Lemma handler_failure_is_isolated_witness :
  awaiting (run [Post (signed (voice_note None)); Post (signed help_request)] initial)
  = [itemOf (voice_note None) (signed (voice_note None))]
  /\ awaiting (resume 0 (Failed unreachable "2024-01-01T00:00:00.000Z")
                 (run [Post (signed (voice_note None)); Post (signed help_request)] initial))
     = [itemOf help_request (signed help_request)]
  /\ messageQueue (resume 0 (Failed unreachable "2024-01-01T00:00:00.000Z")
                     (run [Post (signed (voice_note None)); Post (signed help_request)]
                          initial))
     = []
  /\ lacks "%" "2024-01-01T00:00:00.000Z" = true
  /\ lacks "%" "Anna" = true
  /\ lacks "%" "40712345678" = true
  /\ Console.printed Cases.no_conversion
       (errorLine (itemOf (voice_note None) (signed (voice_note None))) unreachable
                  "2024-01-01T00:00:00.000Z")
     = "❌ [2024-01-01T00:00:00.000Z] Error processing message from Anna (40712345678): "
         +:+ "Failed to get media URL: 404 Not Found".
Proof.
  assert (Hitem : awaiting (run [Post (signed (voice_note None)); Post (signed help_request)]
                                initial)
                  = [itemOf (voice_note None) (signed (voice_note None))]) by reflexivity.
  split; [exact Hitem|].
  destruct (handler_failure_is_isolated Cases.no_conversion _ _ unreachable
              "2024-01-01T00:00:00.000Z" [] Hitem)
    as (_ & _ & _ & _ & Hline & _ & _ & Hnext & _).
  destruct (Hnext (itemOf help_request (signed help_request)) [] eq_refl eq_refl)
    as (H1 & H2 & _).
  split; [exact H1|]. split; [exact H2|].
  split; [reflexivity|]. split; [reflexivity|]. split; [reflexivity|].
  exact (Hline eq_refl eq_refl eq_refl).
Defined.

End QueueFacts.

(* ================================================================== *)
(** * Further properties *)
(* ================================================================== *)

(** ** The Whisper client: the shape of every call *)

Module WhisperMore.
Import Js Whisper Observe Samples Reading JsFacts WhisperFacts.

Lemma attempts_app (xs ys : list Effect) : attempts (xs ++ ys) = attempts xs ++ attempts ys.
Proof. apply List.flat_map_app. Qed.

Lemma delays_app (xs ys : list Effect) : delays (xs ++ ys) = delays xs ++ delays ys.
Proof. apply List.flat_map_app. Qed.

Lemma forms_app (xs ys : list Effect) : forms (xs ++ ys) = forms xs ++ forms ys.
Proof. apply List.flat_map_app. Qed.

Lemma total_app (xs ys : list Z) : total (xs ++ ys) = total xs + total ys.
Proof. induction xs as [|x xs IH]; simpl; [reflexivity|]. rewrite IH. lia. Qed.

(** The waits of [k] backed-off attempts add up to a geometric sum. *)
Lemma backoff_total (form : FormData) (k : nat) :
  forall attempt,
    0 <= attempt ->
    total (delays (backoff form attempt k))
    = 1000 * (2 ^ (attempt + Z.of_nat k) - 2 ^ attempt).
Proof.
  induction k as [|k IH]; intros attempt Hpos.
  - simpl. rewrite Z.add_0_r. lia.
  - cbn [backoff delays List.flat_map app total List.fold_right].
    change (List.fold_right Z.add 0 (List.flat_map _ (backoff form (attempt + 1) k)))
      with (total (delays (backoff form (attempt + 1) k))).
    rewrite IH by lia.
    replace (attempt + 1 + Z.of_nat k) with (attempt + Z.of_nat (S k)) by lia.
    rewrite (Z.pow_add_r 2 attempt 1) by lia. lia.
Qed.

Lemma backoff_attempts (form : FormData) (k : nat) :
  forall attempt,
    attempts (backoff form attempt k)
    = List.map (fun i => attempt + Z.of_nat i) (List.seq 0 k).
Proof.
  induction k as [|k IH]; intros attempt; [reflexivity|].
  cbn [backoff attempts List.flat_map app].
  change (List.flat_map _ (backoff form (attempt + 1) k))
    with (attempts (backoff form (attempt + 1) k)).
  rewrite IH. cbn [List.seq List.map]. rewrite Z.add_0_r. f_equal.
  rewrite <- List.seq_shift, List.map_map.
  apply List.map_ext. intros i. lia.
Qed.

Lemma backoff_forms (form : FormData) (k : nat) :
  forall attempt, forms (backoff form attempt k) = List.repeat form k.
Proof.
  induction k as [|k IH]; intros attempt; [reflexivity|].
  cbn [backoff forms List.flat_map app List.repeat].
  change (List.flat_map _ (backoff form (attempt + 1) k))
    with (forms (backoff form (attempt + 1) k)).
  rewrite IH. reflexivity.
Qed.

(** Whatever the API does, the loop makes requests with consecutive
    numbers, each but the last followed by its wait, and the last one is
    numbered [maxRetries] at most. *)
Lemma retryLoop_shape (api : Z -> FetchOutcome) (form : FormData) (retries : Z)
    (fuel : nat) :
  forall (attempt : Z) (lastError : option Error) effects completion,
    retryLoop api form retries fuel attempt lastError = Some (effects, completion) ->
    (effects = [] /\ retries < attempt)
    \/ exists k : nat,
         attempt + Z.of_nat k <= retries
         /\ effects = backoff form attempt k ++ [WhisperRequest (attempt + Z.of_nat k) form]
         /\ (forall j, attempt <= j < attempt + Z.of_nat k ->
                       exists error, thrown (api j) = Some error
                                     /\ isRetryable (message error) = true)
         /\ match completion with
            | Returned t => attemptOnce (api (attempt + Z.of_nat k)) = inl t
            | Threw e => e = thrown (api (attempt + Z.of_nat k)) /\ e <> None
            end.
Proof.
  induction fuel as [|fuel IH]; intros attempt lastError effects completion; simpl.
  - destruct (Z.leb_spec attempt retries); [discriminate|]. intros [= <- _]. left. auto.
  - destruct (Z.leb_spec attempt retries); [|intros [= <- _]; left; auto].
    destruct (attemptOnce (api attempt)) as [result|error] eqn:Hone.
    + intros [= <- <-]. right. exists 0%nat. rewrite Z.add_0_r.
      split; [lia|]. split; [reflexivity|]. split; [intros j Hj; lia | exact Hone].
    + destruct ((attempt <? retries) && isRetryable (message error)) eqn:Hretry.
      * destruct (retryLoop api form retries fuel (attempt + 1) (Some error))
          as [[effects' completion']|] eqn:Hrec; [|discriminate].
        intros [= <- <-]. apply andb_true_iff in Hretry as [Hlt Hmsg].
        apply Z.ltb_lt in Hlt.
        destruct (IH _ _ _ _ Hrec) as [[_ Habove]|(k & Hk & -> & Hall & Hend)]; [lia|].
        right. exists (S k).
        replace (attempt + Z.of_nat (S k)) with (attempt + 1 + Z.of_nat k) by lia.
        split; [lia|]. split; [reflexivity|]. split; [|exact Hend].
        intros j Hj. destruct (Z.eq_dec j attempt) as [->|Hne].
        -- exists error. unfold thrown. rewrite Hone. auto.
        -- apply Hall. lia.
      * intros [= <- <-]. right. exists 0%nat. rewrite Z.add_0_r.
        split; [lia|]. split; [reflexivity|]. split; [intros j Hj; lia|].
        unfold thrown. rewrite Hone. split; [reflexivity | discriminate].
Qed.

(** X1: whatever the API answers, a call makes no request at all or
    requests numbered 1, 2, ... up to some n that is at most maxRetries;
    it waits 2^i seconds after request i for every i below n and never
    after the last one, so that all its waits add up to 2^n - 2 seconds:
    6 seconds at most with the default of three attempts. *)
Theorem every_call_is_a_bounded_backoff (api : Z -> FetchOutcome) (audioBuffer : Buffer.t)
    (mimeType : string) (options : Options) effects completion :
  transcribeAudio api audioBuffer mimeType options = Some (effects, completion) ->
  let retries := default 3 (maxRetries options) in
  let form := buildForm mimeType (opt_language options) in
  effects = []
  \/ exists n : nat,
       Z.of_nat n < retries
       /\ effects = backoff form 1 n ++ [WhisperRequest (Z.of_nat n + 1) form]
       /\ attempts effects = List.map (fun i => 1 + Z.of_nat i) (List.seq 0 (S n))
       /\ total (delays effects) = 1000 * (2 ^ (Z.of_nat n + 1) - 2)
       /\ total (delays effects) <= 1000 * (2 ^ retries - 2)
       /\ (retries = 3 -> total (delays effects) <= 6000).
Proof.
  intros Hrun retries form. unfold transcribeAudio in Hrun.
  destruct (Buffer.length audioBuffer >? MAX_FILE_SIZE); [injection Hrun as <- _; auto|].
  fold retries form in Hrun.
  destruct (retryLoop_shape _ _ _ _ _ _ _ _ Hrun) as [[-> _]|(n & Hn & -> & _ & _)];
    [auto|].
  right. exists n. split; [lia|].
  replace (1 + Z.of_nat n) with (Z.of_nat n + 1) by lia.
  split; [reflexivity|].
  assert (Hsum : total (delays (backoff form 1 n ++ [WhisperRequest (Z.of_nat n + 1) form]))
                 = 1000 * (2 ^ (Z.of_nat n + 1) - 2)).
  { rewrite delays_app, total_app, backoff_total by lia. simpl.
    replace (1 + Z.of_nat n) with (Z.of_nat n + 1) by lia. lia. }
  split.
  - rewrite attempts_app, backoff_attempts. simpl attempts.
    rewrite List.seq_S, List.map_app. simpl.
    replace (1 + Z.of_nat n) with (Z.of_nat n + 1) by lia. reflexivity.
  - split; [exact Hsum|]. rewrite Hsum.
    assert (Hmono : 2 ^ (Z.of_nat n + 1) <= 2 ^ retries)
      by (apply Z.pow_le_mono_r; lia).
    split; [lia|]. intros Hthree. rewrite Hthree in Hmono. lia.
Qed.

Lemma every_call_is_a_bounded_backoff_witness :
  transcribeAudio (respond 502 "bad gateway") small_buffer "audio/ogg; codecs=opus" no_options
  = Some ([WhisperRequest 1 ogg_form; Sleep 2000; WhisperRequest 2 ogg_form; Sleep 4000;
           WhisperRequest 3 ogg_form],
          Threw (Some {| message := "Whisper API 502: bad gateway" |}))
  /\ total (delays [WhisperRequest 1 ogg_form; Sleep 2000; WhisperRequest 2 ogg_form;
                    Sleep 4000; WhisperRequest 3 ogg_form]) <= 6000.
Proof.
  assert (Hrun : transcribeAudio (respond 502 "bad gateway") small_buffer
                   "audio/ogg; codecs=opus" no_options
                 = Some ([WhisperRequest 1 ogg_form; Sleep 2000; WhisperRequest 2 ogg_form;
                          Sleep 4000; WhisperRequest 3 ogg_form],
                         Threw (Some {| message := "Whisper API 502: bad gateway" |})))
    by (vm_compute; reflexivity).
  split; [exact Hrun|].
  destruct (every_call_is_a_bounded_backoff _ _ _ _ _ _ Hrun)
    as [Hnone|(n & _ & _ & _ & _ & _ & Hsix)]; [discriminate|].
  apply Hsix. reflexivity.
Defined.

(** The requests of a call that ends with request n+1. *)
Lemma shape_attempts (form : FormData) (n : nat) :
  attempts (backoff form 1 n ++ [WhisperRequest (Z.of_nat n + 1) form])
  = List.map (fun i => 1 + Z.of_nat i) (List.seq 0 (S n)).
Proof.
  rewrite attempts_app, backoff_attempts. simpl attempts.
  rewrite List.seq_S, List.map_app. simpl.
  replace (1 + Z.of_nat n) with (Z.of_nat n + 1) by lia. reflexivity.
Qed.

(** After [k] retryable failures the loop returns what the next attempt
    returns. *)
Lemma retryLoop_first_success (api : Z -> FetchOutcome) (form : FormData) (retries : Z)
    (t : TranscriptionResult) (k : nat) :
  forall (fuel : nat) (attempt : Z) (lastError : option Error),
    attempt + Z.of_nat k <= retries ->
    retries - attempt + 1 <= Z.of_nat fuel ->
    (forall j, attempt <= j < attempt + Z.of_nat k ->
               exists error, thrown (api j) = Some error
                             /\ isRetryable (message error) = true) ->
    attemptOnce (api (attempt + Z.of_nat k)) = inl t ->
    retryLoop api form retries fuel attempt lastError
    = Some (backoff form attempt k ++ [WhisperRequest (attempt + Z.of_nat k) form],
            Returned t).
Proof.
  induction k as [|k IH]; intros fuel attempt lastError Hle Hfuel Hall Hlast.
  - rewrite Z.add_0_r in *. destruct fuel as [|fuel]; [lia|]. simpl.
    destruct (Z.leb_spec attempt retries); [|lia]. rewrite Hlast. reflexivity.
  - destruct fuel as [|fuel]; [lia|]. simpl.
    destruct (Z.leb_spec attempt retries); [|lia].
    destruct (Hall attempt) as (error & Hthrown & Hmsg); [lia|].
    unfold thrown in Hthrown.
    destruct (attemptOnce (api attempt)) as [|error']; [discriminate|].
    injection Hthrown as ->. rewrite Hmsg.
    destruct (Z.ltb_spec attempt retries); [|lia]. simpl.
    replace (attempt + Z.of_nat (S k)) with (attempt + 1 + Z.of_nat k) in * by lia.
    rewrite (IH fuel (attempt + 1) (Some error)); [reflexivity | lia | lia | | exact Hlast].
    intros j Hj. apply Hall. lia.
Qed.

(** X2: when the first k attempts fail with retryable errors, k is below
    maxRetries and attempt k+1 gets a result, the call returns that
    result after exactly k+1 requests and k waits. *)
Theorem call_returns_first_success (api : Z -> FetchOutcome) (audioBuffer : Buffer.t)
    (mimeType : string) (options : Options) (k : nat) (t : TranscriptionResult) :
  Buffer.length audioBuffer <= MAX_FILE_SIZE ->
  Z.of_nat k < default 3 (maxRetries options) ->
  (forall j, 1 <= j <= Z.of_nat k ->
             exists error, thrown (api j) = Some error
                           /\ isRetryable (message error) = true) ->
  attemptOnce (api (Z.of_nat k + 1)) = inl t ->
  let form := buildForm mimeType (opt_language options) in
  transcribeAudio api audioBuffer mimeType options
  = Some (backoff form 1 k ++ [WhisperRequest (Z.of_nat k + 1) form], Returned t)
  /\ List.length (attempts (backoff form 1 k ++ [WhisperRequest (Z.of_nat k + 1) form]))
     = S k
  /\ List.length (delays (backoff form 1 k ++ [WhisperRequest (Z.of_nat k + 1) form]))
     = k.
Proof.
  intros Hsize Hk Hall Hlast form. unfold transcribeAudio.
  rewrite size_guard_passes by assumption. fold form.
  replace (Z.of_nat k + 1) with (1 + Z.of_nat k) in * by lia.
  split.
  - apply retryLoop_first_success; [lia | lia | intros; apply Hall; lia | exact Hlast].
  - rewrite attempts_app, delays_app, backoff_attempts, !List.length_app, List.length_map,
      List.length_seq.
    split; [simpl; lia|]. simpl. rewrite Nat.add_0_r.
    clear. generalize 1. induction k as [|k IH]; intros a; [reflexivity|].
    cbn [backoff delays List.flat_map app List.length].
    change (List.flat_map _ (backoff form (a + 1) k)) with (delays (backoff form (a + 1) k)).
    rewrite IH. reflexivity.
Qed.

Lemma call_returns_first_success_witness :
  Buffer.length small_buffer <= MAX_FILE_SIZE
  /\ transcribeAudio Cases.once_limited small_buffer "audio/ogg; codecs=opus" no_options
     = Some ([WhisperRequest 1 ogg_form; Sleep 2000; WhisperRequest 2 ogg_form],
             Returned {| text := "Szia"; result_language := "hu";
                         result_duration := Some (7 # 2)%Q; segments := [] |}).
Proof.
  assert (Hsize : Buffer.length small_buffer <= MAX_FILE_SIZE) by (vm_compute; discriminate).
  split; [exact Hsize|].
  refine (proj1 (call_returns_first_success Cases.once_limited small_buffer
                   "audio/ogg; codecs=opus" no_options 1 _ Hsize _ _ _)).
  - vm_compute. reflexivity.
  - intros j Hj. assert (j = 1) as -> by (simpl in Hj; lia).
    eexists. split; reflexivity.
  - reflexivity.
Defined.

(** X3: a result that a call returns is the body of the 2xx response to
    its last request, normalised: the language is 'unknown' when the body
    has none or an empty one, so it is never empty; the duration is null
    when the body has none or zero, so it is never zero; the segments are
    empty when the body has none.  Every earlier request failed with a
    retryable error. *)
Theorem returned_result_is_normalised (api : Z -> FetchOutcome) (audioBuffer : Buffer.t)
    (mimeType : string) (options : Options) effects (t : TranscriptionResult) :
  transcribeAudio api audioBuffer mimeType options = Some (effects, Returned t) ->
  exists (n : nat) r v,
    Z.of_nat n < default 3 (maxRetries options)
    /\ attempts effects = List.map (fun i => 1 + Z.of_nat i) (List.seq 0 (S n))
    /\ api (Z.of_nat n + 1) = Responded r /\ ok r = true /\ body_json r = Parsed v
    /\ (forall j, 1 <= j <= Z.of_nat n ->
                  exists error, thrown (api j) = Some error
                                /\ isRetryable (message error) = true)
    /\ text t = json_text v
    /\ result_language t
       = match json_language v with
         | Some l => if String.eqb l "" then "unknown" else l
         | None => "unknown"
         end
    /\ result_language t <> ""
    /\ result_duration t
       = match json_duration v with
         | Some d => if Qnum d =? 0 then None else Some d
         | None => None
         end
    /\ result_duration t <> Some (0 # 1)%Q
    /\ segments t = default [] (json_segments v).
Proof.
  intros Hrun.
  - revert Hrun. unfold transcribeAudio.
    destruct (Buffer.length audioBuffer >? MAX_FILE_SIZE); [discriminate|].
    intros Hrun. destruct (retryLoop_shape _ _ _ _ _ _ _ _ Hrun)
      as [[-> Hnone]|(n & Hn & -> & Hall & Hone)].
    { exfalso. destruct (Z.to_nat (default 3 (maxRetries options))); simpl in Hrun;
        destruct (Z.leb_spec 1 (default 3 (maxRetries options))); try lia; discriminate. }
    replace (1 + Z.of_nat n) with (Z.of_nat n + 1) in * by lia.
    revert Hone. unfold attemptOnce.
    destruct (api (Z.of_nat n + 1)) as [reason|r] eqn:Hapi; [discriminate|].
    destruct (ok r) eqn:Hok; simpl;
      [|destruct ((status r <? 500) && negb (status r =? 429)); discriminate].
    destruct (body_json r) as [v|] eqn:Hbody; [|discriminate].
    intros [= <-]. exists n, r, v. cbn [text result_language result_duration segments].
    split; [lia|]. split; [apply shape_attempts|].
    split; [exact Hapi|]. split; [exact Hok|]. split; [exact Hbody|].
    split; [intros j Hj; apply Hall; lia|]. split; [reflexivity|].
    assert (Hlang : default "unknown" (or_string (json_language v) (Some "unknown"))
                    = match json_language v with
                      | Some l => if String.eqb l "" then "unknown" else l
                      | None => "unknown"
                      end).
    { unfold or_string, truthy_string. destruct (json_language v) as [l|]; [|reflexivity].
      destruct (String.eqb l ""); reflexivity. }
    assert (Hdur : or_number (json_duration v) None
                   = match json_duration v with
                     | Some d => if Qnum d =? 0 then None else Some d
                     | None => None
                     end).
    { unfold or_number, truthy_number. destruct (json_duration v) as [d|]; [|reflexivity].
      destruct (Qnum d =? 0); reflexivity. }
    split; [exact Hlang|]. split.
    { rewrite Hlang. destruct (json_language v) as [l|]; [|discriminate].
      destruct (String.eqb_spec l ""); [discriminate | assumption]. }
    split; [exact Hdur|]. split; [|reflexivity].
    rewrite Hdur. destruct (json_duration v) as [d|]; [|discriminate].
    destruct (Z.eqb_spec (Qnum d) 0) as [Hz|Hz]; [discriminate|].
    intros [= ->]. apply Hz. reflexivity.
Qed.

Lemma returned_result_is_normalised_witness :
  exists t,
    transcribeAudio Cases.once_limited small_buffer "audio/ogg; codecs=opus" no_options
    = Some ([WhisperRequest 1 ogg_form; Sleep 2000; WhisperRequest 2 ogg_form], Returned t)
    /\ result_language t <> "".
Proof.
  eexists. split; [vm_compute; reflexivity|].
  assert (Hrun : transcribeAudio Cases.once_limited small_buffer
                   "audio/ogg; codecs=opus" no_options
                 = Some ([WhisperRequest 1 ogg_form; Sleep 2000; WhisperRequest 2 ogg_form],
                         Returned {| text := "Szia"; result_language := "hu";
                                     result_duration := Some (7 # 2)%Q; segments := [] |}))
    by (vm_compute; reflexivity).
  destruct (returned_result_is_normalised _ _ _ _ _ _ Hrun)
    as (n & r & v & _ & _ & _ & _ & _ & _ & _ & _ & Hlang & _).
  exact Hlang.
Defined.

(** Up to its first separator a text is the first piece of its split. *)
Lemma split_head (sep : ascii) (base rest : string) :
  lacks sep base = true ->
  List.hd EmptyString (split sep base) = base
  /\ List.hd EmptyString (split sep (base +:+ String sep rest)) = base.
Proof.
  induction base as [|c base IH]; intros Hbase.
  - split; [reflexivity|].
    change (EmptyString +:+ String sep rest) with (String sep rest).
    simpl. rewrite Ascii.eqb_refl. reflexivity.
  - simpl in Hbase. apply andb_true_iff in Hbase as [Hc Hbase].
    apply negb_true_iff in Hc. destruct (IH Hbase) as [H1 H2].
    change (String c base +:+ String sep rest) with (String c (base +:+ String sep rest)).
    cbn [split]. rewrite Hc.
    destruct (split sep base) as [|p ps]; destruct (split sep (base +:+ String sep rest))
      as [|q qs]; simpl in *; subst; auto.
Qed.

(** X4: the form of a request.  For a mime type whose base part, the
    text before the first semicolon, has a slash (so that it names no
    property that the table inherits), the file is named audio.ext with
    ext one of the seven known extensions.  Parameters after the first
    semicolon of the mime type make no difference.  The language field
    is sent only for a language that is neither empty nor 'auto'. *)
Theorem form_is_well_formed (mimeType : string) (lang : option string) :
  (includes (file_type (buildForm mimeType lang)) "/" = true ->
   exists ext, List.In ext known_extensions
               /\ file_name (buildForm mimeType lang) = "audio." +:+ ext)
  /\ (forall base parameters,
         lacks ";" base = true ->
         mimeType = base +:+ ";" +:+ parameters ->
         buildForm mimeType lang = buildForm base lang)
  /\ form_language (buildForm mimeType lang) <> Some ""
  /\ form_language (buildForm mimeType lang) <> Some "auto"
  /\ (forall l, l <> "" -> l <> "auto" -> lang = Some l ->
                form_language (buildForm mimeType lang) = Some l).
Proof.
  split; [|split; [|split; [|split]]].
  - intros _. unfold buildForm; cbn [file_name]. unfold lookup_ext.
    destruct (List.find _ MIME_EXT_MAP) as [entry|] eqn:Hfind;
      [|exists "ogg"; split; [simpl; auto | reflexivity]].
    apply List.find_some in Hfind as [Hin _]. exists (snd entry).
    unfold MIME_EXT_MAP in Hin. simpl in Hin.
    repeat (destruct Hin as [<-|Hin]; [split; [simpl; auto 10 | reflexivity]|]).
    destruct Hin.
  - intros base parameters Hbase ->. unfold buildForm.
    change (base +:+ ";" +:+ parameters) with (base +:+ String ";" parameters).
    destruct (split_head ";" base parameters Hbase) as [-> ->]. reflexivity.
  - unfold buildForm; cbn [form_language]. destruct lang as [l|]; [|discriminate].
    unfold truthy_string. destruct (String.eqb_spec l ""); simpl; [discriminate|].
    destruct (String.eqb l "auto"); simpl; congruence.
  - unfold buildForm; cbn [form_language]. destruct lang as [l|]; [|discriminate].
    destruct (String.eqb_spec l "auto"); simpl; [rewrite andb_false_r; discriminate|].
    destruct (truthy_string l); simpl; congruence.
  - intros l Hempty Hauto ->. unfold buildForm; cbn [form_language].
    unfold truthy_string.
    destruct (String.eqb_spec l ""); [contradiction|].
    destruct (String.eqb_spec l "auto"); [contradiction|]. reflexivity.
Qed.

Lemma form_is_well_formed_witness :
  lacks ";" "audio/mpeg" = true
  /\ buildForm "audio/mpeg; rate=44100" (Some "hu") = buildForm "audio/mpeg" (Some "hu")
  /\ includes (file_type (buildForm "audio/mpeg; rate=44100" (Some "hu"))) "/" = true
  /\ exists ext, List.In ext known_extensions
                 /\ file_name (buildForm "audio/mpeg; rate=44100" (Some "hu"))
                    = "audio." +:+ ext.
Proof.
  split; [reflexivity|]. split; [|split; [reflexivity|]].
  - exact (proj1 (proj2 (form_is_well_formed "audio/mpeg; rate=44100" (Some "hu")))
             "audio/mpeg" " rate=44100" eq_refl eq_refl).
  - exact (proj1 (form_is_well_formed "audio/mpeg; rate=44100" (Some "hu")) eq_refl).
Defined.

End WhisperMore.

(** ** The audio handler: the shape of every run *)

Module HandlerMore.
Import Js Whisper Webhook Observe Samples Reading JsFacts WhisperFacts HandlerFacts WhisperMore.

Lemma templates_app (xs ys : list Effect) :
  templates (xs ++ ys) = templates xs ++ templates ys.
Proof. apply List.flat_map_app. Qed.

(** The loop over the forward numbers, read off position by position. *)
Lemma forwardLoop_spec (w : World) (t : TranscriptionResult)
    (senderName senderPhone : string) (numbers : list string) :
  forall index,
    let effects := forwardLoop w t senderName senderPhone index numbers in
    templates effects = List.map snd (served senderPhone index numbers)
    /\ messages effects
       = fallbacks w (forwardText t senderName senderPhone)
                   (served senderPhone index numbers)
    /\ List.forallb is_send effects = true.
Proof.
  induction numbers as [|number rest IH]; intros index; simpl; [auto|].
  destruct (IH (S index)) as (Ht & Hm & Hs).
  rewrite templates_app, messages_app, List.forallb_app, Ht, Hm, Hs.
  unfold fallbacks. rewrite List.map_app, List.flat_map_app.
  destruct (String.eqb number senderPhone); simpl; [auto|].
  destruct (template_delivery w index); [|auto].
  destruct (plain_delivery w index); auto.
Qed.

Lemma served_excludes (senderPhone : string) (numbers : list string) :
  forall index, ~ List.In senderPhone (List.map snd (served senderPhone index numbers)).
Proof.
  induction numbers as [|number rest IH]; intros index; simpl; [tauto|].
  rewrite List.map_app, List.in_app_iff. intros [H|H]; [|exact (IH _ H)].
  destruct (String.eqb_spec number senderPhone); simpl in H; [tauto|].
  destruct H as [H|[]]. congruence.
Qed.

Lemma served_within (senderPhone : string) (numbers : list string) :
  forall index number,
    List.In number (List.map snd (served senderPhone index numbers)) ->
    List.In number numbers.
Proof.
  induction numbers as [|n rest IH]; intros index number; simpl; [tauto|].
  rewrite List.map_app, List.in_app_iff. intros [H|H]; [|right; exact (IH _ _ H)].
  destruct (String.eqb n senderPhone); simpl in H; [tauto|].
  destruct H as [H|[]]. left. exact H.
Qed.

(** X5: forwarding.  A template goes to each configured number that is
    not the sender's, in the configured order, and to no one else; a
    plain message with the forward text goes to exactly those of them
    whose template could not be delivered; nothing else is done, whatever
    becomes of the plain messages. *)
Theorem forwarding_serves_the_others (w : World) (t : TranscriptionResult)
    (senderName senderPhone : string) :
  let effects := forward w t senderName senderPhone in
  templates effects = List.map snd (served senderPhone 0 (configured w))
  /\ templates effects
     = List.filter (fun number => negb (String.eqb number senderPhone)) (configured w)
  /\ ~ List.In senderPhone (templates effects)
  /\ messages effects
     = fallbacks w (forwardText t senderName senderPhone)
                 (served senderPhone 0 (configured w))
  /\ List.forallb is_send effects = true.
Proof.
  assert (Hfilter : forall numbers index,
             List.map snd (served senderPhone index numbers)
             = List.filter (fun number => negb (String.eqb number senderPhone)) numbers).
  { induction numbers as [|n rest IH]; intros index; simpl; [reflexivity|].
    rewrite List.map_app, IH. destruct (String.eqb n senderPhone); reflexivity. }
  assert (Hgen : forall numbers,
             let effects := forwardLoop w t senderName senderPhone 0 numbers in
             templates effects = List.map snd (served senderPhone 0 numbers)
             /\ templates effects
                = List.filter (fun number => negb (String.eqb number senderPhone)) numbers
             /\ ~ List.In senderPhone (templates effects)
             /\ messages effects
                = fallbacks w (forwardText t senderName senderPhone)
                            (served senderPhone 0 numbers)
             /\ List.forallb is_send effects = true).
  { intros numbers.
    destruct (forwardLoop_spec w t senderName senderPhone numbers 0%nat) as (Ht & Hm & Hs).
    simpl. rewrite Ht. split; [reflexivity|]. split; [apply Hfilter|].
    split; [apply served_excludes|]. split; assumption. }
  unfold forward, configured.
  destruct (FORWARD_TO_NUMBERS w) as [forwardNumbers|]; [|simpl; tauto].
  destruct (truthy_string forwardNumbers) eqn:Htruthy; [apply Hgen|].
  unfold truthy_string in Htruthy. apply negb_false_iff, String.eqb_eq in Htruthy.
  subst forwardNumbers. apply (Hgen []).
Qed.

(** The Whisper client makes requests and sleeps, all its requests with
    the form it built. *)
Lemma retryLoop_intake (api : Z -> FetchOutcome) (form : FormData) (retries : Z)
    (fuel : nat) :
  forall (attempt : Z) (lastError : option Error) effects completion,
    retryLoop api form retries fuel attempt lastError = Some (effects, completion) ->
    List.forallb is_intake effects = true
    /\ List.Forall (fun f => f = form) (forms effects).
Proof.
  intros attempt lastError effects completion Hrun.
  destruct (retryLoop_shape _ _ _ _ _ _ _ _ Hrun) as [[-> _]|(k & _ & -> & _)];
    [split; [reflexivity | constructor]|].
  rewrite List.forallb_app, forms_app, backoff_forms. simpl.
  split.
  - rewrite andb_true_r. clear. revert attempt.
    induction k as [|k IH]; intros attempt; [reflexivity|]. simpl. apply IH.
  - apply List.Forall_app. split; [|repeat constructor].
    clear. induction k as [|k IH]; simpl; constructor; auto.
Qed.

Lemma transcribed_intake (w : World) (a : Audio) (audioBuffer : Buffer.t)
    effects completion :
  transcribed w a audioBuffer = Some (effects, completion) ->
  List.forallb is_intake effects = true
  /\ List.Forall (fun f => f = buildForm (mimeTypeOf a) (opt_language (whisperOptions w)))
                 (forms effects).
Proof.
  unfold transcribed, transcribeAudio.
  destruct (Buffer.length audioBuffer >? MAX_FILE_SIZE);
    [intros [= <- _]; split; [reflexivity | constructor]|].
  apply retryLoop_intake.
Qed.

(** Steps 3 to 5 start with the save and go on with sends only. *)
Lemma saveAndNotify_shape (w : World) (a : Audio) (senderPhone senderName : string)
    (timestamp : Z) (t : TranscriptionResult) :
  exists r sends,
    fst (saveAndNotify w a senderPhone senderName timestamp t) = Save r :: sends
    /\ List.forallb is_send sends = true.
Proof.
  unfold saveAndNotify.
  assert (Hs : List.forallb is_send (forward w t senderName senderPhone) = true).
  { unfold forward. destruct (FORWARD_TO_NUMBERS w) as [forwardNumbers|]; [|reflexivity].
    destruct (truthy_string forwardNumbers); [|reflexivity].
    apply forwardLoop_spec. }
  destruct (strict_equal (auto_reply w) "true"); [destruct (reply_delivery w)|]; simpl;
    eexists _, _; (split; [reflexivity|]); simpl; auto.
Qed.

(** The run after the download step: requests, then nothing more, or
    the notice, or the save followed by sends. *)
Lemma transcribeAndSave_shape (w : World) (a : Audio) (senderPhone senderName : string)
    (timestamp : Z) (audioBuffer : Buffer.t) effects completion :
  transcribeAndSave w a senderPhone senderName timestamp audioBuffer
  = Some (effects, completion) ->
  exists intake rest,
    effects = intake ++ rest
    /\ List.forallb is_intake intake = true
    /\ (rest = []
        \/ rest = [SendMessage senderPhone TOO_LARGE_NOTICE]
        \/ exists r sends, rest = Save r :: sends /\ List.forallb is_send sends = true).
Proof.
  unfold transcribeAndSave.
  destruct (Buffer.length audioBuffer >? 25 * 1024 * 1024).
  - simpl. intros [= <- _]. exists [], [SendMessage senderPhone TOO_LARGE_NOTICE]. auto.
  - destruct (transcribeAudio (whisper w) audioBuffer (mimeTypeOf a) (whisperOptions w))
      as [[requests [t|e]]|] eqn:Hcall; [| |discriminate].
    + destruct (saveAndNotify_shape w a senderPhone senderName timestamp t)
        as (r & sends & Heq & Hsends).
      destruct (saveAndNotify w a senderPhone senderName timestamp t) as [effects' c].
      simpl in Heq. subst effects'. intros [= <- _].
      exists requests, (Save r :: sends). split; [reflexivity|].
      split; [exact (proj1 (transcribed_intake w a audioBuffer _ _ Hcall))|].
      right. right. exists r, sends. auto.
    + intros [= <- _]. exists requests, []. rewrite app_nil_r. split; [reflexivity|].
      split; [exact (proj1 (transcribed_intake w a audioBuffer _ _ Hcall))|]. auto.
Qed.

(** X6: the anatomy of a run of the audio handler.  A run is a sequence
    of downloads, waits and transcription requests, followed by nothing,
    or by one failure notice to the sender, or by the save of one record
    and then by messages only.  So a run saves at most one record, saves
    it after its last download and request, and sends the reply and the
    forwards only after the save. *)
Theorem run_saves_once_before_it_sends (w : World) (message : Message)
    (senderPhone senderName : string) (timestamp : Z) effects completion :
  handleAudioMessage w message senderPhone senderName timestamp
  = Some (effects, completion) ->
  (exists intake rest,
      effects = intake ++ rest
      /\ List.forallb is_intake intake = true
      /\ (rest = []
          \/ (exists notice, rest = [SendMessage senderPhone notice]
                             /\ is_notice (senderPhone, notice) = true
                             /\ completion = Returned tt)
          \/ exists r sends, rest = Save r :: sends /\ List.forallb is_send sends = true))
  /\ (List.length (saves effects) <= 1)%nat.
Proof.
  intros Hrun.
  assert (Hshape : exists intake rest,
             effects = intake ++ rest
             /\ List.forallb is_intake intake = true
             /\ (rest = []
                 \/ (exists notice, rest = [SendMessage senderPhone notice]
                                    /\ is_notice (senderPhone, notice) = true
                                    /\ completion = Returned tt)
                 \/ exists r sends,
                      rest = Save r :: sends /\ List.forallb is_send sends = true)).
  { revert Hrun. unfold handleAudioMessage.
    destruct (audio message) as [a|];
      [|intros [= <- _]; exists [], []; auto].
    assert (Hstep : forall pre audioBuffer,
               List.forallb is_intake pre = true ->
               prepend pre (transcribeAndSave w a senderPhone senderName timestamp audioBuffer)
               = Some (effects, completion) ->
               exists intake rest,
                 effects = intake ++ rest
                 /\ List.forallb is_intake intake = true
                 /\ (rest = []
                     \/ (exists notice, rest = [SendMessage senderPhone notice]
                                        /\ is_notice (senderPhone, notice) = true
                                        /\ completion = Returned tt)
                     \/ exists r sends,
                          rest = Save r :: sends /\ List.forallb is_send sends = true)).
    { intros pre audioBuffer Hpre.
      destruct (transcribeAndSave w a senderPhone senderName timestamp audioBuffer)
        as [[effects' c]|] eqn:Hcall; [|discriminate].
      simpl. intros [= <- <-].
      destruct (transcribeAndSave_shape _ _ _ _ _ _ _ _ Hcall)
        as (intake & rest & -> & Hintake & Hrest).
      exists (pre ++ intake), rest. rewrite app_assoc. split; [reflexivity|].
      split; [rewrite List.forallb_app, Hpre, Hintake; reflexivity|].
      destruct Hrest as [->|[->|Hsave]]; [auto | | auto].
      right. left. exists TOO_LARGE_NOTICE. split; [reflexivity|]. split; [reflexivity|].
      revert Hcall. unfold transcribeAndSave.
      destruct (Buffer.length audioBuffer >? 25 * 1024 * 1024); [simpl; congruence|].
      destruct (transcribeAudio (whisper w) audioBuffer (mimeTypeOf a) (whisperOptions w))
        as [[requests [t|e]]|] eqn:Hcall; [| |discriminate].
      - destruct (saveAndNotify_shape w a senderPhone senderName timestamp t)
          as (r & sends & Heq & _).
        destruct (saveAndNotify w a senderPhone senderName timestamp t) as [effects' c'].
        simpl in Heq. subst effects'. intros [= Heq _]. exfalso.
        assert (Hs : saves (requests ++ Save r :: sends)
                     = saves (intake ++ [SendMessage senderPhone TOO_LARGE_NOTICE]))
          by (rewrite Heq; reflexivity).
        rewrite !saves_app in Hs.
        destruct (transcribeAudio_quiet _ _ _ _ _ _ Hcall) as (Hq & _).
        rewrite Hq in Hs. simpl in Hs.
        assert (Hi : forall l, List.forallb is_intake l = true -> saves l = []).
        { clear. induction l as [|e l IH]; [reflexivity|]. simpl.
          destruct e; simpl; try discriminate; intros H; apply IH; exact H. }
        rewrite (Hi intake Hintake) in Hs. discriminate.
      - intros [= Heq _]. exfalso.
        assert (Hm : messages requests
                     = messages (intake ++ [SendMessage senderPhone TOO_LARGE_NOTICE]))
          by (rewrite Heq; reflexivity).
        destruct (transcribeAudio_quiet _ _ _ _ _ _ Hcall) as (_ & Hq & _).
        rewrite Hq, messages_app in Hm. simpl in Hm.
        destruct (messages intake); discriminate. }
    destruct (download w 0%nat) as [audioBuffer|downloadErr].
    - apply Hstep. reflexivity.
    - destruct (download w 1%nat) as [audioBuffer|retryErr]; [apply Hstep; reflexivity|].
      simpl. intros [= <- <-].
      exists [Download (audio_id a); Sleep 2000; Download (audio_id a)],
             [SendMessage senderPhone DOWNLOAD_FAILED_NOTICE].
      split; [reflexivity|]. split; [reflexivity|]. right. left.
      exists DOWNLOAD_FAILED_NOTICE. auto. }
  split; [exact Hshape|].
  destruct Hshape as (intake & rest & -> & Hintake & Hrest).
  assert (Hi : forall l, List.forallb is_intake l = true -> saves l = []).
  { clear. induction l as [|e l IH]; [reflexivity|]. simpl.
    destruct e; simpl; try discriminate; intros H; apply IH; exact H. }
  assert (Hs : forall l, List.forallb is_send l = true -> saves l = []).
  { clear. induction l as [|e l IH]; [reflexivity|]. simpl.
    destruct e; simpl; try discriminate; intros H; apply IH; exact H. }
  rewrite saves_app, (Hi intake Hintake).
  destruct Hrest as [->|[(notice & -> & _)|(r & sends & -> & Hsends)]]; simpl; try lia.
  change (List.flat_map _ sends) with (saves sends). rewrite (Hs sends Hsends). simpl. lia.
Qed.

Lemma run_saves_once_before_it_sends_witness :
  handleAudioMessage (forwarding (transcript (Some (7 # 2)%Q)))
                     (voice_note None) "40712345678" "Anna" 1700000000999
  <> None
  /\ exists effects completion,
       handleAudioMessage (forwarding (transcript (Some (7 # 2)%Q)))
                          (voice_note None) "40712345678" "Anna" 1700000000999
       = Some (effects, completion)
       /\ (List.length (saves effects) <= 1)%nat.
Proof.
  destruct (handleAudioMessage (forwarding (transcript (Some (7 # 2)%Q)))
              (voice_note None) "40712345678" "Anna" 1700000000999)
    as [[effects completion]|] eqn:Hrun; [|vm_compute in Hrun; discriminate].
  split; [discriminate|]. exists effects, completion. split; [reflexivity|].
  exact (proj2 (run_saves_once_before_it_sends _ _ _ _ _ _ _ Hrun)).
Defined.

Lemma intake_is_silent (effects : list Effect) :
  List.forallb is_intake effects = true ->
  messages effects = [] /\ templates effects = [] /\ saves effects = [].
Proof.
  induction effects as [|e effects IH]; [auto|]. simpl.
  destruct e; simpl; try discriminate; exact IH.
Qed.

(** X7: a failed transcription is silent.  When the download succeeds,
    the audio is within the limit and the Whisper client throws, the
    handler throws the same value after the client's last request: it
    sends no message and no template to anyone and saves nothing. *)
Theorem failed_transcription_is_silent (w : World) (message : Message) (a : Audio)
    (senderPhone senderName : string) (timestamp : Z) (audioBuffer : Buffer.t)
    requests (e : option Error) :
  audio message = Some a ->
  downloaded w = Some audioBuffer ->
  Buffer.length audioBuffer <= 25 * 1024 * 1024 ->
  transcribed w a audioBuffer = Some (requests, Threw e) ->
  exists fetched,
    handleAudioMessage w message senderPhone senderName timestamp
    = Some (fetched ++ requests, Threw e)
    /\ List.forallb is_intake (fetched ++ requests) = true
    /\ messages (fetched ++ requests) = []
    /\ templates (fetched ++ requests) = []
    /\ saves (fetched ++ requests) = []
    /\ e <> None.
Proof.
  intros Haudio Hdown Hsize Hcall.
  assert (Hstep : transcribeAndSave w a senderPhone senderName timestamp audioBuffer
                  = Some (requests, Threw e)).
  { unfold transcribeAndSave. unfold transcribed in Hcall.
    destruct (Z.gtb_spec (Buffer.length audioBuffer) (25 * 1024 * 1024)); [lia|].
    rewrite Hcall. reflexivity. }
  assert (Hreq : List.forallb is_intake requests = true)
    by exact (proj1 (transcribed_intake w a audioBuffer _ _ Hcall)).
  assert (Hsome : e <> None).
  { intros ->. unfold transcribed, transcribeAudio in Hcall.
    destruct (Buffer.length audioBuffer >? MAX_FILE_SIZE); [discriminate|].
    apply retryLoop_throws_null in Hcall as [_ Hcall]. simpl in Hcall. lia. }
  unfold handleAudioMessage, downloaded in *. rewrite Haudio.
  destruct (download w 0%nat) as [b|downloadErr].
  - injection Hdown as ->. rewrite Hstep. simpl.
    exists [Download (audio_id a)]. split; [reflexivity|].
    assert (Hall : List.forallb is_intake ([Download (audio_id a)] ++ requests) = true)
      by (simpl; exact Hreq).
    destruct (intake_is_silent _ Hall) as (Hm & Ht & Hs). auto 6.
  - destruct (download w 1%nat) as [b|retryErr]; [|discriminate].
    injection Hdown as ->. rewrite Hstep. simpl.
    exists [Download (audio_id a); Sleep 2000; Download (audio_id a)].
    split; [reflexivity|].
    assert (Hall : List.forallb is_intake
                     ([Download (audio_id a); Sleep 2000; Download (audio_id a)] ++ requests)
                   = true) by (simpl; exact Hreq).
    destruct (intake_is_silent _ Hall) as (Hm & Ht & Hs). auto 6.
Qed.

Lemma failed_transcription_is_silent_witness :
  Buffer.length small_buffer <= 25 * 1024 * 1024
  /\ exists fetched,
       handleAudioMessage (world (at_once small_buffer) (respond 401 "bad key"))
                          (voice_note None) "40712345678" "Anna" 1700000000000
       = Some (fetched ++ [WhisperRequest 1 ogg_form],
               Threw (Some {| message := "Whisper API error 401: bad key" |}))
       /\ messages (fetched ++ [WhisperRequest 1 ogg_form]) = [].
Proof.
  assert (Hsize : Buffer.length small_buffer <= 25 * 1024 * 1024)
    by (vm_compute; discriminate).
  split; [exact Hsize|].
  destruct (failed_transcription_is_silent
              (world (at_once small_buffer) (respond 401 "bad key"))
              (voice_note None) (voice_audio None) "40712345678" "Anna" 1700000000000
              small_buffer [WhisperRequest 1 ogg_form]
              (Some {| message := "Whisper API error 401: bad key" |})
              eq_refl eq_refl Hsize eq_refl)
    as (fetched & Hrun & _ & Hm & _).
  exists fetched. split; [exact Hrun | exact Hm].
Defined.

(** X8: a failed reply ends the run after the save.  When the
    transcription returns, auto_reply is 'true' and the reply cannot be
    delivered, the handler throws the error of the send; the record has
    been saved, the reply is the only message of the run, and nothing is
    forwarded, whatever numbers are configured. *)
Theorem failed_reply_skips_forwarding (w : World) (message : Message) (a : Audio)
    (senderPhone senderName : string) (timestamp : Z) (audioBuffer : Buffer.t)
    requests (t : TranscriptionResult) (replyErr : Error) :
  audio message = Some a ->
  downloaded w = Some audioBuffer ->
  Buffer.length audioBuffer <= 25 * 1024 * 1024 ->
  transcribed w a audioBuffer = Some (requests, Returned t) ->
  auto_reply w = Some "true" ->
  reply_delivery w = Some replyErr ->
  exists effects r,
    handleAudioMessage w message senderPhone senderName timestamp
    = Some (effects, Threw (Some replyErr))
    /\ saves effects = [r]
    /\ transcription r = text t
    /\ messages effects = [(senderPhone, replyText t)]
    /\ templates effects = [].
Proof.
  intros Haudio Hdown Hsize Hcall Hauto Hreply.
  assert (Hreq : List.forallb is_intake requests = true)
    by exact (proj1 (transcribed_intake w a audioBuffer _ _ Hcall)).
  assert (Hstep : exists r,
             transcribeAndSave w a senderPhone senderName timestamp audioBuffer
             = Some (requests ++ [Save r; SendMessage senderPhone (replyText t)],
                     Threw (Some replyErr))
             /\ transcription r = text t).
  { unfold transcribeAndSave. unfold transcribed in Hcall.
    destruct (Z.gtb_spec (Buffer.length audioBuffer) (25 * 1024 * 1024)); [lia|].
    rewrite Hcall. unfold saveAndNotify. rewrite Hauto, Hreply. simpl.
    eexists. split; reflexivity. }
  destruct Hstep as (r & Hstep & Htext).
  assert (Hobs : forall pre,
             List.forallb is_intake pre = true ->
             saves (pre ++ requests ++ [Save r; SendMessage senderPhone (replyText t)]) = [r]
             /\ messages (pre ++ requests
                              ++ [Save r; SendMessage senderPhone (replyText t)])
                = [(senderPhone, replyText t)]
             /\ templates (pre ++ requests
                               ++ [Save r; SendMessage senderPhone (replyText t)]) = []).
  { intros pre Hpre.
    destruct (intake_is_silent _ Hpre) as (Hm & Ht & Hs).
    destruct (intake_is_silent _ Hreq) as (Hm' & Ht' & Hs').
    rewrite !saves_app, !messages_app, !templates_app, Hm, Ht, Hs, Hm', Ht', Hs'.
    auto. }
  unfold handleAudioMessage, downloaded in *. rewrite Haudio.
  destruct (download w 0%nat) as [b|downloadErr].
  - injection Hdown as ->. rewrite Hstep. simpl.
    eexists _, r. split; [reflexivity|].
    destruct (Hobs [Download (audio_id a)] eq_refl) as (Hs & Hm & Ht). auto.
  - destruct (download w 1%nat) as [b|retryErr]; [|discriminate].
    injection Hdown as ->. rewrite Hstep. simpl.
    eexists _, r. split; [reflexivity|].
    destruct (Hobs [Download (audio_id a); Sleep 2000; Download (audio_id a)] eq_refl)
      as (Hs & Hm & Ht). auto.
Qed.

Lemma failed_reply_skips_forwarding_witness :
  Buffer.length small_buffer <= 25 * 1024 * 1024
  /\ configured Cases.muted = ["40799999999"]
  /\ exists effects r,
       handleAudioMessage Cases.muted (voice_note None) "40712345678" "Anna" 1700000000000
       = Some (effects, Threw (Some {| message := "Failed to send WhatsApp message: 401" |}))
       /\ saves effects = [r]
       /\ templates effects = [].
Proof.
  assert (Hsize : Buffer.length small_buffer <= 25 * 1024 * 1024)
    by (vm_compute; discriminate).
  split; [exact Hsize|]. split; [reflexivity|].
  assert (Hcall : exists requests t,
             transcribed Cases.muted (voice_audio None) small_buffer
             = Some (requests, Returned t))
    by (eexists _, _; vm_compute; reflexivity).
  destruct Hcall as (requests & t & Hcall).
  destruct (failed_reply_skips_forwarding Cases.muted (voice_note None) (voice_audio None)
              "40712345678" "Anna" 1700000000000 small_buffer requests t
              {| message := "Failed to send WhatsApp message: 401" |}
              eq_refl eq_refl Hsize Hcall eq_refl eq_refl)
    as (effects & r & Hrun & Hs & _ & _ & Ht).
  exists effects, r. auto.
Defined.

(** X9: the language of the requests.  Every transcription request of a
    run carries the stored default_language when that is set, not empty
    and not 'auto', and no language at all otherwise; the file type is
    the same for all of them. *)
Theorem requests_force_the_default_language (w : World) (message : Message)
    (senderPhone senderName : string) (timestamp : Z) effects completion :
  handleAudioMessage w message senderPhone senderName timestamp
  = Some (effects, completion) ->
  forall f, List.In f (forms effects) ->
    form_language f = forced_language w
    /\ exists a, audio message = Some a
                 /\ f = buildForm (mimeTypeOf a) (opt_language (whisperOptions w)).
Proof.
  assert (Hlang : forall mimeType,
             form_language (buildForm mimeType (opt_language (whisperOptions w)))
             = forced_language w).
  { intros mimeType. unfold buildForm, whisperOptions, forced_language, strict_equal,
      truthy_string; cbn [form_language opt_language].
    destruct (default_language w) as [l|]; [|reflexivity].
    destruct (String.eqb_spec l "auto") as [->|Hauto]; simpl; [reflexivity|].
    destruct (String.eqb_spec l ""); simpl; [reflexivity|].
    destruct (String.eqb_spec l "auto"); [contradiction | reflexivity]. }
  assert (Hstep : forall a audioBuffer eff c,
             transcribeAndSave w a senderPhone senderName timestamp audioBuffer
             = Some (eff, c) ->
             List.Forall (fun f => f = buildForm (mimeTypeOf a)
                                               (opt_language (whisperOptions w)))
                         (forms eff)).
  { intros a audioBuffer eff c. unfold transcribeAndSave.
    destruct (Buffer.length audioBuffer >? 25 * 1024 * 1024);
      [simpl; intros [= <- _]; constructor|].
    destruct (transcribeAudio (whisper w) audioBuffer (mimeTypeOf a) (whisperOptions w))
      as [[requests [t|e]]|] eqn:Hcall; [| |discriminate].
    - destruct (saveAndNotify_shape w a senderPhone senderName timestamp t)
        as (r & sends & Heq & Hsends).
      destruct (saveAndNotify w a senderPhone senderName timestamp t) as [effects' c'].
      simpl in Heq. subst effects'. intros [= <- _]. rewrite forms_app.
      apply List.Forall_app.
      split; [exact (proj2 (transcribed_intake w a audioBuffer _ _ Hcall))|].
      simpl. clear - Hsends. induction sends as [|e sends IH]; [constructor|].
      simpl in Hsends. destruct e; simpl in *; try discriminate; auto.
    - intros [= <- _]. exact (proj2 (transcribed_intake w a audioBuffer _ _ Hcall)). }
  unfold handleAudioMessage.
  destruct (audio message) as [a|]; [|intros [= <- _] f []].
  assert (Hpre : forall pre audioBuffer,
             forms pre = [] ->
             prepend pre (transcribeAndSave w a senderPhone senderName timestamp audioBuffer)
             = Some (effects, completion) ->
             forall f, List.In f (forms effects) ->
               form_language f = forced_language w
               /\ exists a0, Some a = Some a0
                             /\ f = buildForm (mimeTypeOf a0)
                                              (opt_language (whisperOptions w))).
  { intros pre audioBuffer Hforms.
    destruct (transcribeAndSave w a senderPhone senderName timestamp audioBuffer)
      as [[eff c]|] eqn:Hcall; [|discriminate].
    simpl. intros [= <- _] f. rewrite forms_app, Hforms. simpl. intros Hin.
    pose proof (Hstep _ _ _ _ Hcall) as Hall. rewrite List.Forall_forall in Hall.
    rewrite (Hall f Hin). split; [apply Hlang|]. exists a. auto. }
  destruct (download w 0%nat) as [audioBuffer|downloadErr].
  - apply (Hpre [Download (audio_id a)]). reflexivity.
  - destruct (download w 1%nat) as [audioBuffer|retryErr].
    + apply (Hpre [Download (audio_id a); Sleep 2000; Download (audio_id a)]). reflexivity.
    + simpl. intros [= <- _] f [].
Qed.

Lemma requests_force_the_default_language_witness :
  exists effects completion f,
    handleAudioMessage Cases.muted (voice_note None) "40712345678" "Anna" 1700000000000
    = Some (effects, completion)
    /\ List.In f (forms effects)
    /\ form_language f = Some "ro".
Proof.
  destruct (handleAudioMessage Cases.muted (voice_note None) "40712345678" "Anna"
              1700000000000) as [[effects completion]|] eqn:Hrun;
    [|vm_compute in Hrun; discriminate].
  assert (Hin : List.In (buildForm "audio/ogg; codecs=opus" (Some "ro")) (forms effects)).
  { vm_compute in Hrun. injection Hrun as <- _. left. reflexivity. }
  exists effects, completion, (buildForm "audio/ogg; codecs=opus" (Some "ro")).
  split; [reflexivity|]. split; [exact Hin|].
  exact (proj1 (requests_force_the_default_language _ _ _ _ _ _ _ Hrun _ Hin)).
Defined.

(** The pieces of a split lack the separator. *)
Lemma split_lacks (sep : ascii) (s : string) :
  List.Forall (fun piece => lacks sep piece = true) (split sep s).
Proof.
  induction s as [|c s IH]; simpl; [repeat constructor|].
  destruct (Ascii.eqb c sep) eqn:Hc; [constructor; [reflexivity | exact IH]|].
  destruct (split sep s) as [|piece pieces]; [repeat constructor; simpl; rewrite Hc; auto|].
  inversion IH as [|? ? Hpiece Hpieces]; subst.
  constructor; [|assumption]. simpl. rewrite Hc, Hpiece. reflexivity.
Qed.

Lemma trimStart_lacks (c : ascii) (s : string) :
  lacks c s = true -> lacks c (trimStart s) = true.
Proof.
  induction s as [|x s IH]; simpl; [auto|]. intros H.
  destruct (is_space x); [|exact H].
  apply andb_true_iff in H as [_ H]. auto.
Qed.

Lemma trimEnd_lacks (c : ascii) (s : string) :
  lacks c s = true -> lacks c (trimEnd s) = true.
Proof.
  induction s as [|x s IH]; simpl; [auto|]. intros H.
  apply andb_true_iff in H as [Hx H]. specialize (IH H).
  destruct (trimEnd s) as [|y t].
  - destruct (is_space x); simpl; [reflexivity | rewrite Hx; reflexivity].
  - simpl in *. rewrite Hx, IH. reflexivity.
Qed.

Lemma trimEnd_step (x : ascii) (s : string) :
  trimEnd (String x s)
  = match trimEnd s with
    | EmptyString => if is_space x then EmptyString else String x EmptyString
    | String y t => String x (String y t)
    end.
Proof. reflexivity. Qed.

Lemma trimEnd_idempotent (s : string) : trimEnd (trimEnd s) = trimEnd s.
Proof.
  induction s as [|x s IH]; [reflexivity|]. rewrite trimEnd_step.
  destruct (trimEnd s) as [|y t] eqn:Hs.
  - destruct (is_space x) eqn:Hx; [reflexivity|]. simpl. rewrite Hx. reflexivity.
  - rewrite trimEnd_step, IH. reflexivity.
Qed.

Lemma trimStart_clean (s : string) : starts_clean (trimStart s) = true.
Proof.
  induction s as [|x s IH]; [reflexivity|]. simpl.
  destruct (is_space x) eqn:Hx; [exact IH|]. simpl. rewrite Hx. reflexivity.
Qed.

Lemma trimEnd_clean (s : string) : starts_clean s = true -> starts_clean (trimEnd s) = true.
Proof.
  destruct s as [|x s]; [reflexivity|]. simpl. intros Hx.
  destruct (trimEnd s); [|exact Hx].
  apply negb_true_iff in Hx. rewrite Hx. simpl. rewrite Hx. reflexivity.
Qed.

Lemma trimStart_of_clean (s : string) : starts_clean s = true -> trimStart s = s.
Proof.
  destruct s as [|x s]; [reflexivity|]. simpl. intros Hx.
  apply negb_true_iff in Hx. rewrite Hx. reflexivity.
Qed.

Lemma trim_idempotent (s : string) : trim (trim s) = trim s.
Proof.
  unfold trim.
  rewrite (trimStart_of_clean (trimEnd (trimStart s)))
    by (apply trimEnd_clean, trimStart_clean).
  apply trimEnd_idempotent.
Qed.

(** X10: the forward numbers read from FORWARD_TO_NUMBERS.  Each of them
    is a piece between commas with the white space around it removed: it
    is not empty, has no comma, and trimming it again changes nothing.
    Pieces that are empty or blank are dropped. *)
Theorem forward_numbers_are_clean (forwardNumbers number : string) :
  List.In number (parseNumbers forwardNumbers) ->
  number <> ""
  /\ trim number = number
  /\ lacks "," number = true
  /\ exists piece, List.In piece (split "," forwardNumbers) /\ number = trim piece.
Proof.
  unfold parseNumbers. intros Hin.
  apply List.filter_In in Hin as [Hin Htruthy].
  apply List.in_map_iff in Hin as (piece & <- & Hpiece).
  split.
  - intros Hempty. rewrite Hempty in Htruthy. discriminate.
  - split; [apply trim_idempotent|]. split; [|eauto].
    pose proof (split_lacks "," forwardNumbers) as Hall.
    rewrite List.Forall_forall in Hall.
    apply trimEnd_lacks, trimStart_lacks, Hall. exact Hpiece.
Qed.

Lemma forward_numbers_are_clean_witness :
  parseNumbers " 40711111111 ,, 40722222222,  " = ["40711111111"; "40722222222"]
  /\ trim "40722222222" = "40722222222".
Proof.
  assert (Hall : parseNumbers " 40711111111 ,, 40722222222,  "
                 = ["40711111111"; "40722222222"]) by reflexivity.
  split; [exact Hall|].
  apply (forward_numbers_are_clean " 40711111111 ,, 40722222222,  " "40722222222").
  rewrite Hall. right. left. reflexivity.
Defined.

End HandlerMore.

(** ** The queue: it drains, and only handlers occupy it *)

Module QueueMore.
Import Js Webhook Queue Observe Samples Reading QueueFacts.

(** The items queued or in flight. *)
Lemma drain_backlog (queue : list QueueItem) :
  forall st,
    (List.length (messageQueue (drain queue st)) + List.length (awaiting (drain queue st))
     <= List.length queue + List.length (awaiting st))%nat.
Proof.
  induction queue as [|item rest IH]; intros st; simpl; [lia|].
  destruct (awaited item); simpl.
  - rewrite List.length_app. simpl. lia.
  - etransitivity; [apply IH|]. simpl. lia.
Qed.

Lemma resume_backlog (outcome : Settlement) (st : State) :
  consistent st ->
  (List.length (messageQueue (resume 0 outcome st))
   + List.length (awaiting (resume 0 outcome st))
   <= Nat.pred (List.length (messageQueue st) + List.length (awaiting st)))%nat.
Proof.
  intros [[(Hflag & Hnone & Hqueue)|(Hflag & item & Hitem)] _]; unfold resume.
  - rewrite Hnone. simpl. rewrite Hnone, Hqueue. simpl. lia.
  - rewrite Hitem. simpl. unfold whileLoop. simpl.
    etransitivity; [apply drain_backlog|]. simpl. lia.
Qed.

Lemma settle_all (outcomes : list Settlement) :
  forall st,
    consistent st ->
    (List.length (messageQueue st) + List.length (awaiting st) <= List.length outcomes)%nat ->
    idle (run (List.map (Settle 0) outcomes) st).
Proof.
  induction outcomes as [|outcome outcomes IH]; intros st Hst Hlen; simpl in *.
  - destruct Hst as [[Hidle|(_ & item & Hitem)] _]; [exact Hidle|].
    rewrite Hitem in Hlen. simpl in Hlen. lia.
  - apply IH.
    + apply (resume_spec 0 outcome st Hst).
    + pose proof (resume_backlog outcome st Hst). lia.
Qed.

Lemma enqueued_app (xs ys : list Event) : enqueued (xs ++ ys) = enqueued xs ++ enqueued ys.
Proof. apply List.flat_map_app. Qed.

Lemma enqueued_settles (outcomes : list Settlement) :
  enqueued (List.map (Settle 0) outcomes) = [].
Proof. induction outcomes as [|o outcomes IH]; [reflexivity | exact IH]. Qed.

Lemma run_app (xs ys : list Event) (st : State) :
  run (xs ++ ys) st = run ys (run xs st).
Proof. apply List.fold_left_app. Qed.

(** X11: the queue drains.  After any requests and settlements, once
    the handler in flight has settled as many times as there are items
    queued or in flight, however it settles, the worker is idle, the
    queue is empty, and every item ever enqueued has been processed, in
    the order of arrival. *)
Theorem queue_drains (events : list Event) (outcomes : list Settlement) :
  let st := run events initial in
  (List.length (messageQueue st) + List.length (awaiting st) <= List.length outcomes)%nat ->
  let st' := run (List.map (Settle 0) outcomes) st in
  processing st' = false
  /\ awaiting st' = []
  /\ messageQueue st' = []
  /\ settled st' = enqueued events.
Proof.
  intros st Hlen st'. subst st st'.
  destruct (run_spec events initial initial_consistent) as [Hst _].
  destruct (settle_all outcomes _ Hst Hlen) as (Hflag & Hnone & Hqueue).
  split; [exact Hflag|]. split; [exact Hnone|]. split; [exact Hqueue|].
  destruct (run_spec (events ++ List.map (Settle 0) outcomes) initial initial_consistent)
    as [[_ Hdone] Horder].
  rewrite run_app in Hdone, Horder.
  rewrite enqueued_app, enqueued_settles, app_nil_r in Horder. simpl in Horder.
  rewrite Hqueue, app_nil_r in Horder. rewrite Hnone, app_nil_r in Hdone.
  congruence.
Qed.

Lemma queue_drains_witness :
  (List.length (messageQueue (run busy_morning initial))
   + List.length (awaiting (run busy_morning initial)) <= 1)%nat
  /\ settled (run [Settle 0 (Failed unreachable "2024-01-01T00:00:00.000Z")]
                  (run busy_morning initial))
     = enqueued busy_morning.
Proof.
  assert (Hlen : (List.length (messageQueue (run busy_morning initial))
                  + List.length (awaiting (run busy_morning initial)) <= 1)%nat)
    by (vm_compute; lia).
  split; [exact Hlen|].
  exact (proj2 (proj2 (proj2 (queue_drains busy_morning
                                [Failed unreachable "2024-01-01T00:00:00.000Z"] Hlen)))).
Defined.

Lemma drain_awaited (queue : list QueueItem) :
  forall st,
    List.Forall (fun item => awaited item = true) (awaiting st) ->
    List.Forall (fun item => awaited item = true) (awaiting (drain queue st)).
Proof.
  induction queue as [|item rest IH]; intros st Hst; simpl; [exact Hst|].
  destruct (awaited item) eqn:Hitem; simpl.
  - apply List.Forall_app. split; [exact Hst | repeat constructor; exact Hitem].
  - apply IH. exact Hst.
Qed.

Lemma step_awaited (e : Event) (st : State) :
  List.Forall (fun item => awaited item = true) (awaiting st) ->
  List.Forall (fun item => awaited item = true) (awaiting (step st e)).
Proof.
  intros Hst. destruct e as [r|k outcome]; simpl.
  - unfold post. destruct (verified r); simpl; [|exact Hst].
    destruct (first_message r) as [m|]; [|exact Hst].
    unfold processQueue; simpl.
    destruct (processing st || _); [exact Hst|].
    unfold whileLoop. apply drain_awaited. exact Hst.
  - unfold resume. destruct (awaiting st !! k) as [item|] eqn:Hk; [|exact Hst].
    unfold whileLoop. apply drain_awaited. simpl.
    rewrite List.Forall_forall in *. intros x Hx. apply Hst.
    apply list_elem_of_In. apply list_elem_of_In in Hx.
    eapply list_elem_of_delete_inv. exact Hx.
Qed.

(** X12: only audio and text messages occupy the worker.  After any
    requests and settlements the item in flight, if there is one, has
    type audio or text; messages of any other type are taken off the
    queue and done with at once, so that a run of requests that carry
    only such messages leaves the worker idle with all of them
    processed. *)
Theorem other_types_never_occupy_the_worker (events : list Event) :
  let st := run events initial in
  List.Forall (fun item => awaited item = true) (awaiting st)
  /\ (List.Forall (fun item => awaited item = false) (enqueued events) ->
      processing st = false /\ awaiting st = [] /\ messageQueue st = []
      /\ settled st = enqueued events).
Proof.
  intros st.
  assert (Hinv : List.Forall (fun item => awaited item = true) (awaiting st)).
  { subst st. unfold run. rewrite <- List.fold_left_rev_right.
    induction (List.rev events) as [|e es IH]; simpl; [constructor|].
    apply step_awaited. exact IH. }
  split; [exact Hinv|]. intros Hother.
  destruct (run_spec events initial initial_consistent) as [[Hmode Hdone] Horder].
  fold st in Hmode, Hdone, Horder. simpl in Horder.
  assert (Hnone : awaiting st = []).
  { destruct (awaiting st) as [|item rest] eqn:Haw; [reflexivity|]. exfalso.
    inversion Hinv as [|? ? Hitem _]; subst.
    rewrite List.Forall_forall in Hother.
    rewrite (Hother item) in Hitem; [discriminate|].
    rewrite <- Horder, Hdone. apply List.in_or_app. left. apply List.in_or_app. right.
    left. reflexivity. }
  destruct Hmode as [(Hflag & _ & Hqueue)|(_ & item & Hitem)]; [|congruence].
  split; [exact Hflag|]. split; [exact Hnone|]. split; [exact Hqueue|].
  rewrite <- Horder, Hqueue, Hdone, Hnone, !app_nil_r. reflexivity.
Qed.

Lemma other_types_never_occupy_the_worker_witness :
  List.Forall (fun item => awaited item = false)
              (enqueued [Post (signed sticker); Post (signed sticker)])
  /\ processing (run [Post (signed sticker); Post (signed sticker)] initial) = false
  /\ settled (run [Post (signed sticker); Post (signed sticker)] initial)
     = enqueued [Post (signed sticker); Post (signed sticker)].
Proof.
  assert (Hother : List.Forall (fun item => awaited item = false)
                     (enqueued [Post (signed sticker); Post (signed sticker)]))
    by (repeat constructor).
  split; [exact Hother|].
  destruct (proj2 (other_types_never_occupy_the_worker
                     [Post (signed sticker); Post (signed sticker)]) Hother)
    as (Hidle & _ & _ & Hdone).
  split; [exact Hidle | exact Hdone].
Defined.

End QueueMore.

(** ** The webhook boundary *)

Module SignatureFacts.
Import Js Webhook Queue Signature Observe Samples Reading.

(** X13: the verification handshake of GET /webhook.  The challenge is
    echoed with status 200 exactly when hub.mode is 'subscribe' and
    hub.verify_token is the same value as WHATSAPP_VERIFY_TOKEN; every
    other request gets 403.  Two absent values are the same value: while
    the variable is unset, a subscribe request without a token is
    accepted, and any request that carries a token is refused. *)
Theorem handshake_compares_tokens (verifyToken mode token challenge : option string) :
  (fst (getWebhook verifyToken mode token challenge) = 200
   <-> mode = Some "subscribe" /\ token = verifyToken)
  /\ (fst (getWebhook verifyToken mode token challenge) = 200 ->
      snd (getWebhook verifyToken mode token challenge) = default "" challenge)
  /\ (fst (getWebhook verifyToken mode token challenge) <> 200 ->
      getWebhook verifyToken mode token challenge = (403, "Forbidden"))
  /\ getWebhook None (Some "subscribe") None challenge = (200, default "" challenge)
  /\ (forall sent, getWebhook None mode (Some sent) challenge = (403, "Forbidden")).
Proof.
  assert (Hsame : forall a b, same a b = true <-> a = b).
  { intros [x|] [y|]; simpl; split; try discriminate; try reflexivity.
    - intros H. apply String.eqb_eq in H. congruence.
    - intros [= ->]. apply String.eqb_refl. }
  assert (Hmode : strict_equal mode "subscribe" = true <-> mode = Some "subscribe").
  { destruct mode as [m|]; simpl; split; try discriminate.
    - intros H. apply String.eqb_eq in H. congruence.
    - intros [= ->]. reflexivity. }
  assert (Hok : strict_equal mode "subscribe" && same token verifyToken = true
                <-> mode = Some "subscribe" /\ token = verifyToken)
    by (rewrite andb_true_iff, Hmode, Hsame; reflexivity).
  assert (Hunset : forall sent,
             getWebhook None mode (Some sent) challenge = (403, "Forbidden"))
    by (intros sent; unfold getWebhook; destruct (strict_equal mode "subscribe");
        reflexivity).
  unfold getWebhook in *.
  destruct (strict_equal mode "subscribe" && same token verifyToken) eqn:Hb; simpl.
  - split; [split; [intros _; apply Hok; reflexivity | reflexivity]|].
    split; [reflexivity|]. split; [intros H; exfalso; apply H; reflexivity|].
    split; [reflexivity | exact Hunset].
  - split; [split; [discriminate | intros H; apply Hok in H; discriminate]|].
    split; [discriminate|]. split; [reflexivity|].
    split; [reflexivity | exact Hunset].
Qed.

Lemma handshake_compares_tokens_witness :
  fst (getWebhook None (Some "subscribe") None (Some "1158201444")) = 200
  /\ snd (getWebhook None (Some "subscribe") None (Some "1158201444")) = "1158201444".
Proof.
  assert (Hok : fst (getWebhook None (Some "subscribe") None (Some "1158201444")) = 200)
    by reflexivity.
  split; [exact Hok|].
  exact (proj1 (proj2 (handshake_compares_tokens None (Some "subscribe") None
                          (Some "1158201444"))) Hok).
Defined.

(** What the signature check makes of a header when a secret is set. *)
Lemma verifySignature_spec (hmac : string -> string -> string)
    (secret : string) (signature : option string) (body : string) :
  secret <> "" ->
  let expected := "sha256=" +:+ hmac secret body in
  (signature = Some expected ->
   verifySignature hmac (Some secret) signature body = Returned true)
  /\ (signature <> Some expected ->
      verifySignature hmac (Some secret) signature body = Returned false
      \/ exists e, verifySignature hmac (Some secret) signature body = Threw e).
Proof.
  intros Hsecret expected. unfold verifySignature, or_string, truthy_string.
  destruct (String.eqb_spec secret ""); [contradiction|]. cbn [negb]. fold expected.
  assert (Hexp : expected <> "") by (unfold expected; discriminate).
  split.
  - intros ->. destruct (String.eqb_spec expected ""); [contradiction|]. cbn [negb].
    rewrite Nat.eqb_refl, String.eqb_refl. reflexivity.
  - intros Hne. destruct signature as [given|]; [|left; reflexivity].
    destruct (String.eqb_spec given ""); cbn [negb]; [left; reflexivity|].
    destruct (Nat.eqb (String.length given) (String.length expected));
      [|right; eexists; reflexivity].
    destruct (String.eqb_spec given expected); [congruence | left; reflexivity].
Qed.

(** X14: the signature gate of POST /webhook.  With a secret configured,
    a request is answered 200 and its message enqueued exactly when its
    signature header is sha256= followed by the HMAC of the body; any
    other request, with a wrong header or with none, leaves the queue
    exactly as it was and is answered 403, or 500 when the header has
    another length than a signature.  Without a secret every request is
    answered 200 and its message enqueued. *)
Theorem unsigned_requests_never_reach_the_queue (hmac : string -> string -> string)
    (appSecret signature : option string) (body : string)
    (first_message : option Message) (profile_name : option string) (st : State) :
  let accepted :=
    post {| verified := true; first_message := first_message;
            profile_name := profile_name |} st in
  let answer := postWebhook hmac appSecret signature body first_message profile_name st in
  (forall secret,
      appSecret = Some secret -> secret <> "" ->
      let expected := "sha256=" +:+ hmac secret body in
      (signature = Some expected -> answer = (200, accepted))
      /\ (signature <> Some expected ->
          snd answer = st /\ (fst answer = 403 \/ fst answer = 500))
      /\ (fst answer = 500 <->
          exists given, signature = Some given /\ given <> ""
                        /\ String.length given <> String.length expected))
  /\ (appSecret = None \/ appSecret = Some "" -> answer = (200, accepted)).
Proof.
  intros accepted answer. subst accepted answer. split.
  - intros secret -> Hsecret expected.
    destruct (verifySignature_spec hmac secret signature body Hsecret) as [Hyes Hno].
    fold expected in Hyes, Hno. unfold postWebhook.
    split; [intros Hsig; rewrite (Hyes Hsig); reflexivity|]. split.
    + intros Hsig. destruct (Hno Hsig) as [->|[e ->]]; simpl; auto.
    + unfold verifySignature, or_string, truthy_string.
      destruct (String.eqb_spec secret ""); [contradiction|]. cbn [negb]. fold expected.
      destruct signature as [given|];
        [|cbn [fst]; split; [discriminate | intros (g & Hg & _); discriminate]].
      destruct (String.eqb_spec given ""); cbn [negb].
      * cbn [fst]. split; [discriminate|]. intros (g & [= <-] & Hg & _). contradiction.
      * destruct (Nat.eqb_spec (String.length given) (String.length expected)); cbn [fst].
        -- split; [destruct (String.eqb given expected); discriminate|].
           intros (g & [= <-] & _ & Hlen). contradiction.
        -- split; [eauto | reflexivity].
  - intros [->| ->]; reflexivity.
Qed.

Lemma unsigned_requests_never_reach_the_queue_witness :
  "app-secret" <> ""
  /\ Some "sha256=forged" <> Some ("sha256=" +:+ Cases.zeros "app-secret" "{}")
  /\ snd (postWebhook Cases.zeros (Some "app-secret") (Some "sha256=forged") "{}"
                      (Some (voice_note None)) (Some "Anna") initial)
     = initial.
Proof.
  assert (Hsecret : "app-secret" <> "") by discriminate.
  assert (Hforged : Some "sha256=forged"
                    <> Some ("sha256=" +:+ Cases.zeros "app-secret" "{}")) by discriminate.
  split; [exact Hsecret|]. split; [exact Hforged|].
  destruct (unsigned_requests_never_reach_the_queue Cases.zeros (Some "app-secret")
              (Some "sha256=forged") "{}" (Some (voice_note None)) (Some "Anna") initial)
    as [Hgate _].
  destruct (Hgate "app-secret" eq_refl Hsecret) as (_ & Hno & _).
  exact (proj1 (Hno Hforged)).
Defined.

End SignatureFacts.

(** ** The store: keys, round trips and restart *)

Module StoreMore.
Import Js Storage Startup Api Observe Samples Reading StoreFacts ApiFacts.

Lemma ids_insertRow (now : string) (t : NewTranscription) (d : Database) :
  ids (insertRow now t d) = ids d ++ [sequence d + 1].
Proof. unfold ids, insertRow. simpl. rewrite List.map_app. reflexivity. Qed.

Lemma setText_id (id : Z) (newText : string) (r : Row) :
  row_id (setText id newText r) = row_id r.
Proof. unfold setText. destruct (row_id r =? id); reflexivity. Qed.

Lemma NoDup_filter_map (keep : Row -> bool) (rows : list Row) :
  List.NoDup (List.map row_id rows) ->
  List.NoDup (List.map row_id (List.filter keep rows)).
Proof.
  induction rows as [|r rows IH]; simpl; [auto|]. intros Hnd.
  inversion Hnd as [|? ? Hnotin Hrest]; subst.
  destruct (keep r); simpl; [|auto]. constructor; [|auto].
  intros Hin. apply Hnotin. apply List.in_map_iff in Hin as (x & Hx & Hin).
  apply List.filter_In in Hin as [Hin _]. apply List.in_map_iff. eauto.
Qed.

Lemma Forall_filter_map (P : Z -> Prop) (keep : Row -> bool) (rows : list Row) :
  List.Forall P (List.map row_id rows) ->
  List.Forall P (List.map row_id (List.filter keep rows)).
Proof.
  rewrite !List.Forall_forall. intros H x Hin. apply H.
  apply List.in_map_iff in Hin as (r & Hr & Hin).
  apply List.filter_In in Hin as [Hin _]. apply List.in_map_iff. eauto.
Qed.

(** One call keeps the ids distinct and never lowers the counter. *)
Lemma perform_well_keyed (m : Mutation) (s : Store) :
  well_keyed (db s) ->
  well_keyed (db (perform m s)) /\ sequence (db s) <= sequence (db (perform m s)).
Proof.
  intros [Hnd Hle]. destruct m as [now rowid t|id newText|id| |key value]; simpl.
  - split; [|lia]. split.
    + rewrite ids_insertRow.
      apply List.NoDup_app; [exact Hnd | repeat constructor; simpl; tauto |].
      intros x Hx [<-|[]]. rewrite List.Forall_forall in Hle.
      specialize (Hle _ Hx). lia.
    + rewrite ids_insertRow. apply List.Forall_app. split.
      * eapply List.Forall_impl; [|exact Hle]. simpl. intros; lia.
      * repeat constructor. simpl. lia.
  - unfold updateTranscription. destruct (countById id (db s) =? 0); simpl;
      [split; [split; assumption | lia]|].
    split; [|lia]. unfold well_keyed, ids; simpl.
    rewrite List.map_map.
    rewrite (List.map_ext _ row_id (setText_id id newText)). split; assumption.
  - unfold deleteTranscription. destruct (countById id (db s) >? 0); simpl;
      [|split; [split; assumption | lia]].
    split; [|lia]. split; [apply NoDup_filter_map | apply Forall_filter_map]; assumption.
  - split; [|lia]. split; constructor.
  - split; [|lia]. split; assumption.
Qed.

(** X15: record ids.  From a store whose ids are distinct and at most
    the AUTOINCREMENT counter, any sequence of store calls leads to such
    a store again, and the counter never goes down; so the id given to
    the next record, counter + 1, is larger than the id of every record
    stored then or at any time before, deleted ones included. *)
Theorem ids_are_distinct_and_never_reused (calls : list Mutation) (s : Store) :
  well_keyed (db s) ->
  let s' := performAll calls s in
  well_keyed (db s')
  /\ sequence (db s) <= sequence (db s')
  /\ (forall id, List.In id (ids (db s)) \/ List.In id (ids (db s')) ->
                 id < sequence (db s') + 1)
  /\ (forall now rowid t,
         ids (db (perform (Create now rowid t) s')) = ids (db s') ++ [sequence (db s') + 1]).
Proof.
  revert s. induction calls as [|m calls IH]; intros s Hs; simpl.
  - split; [exact Hs|]. split; [lia|]. split; [|intros; apply ids_insertRow].
    intros id [Hin|Hin]; destruct Hs as [_ Hle]; rewrite List.Forall_forall in Hle;
      specialize (Hle _ Hin); lia.
  - destruct (perform_well_keyed m s Hs) as [Hs1 Hle1].
    destruct (IH (perform m s) Hs1) as (Hs' & Hle' & Hfresh & Hnext).
    split; [exact Hs'|]. split; [lia|]. split; [|exact Hnext].
    intros id [Hin|Hin]; [|apply Hfresh; auto].
    destruct Hs as [_ Hle]. rewrite List.Forall_forall in Hle. specialize (Hle _ Hin). lia.
Qed.

Lemma ids_are_distinct_and_never_reused_witness :
  well_keyed (db fresh_store)
  /\ ids (db (performAll [Create "2024-01-01 10:00:00" 1 Cases.a_note; DeleteAll;
                          Create "2024-01-01 10:05:00" 2 Cases.a_note] fresh_store))
     = [2].
Proof.
  assert (Hs : well_keyed (db fresh_store)) by (split; constructor).
  split; [exact Hs|].
  destruct (ids_are_distinct_and_never_reused
              [Create "2024-01-01 10:00:00" 1 Cases.a_note; DeleteAll] fresh_store Hs)
    as (_ & _ & _ & Hnext).
  exact (Hnext "2024-01-01 10:05:00" 2 Cases.a_note).
Defined.

Lemma find_other (id id' : Z) (rows extra : list Row) :
  List.Forall (fun r => row_id r <> id') extra ->
  List.find (fun r => row_id r =? id') (rows ++ extra)
  = List.find (fun r => row_id r =? id') rows.
Proof.
  intros Hextra. induction rows as [|r rows IH]; simpl.
  - induction extra as [|x extra IHx]; [reflexivity|]. simpl.
    inversion Hextra as [|? ? Hx Hrest]; subst.
    destruct (Z.eqb_spec (row_id x) id'); [contradiction | auto].
  - destruct (row_id r =? id'); [reflexivity | exact IH].
Qed.

Lemma find_absent (id : Z) (rows : list Row) :
  ~ List.In id (List.map row_id rows) ->
  List.find (fun r => row_id r =? id) rows = None.
Proof.
  induction rows as [|r rows IH]; simpl; [reflexivity|]. intros Hnotin.
  destruct (Z.eqb_spec (row_id r) id); [tauto|]. apply IH. tauto.
Qed.

Lemma find_after (id : Z) (rows extra : list Row) :
  ~ List.In id (List.map row_id rows) ->
  List.find (fun r => row_id r =? id) (rows ++ extra)
  = List.find (fun r => row_id r =? id) extra.
Proof.
  induction rows as [|r rows IH]; simpl; [reflexivity|]. intros Hnotin.
  destruct (Z.eqb_spec (row_id r) id); [tauto|]. apply IH. tauto.
Qed.

Lemma saved_row (now : string) (rowid : Z) (t : NewTranscription) (s : Store) :
  well_keyed (db s) ->
  getTranscription (sequence (db s) + 1) s = None
  /\ getTranscription (sequence (db s) + 1) (saved_store (saveTranscription now rowid t s))
     = Some (row_of (sequence (db s) + 1) now t).
Proof.
  intros [Hnd Hle].
  assert (Hfresh : ~ List.In (sequence (db s) + 1) (List.map row_id (transcriptions (db s)))).
  { intros Hin. rewrite List.Forall_forall in Hle. specialize (Hle _ Hin). lia. }
  split; [apply find_absent; exact Hfresh|].
  unfold getTranscription, saveTranscription, insertRow. simpl.
  rewrite find_after by exact Hfresh. simpl.
  rewrite Z.eqb_refl. reflexivity.
Qed.

(** X16: saving and reading back.  In a store whose ids are distinct
    and at most the counter, [saveTranscription] stores its argument
    under the id counter + 1: reading that id afterwards gives a row with
    exactly the fields handed in and the creation time of the call, every
    other id reads as before, and the settings are untouched.  The call
    returns the row id it is told by the database, and emits the record
    stored under it. *)
Theorem saved_record_reads_back (now : string) (rowid : Z) (t : NewTranscription)
    (s : Store) :
  well_keyed (db s) ->
  let saved := saveTranscription now rowid t s in
  let id := sequence (db s) + 1 in
  getTranscription id (saved_store saved) = Some (row_of id now t)
  /\ getTranscription id s = None
  /\ (forall other, other <> id ->
                    getTranscription other (saved_store saved) = getTranscription other s)
  /\ settings (db (saved_store saved)) = settings (db s)
  /\ saved_id saved = rowid
  /\ emitted saved = getTranscription rowid (saved_store saved)
  /\ (rowid = id -> emitted saved = Some (row_of id now t)).
Proof.
  intros Hkeyed saved id. subst saved id.
  destruct (saved_row now rowid t s Hkeyed) as [Hfresh Hnew].
  split; [exact Hnew|]. split; [exact Hfresh|].
  split; [|split; [reflexivity|split; [reflexivity|split; [reflexivity|]]]].
  - intros other Hother. unfold getTranscription, saveTranscription, insertRow. simpl.
    apply (find_other other). repeat constructor. simpl. congruence.
  - intros ->. exact Hnew.
Qed.

Lemma saved_record_reads_back_witness :
  well_keyed (db fresh_store)
  /\ getTranscription 1 (saved_store (saveTranscription "2024-01-01 10:00:00" 1
                                                         Cases.a_note fresh_store))
     = Some (row_of 1 "2024-01-01 10:00:00" Cases.a_note).
Proof.
  assert (Hs : well_keyed (db fresh_store)) by (split; constructor).
  split; [exact Hs|].
  exact (proj1 (saved_record_reads_back "2024-01-01 10:00:00" 1 Cases.a_note fresh_store Hs)).
Defined.

Lemma find_setText_same (id : Z) (newText : string) (rows : list Row) :
  List.find (fun r => row_id r =? id) (List.map (setText id newText) rows)
  = setText id newText <$> List.find (fun r => row_id r =? id) rows.
Proof.
  induction rows as [|r rows IH]; simpl; [reflexivity|].
  rewrite setText_id. destruct (row_id r =? id); [reflexivity | exact IH].
Qed.

Lemma find_setText_other (id other : Z) (newText : string) (rows : list Row) :
  other <> id ->
  List.find (fun r => row_id r =? other) (List.map (setText id newText) rows)
  = List.find (fun r => row_id r =? other) rows.
Proof.
  intros Hother. induction rows as [|r rows IH]; simpl; [reflexivity|].
  rewrite setText_id. destruct (Z.eqb_spec (row_id r) other) as [Heq|_]; [|exact IH].
  unfold setText. destruct (Z.eqb_spec (row_id r) id); [congruence | reflexivity].
Qed.

Lemma countById_zero (id : Z) (s : Store) :
  countById id (db s) = 0 <-> getTranscription id s = None.
Proof.
  unfold countById, getTranscription.
  induction (transcriptions (db s)) as [|r rows IH]; simpl; [tauto|].
  destruct (row_id r =? id); simpl; [split; [lia | discriminate]|]. exact IH.
Qed.

(** X17: editing a text.  [updateTranscription] on an id that is not
    stored answers false and leaves the store, and what is on disk, as
    they were.  On a stored id it answers true; the row then reads as
    before but for its text, which is the new one; every other id reads
    as before; ids, settings and the counter are unchanged. *)
Theorem update_changes_one_text (id : Z) (newText : string) (s : Store) :
  (getTranscription id s = None ->
   updateTranscription id newText s = (s, false))
  /\ (forall r,
         getTranscription id s = Some r ->
         let s' := fst (updateTranscription id newText s) in
         snd (updateTranscription id newText s) = true
         /\ getTranscription id s' = Some (setText id newText r)
         /\ row_transcription (setText id newText r) = newText
         /\ (forall other, other <> id -> getTranscription other s' = getTranscription other s)
         /\ ids (db s') = ids (db s)
         /\ settings (db s') = settings (db s)
         /\ sequence (db s') = sequence (db s)).
Proof.
  split.
  - intros Hnone. unfold updateTranscription.
    rewrite (proj2 (countById_zero id s) Hnone). reflexivity.
  - intros r Hr s'. subst s'. unfold updateTranscription.
    destruct (Z.eqb_spec (countById id (db s)) 0) as [Hzero|_].
    { apply countById_zero in Hzero. congruence. }
    simpl. split; [reflexivity|]. split.
    + unfold getTranscription in *. simpl. rewrite find_setText_same, Hr. reflexivity.
    + split.
      * unfold setText. apply List.find_some in Hr as [_ Hid]. rewrite Hid. reflexivity.
      * split; [intros other Hother; apply find_setText_other; exact Hother|].
        split; [|split; reflexivity].
        unfold ids. simpl. rewrite List.map_map.
        apply List.map_ext. intros x. apply setText_id.
Qed.

Lemma update_changes_one_text_witness :
  getTranscription 7 fresh_store = None
  /\ updateTranscription 7 "Szia!" fresh_store = (fresh_store, false)
  /\ getTranscription 1 Cases.one_note
     = Some (row_of 1 "2024-01-01 10:00:00" Cases.a_note)
  /\ (row_transcription <$>
        getTranscription 1 (fst (updateTranscription 1 "Szia!" Cases.one_note)))
     = Some "Szia!".
Proof.
  assert (Hnone : getTranscription 7 fresh_store = None) by reflexivity.
  assert (Hsome : getTranscription 1 Cases.one_note
                  = Some (row_of 1 "2024-01-01 10:00:00" Cases.a_note)) by reflexivity.
  split; [exact Hnone|].
  split; [exact (proj1 (update_changes_one_text 7 "Szia!" fresh_store) Hnone)|].
  split; [exact Hsome|].
  destruct (proj2 (update_changes_one_text 1 "Szia!" Cases.one_note) _ Hsome)
    as (_ & Hread & Htext & _).
  rewrite Hread. exact (f_equal Some Htext).
Defined.

Lemma find_filter_same (id : Z) (rows : list Row) :
  List.find (fun r => row_id r =? id) (List.filter (fun r => negb (row_id r =? id)) rows)
  = None.
Proof.
  induction rows as [|r rows IH]; simpl; [reflexivity|].
  destruct (row_id r =? id) eqn:Hid; simpl; [exact IH|]. rewrite Hid. exact IH.
Qed.

Lemma find_filter_other (id other : Z) (rows : list Row) :
  other <> id ->
  List.find (fun r => row_id r =? other)
            (List.filter (fun r => negb (row_id r =? id)) rows)
  = List.find (fun r => row_id r =? other) rows.
Proof.
  intros Hother. induction rows as [|r rows IH]; simpl; [reflexivity|].
  destruct (Z.eqb_spec (row_id r) id) as [Hid|Hid]; simpl.
  - destruct (Z.eqb_spec (row_id r) other); [congruence | exact IH].
  - destruct (row_id r =? other); [reflexivity | exact IH].
Qed.

(** X18: deleting.  [deleteTranscription] on an id that is not stored
    answers false and leaves the store, and what is on disk, as they
    were.  On a stored id it answers true; afterwards the id reads as
    absent, every other id reads as before, and deleting the same id once
    more answers false and changes nothing. *)
Theorem delete_removes_one_record (id : Z) (s : Store) :
  (getTranscription id s = None ->
   deleteTranscription id s = (s, false))
  /\ (forall r,
         getTranscription id s = Some r ->
         let s' := fst (deleteTranscription id s) in
         snd (deleteTranscription id s) = true
         /\ getTranscription id s' = None
         /\ (forall other, other <> id -> getTranscription other s' = getTranscription other s)
         /\ deleteTranscription id s' = (s', false)
         /\ settings (db s') = settings (db s)
         /\ sequence (db s') = sequence (db s)).
Proof.
  assert (Habsent : forall st, getTranscription id st = None ->
                               deleteTranscription id st = (st, false)).
  { intros st Hnone. unfold deleteTranscription.
    rewrite (proj2 (countById_zero id st) Hnone). reflexivity. }
  split; [apply Habsent|].
  intros r Hr s'. subst s'.
  set (s1 := persist (with_db
                {| transcriptions :=
                     List.filter (fun r => negb (row_id r =? id)) (transcriptions (db s));
                   settings := settings (db s);
                   sequence := sequence (db s) |} s)).
  assert (Hrun : deleteTranscription id s = (s1, true)).
  { unfold deleteTranscription.
    destruct (Z.gtb_spec (countById id (db s)) 0) as [_|Hle]; [reflexivity|].
    exfalso. assert (Hzero : countById id (db s) = 0) by (unfold countById in *; lia).
    apply countById_zero in Hzero. congruence. }
  rewrite Hrun. cbn [fst snd].
  assert (Hgone : getTranscription id s1 = None) by apply find_filter_same.
  split; [reflexivity|]. split; [exact Hgone|].
  split; [intros other Hother; apply find_filter_other; exact Hother|].
  split; [apply Habsent; exact Hgone|]. split; reflexivity.
Qed.

Lemma delete_removes_one_record_witness :
  getTranscription 7 fresh_store = None
  /\ deleteTranscription 7 fresh_store = (fresh_store, false)
  /\ getTranscription 1 Cases.one_note
     = Some (row_of 1 "2024-01-01 10:00:00" Cases.a_note)
  /\ getTranscription 1 (fst (deleteTranscription 1 Cases.one_note)) = None.
Proof.
  assert (Hnone : getTranscription 7 fresh_store = None) by reflexivity.
  assert (Hsome : getTranscription 1 Cases.one_note
                  = Some (row_of 1 "2024-01-01 10:00:00" Cases.a_note)) by reflexivity.
  split; [exact Hnone|].
  split; [exact (proj1 (delete_removes_one_record 7 fresh_store) Hnone)|].
  split; [exact Hsome|].
  exact (proj1 (proj2 (proj2 (delete_removes_one_record 1 Cases.one_note) _ Hsome))).
Defined.


Lemma seed_present (d : Database) (entry : string * string) (key : string) :
  is_Some (settings d !! key) -> is_Some (settings (seed d entry) !! key).
Proof.
  intros Hkey. unfold seed. destruct (settings d !! fst entry) eqn:Hentry; [exact Hkey|].
  simpl. destruct (decide (fst entry = key)) as [->|Hne].
  - rewrite lookup_insert_eq. eauto.
  - rewrite lookup_insert_ne by exact Hne. exact Hkey.
Qed.

Lemma seed_lookup (d : Database) (entry : string * string) (key : string) :
  settings (seed d entry) !! key
  = match settings d !! key with
    | Some v => Some v
    | None => if String.eqb (fst entry) key then Some (snd entry) else None
    end.
Proof.
  unfold seed. destruct (String.eqb_spec (fst entry) key) as [->|Hne].
  - destruct (settings d !! key) eqn:Hkey; [exact Hkey|]. simpl. apply lookup_insert_eq.
  - destruct (settings d !! fst entry) eqn:Hentry.
    + destruct (settings d !! key); reflexivity.
    + simpl. rewrite lookup_insert_ne by exact Hne.
      destruct (settings d !! key); reflexivity.
Qed.

Lemma seed_rows (d : Database) (entry : string * string) :
  transcriptions (seed d entry) = transcriptions d /\ sequence (seed d entry) = sequence d.
Proof. unfold seed. destruct (settings d !! fst entry); split; reflexivity. Qed.

Lemma seeding_seeds (d : Database) : seeded (List.fold_left seed defaults d).
Proof.
  unfold seeded, defaults. cbn [List.fold_left]. rewrite !seed_lookup. cbn [fst snd].
  change (String.eqb "auto_reply" "auto_reply") with true.
  change (String.eqb "default_language" "default_language") with true.
  change (String.eqb "default_language" "auto_reply") with false.
  change (String.eqb "auto_reply" "default_language") with false.
  split.
  - destruct (settings d !! "auto_reply"); eauto.
  - destruct (settings d !! "default_language"); eauto.
Qed.

Lemma seeding_skips (d : Database) : seeded d -> List.fold_left seed defaults d = d.
Proof.
  intros [[a Ha] [l Hl]]. unfold defaults. cbn [List.fold_left].
  unfold seed at 2. cbn [fst snd]. rewrite Ha.
  unfold seed. cbn [fst snd]. rewrite Hl. reflexivity.
Qed.

Lemma perform_seeded (m : Mutation) (s : Store) : seeded (db s) -> seeded (db (perform m s)).
Proof.
  intros Hs. destruct m as [now rowid t|id newText|id| |key value]; simpl.
  - exact Hs.
  - unfold updateTranscription. destruct (countById id (db s) =? 0); exact Hs.
  - unfold deleteTranscription. destruct (countById id (db s) >? 0); exact Hs.
  - exact Hs.
  - destruct Hs as [Ha Hl]. unfold seeded. simpl. split.
    + destruct (decide (key = "auto_reply")) as [->|Hne];
        [rewrite lookup_insert_eq; eauto | rewrite lookup_insert_ne by exact Hne; exact Ha].
    + destruct (decide (key = "default_language")) as [->|Hne];
        [rewrite lookup_insert_eq; eauto | rewrite lookup_insert_ne by exact Hne; exact Hl].
Qed.

Lemma performAll_snoc (calls : list Mutation) (m : Mutation) (s : Store) :
  performAll (calls ++ [m]) s = perform m (performAll calls s).
Proof. unfold performAll. rewrite List.fold_left_app. reflexivity. Qed.

Lemma performAll_durable (calls : list Mutation) (s : Store) :
  seeded (db s) -> file s = Some (db s) ->
  seeded (db (performAll calls s)) /\ file (performAll calls s) = Some (db (performAll calls s)).
Proof.
  intros Hseeded Hfile. induction calls as [|m calls IH] using List.rev_ind.
  - split; assumption.
  - rewrite performAll_snoc. destruct IH as [IHseeded IHfile].
    split; [apply perform_seeded; exact IHseeded|].
    destruct (perform_writes_or_skips m (performAll calls s)) as [Hwritten|Hsame].
    + unfold file. rewrite Hwritten. reflexivity.
    + rewrite Hsame. exact IHfile.
Qed.

(** X19: restarting.  After start-up and any sequence of calls of the
    store, the file holds the database as it is in memory, and a start-up
    from that file opens exactly this database: the same records, the
    same settings, the same id counter.  It writes the file back
    unchanged. *)
Theorem restart_restores_the_database (onDisk : option Database) (calls : list Mutation) :
  let s := performAll calls (initDatabase onDisk) in
  file s = Some (db s)
  /\ db (initDatabase (file s)) = db s
  /\ file (initDatabase (file s)) = Some (db s).
Proof.
  intros s.
  destruct (performAll_durable calls (initDatabase onDisk)) as [Hseeded Hfile].
  { apply seeding_seeds. }
  { reflexivity. }
  fold s in Hseeded, Hfile.
  assert (Hdb : db (initDatabase (file s)) = db s).
  { rewrite Hfile. unfold initDatabase. cbn [db persist default].
    apply seeding_skips. exact Hseeded. }
  split; [exact Hfile|]. split; [exact Hdb|].
  change (file (initDatabase (file s))) with (Some (db (initDatabase (file s)))).
  rewrite Hdb. reflexivity.
Qed.

(** X20: the default settings.  Start-up keeps every setting found in the
    file and adds auto_reply = true and default_language = auto where the
    key has no row; afterwards both keys have a value.  Records and the
    id counter are those of the file, or none and zero when there is no
    file, and the file is written. *)
Theorem startup_supplies_missing_defaults (onDisk : option Database) :
  let before := default empty_database onDisk in
  let s := initDatabase onDisk in
  getSetting "auto_reply" s = Some (default "true" (settings before !! "auto_reply"))
  /\ getSetting "default_language" s
     = Some (default "auto" (settings before !! "default_language"))
  /\ (forall key value, settings before !! key = Some value -> getSetting key s = Some value)
  /\ (forall key, key <> "auto_reply" -> key <> "default_language" ->
                  getSetting key s = settings before !! key)
  /\ transcriptions (db s) = transcriptions before
  /\ sequence (db s) = sequence before
  /\ file s = Some (db s)
  /\ (onDisk = None ->
      transcriptions (db s) = [] /\ sequence (db s) = 0
      /\ getSetting "auto_reply" s = Some "true"
      /\ getSetting "default_language" s = Some "auto").
Proof.
  intros before s.
  assert (Hlookup : forall key,
             getSetting key s
             = match settings before !! key with
               | Some v => Some v
               | None => if String.eqb "auto_reply" key then Some "true"
                         else if String.eqb "default_language" key then Some "auto"
                         else None
               end).
  { intros key. unfold getSetting, s, initDatabase, defaults.
    cbn [db persist List.fold_left]. fold before. rewrite !seed_lookup. cbn [fst snd].
    destruct (settings before !! key); [reflexivity|].
    destruct (String.eqb "auto_reply" key); reflexivity. }
  assert (Hauto : getSetting "auto_reply" s
                  = Some (default "true" (settings before !! "auto_reply"))).
  { rewrite Hlookup. destruct (settings before !! "auto_reply"); reflexivity. }
  assert (Hlang : getSetting "default_language" s
                  = Some (default "auto" (settings before !! "default_language"))).
  { rewrite Hlookup. destruct (settings before !! "default_language"); reflexivity. }
  split; [exact Hauto|]. split; [exact Hlang|]. split.
  { intros key value Hkey. rewrite Hlookup, Hkey. reflexivity. }
  split.
  { intros key Hne1 Hne2. rewrite Hlookup.
    destruct (settings before !! key); [reflexivity|].
    destruct (String.eqb_spec "auto_reply" key); [congruence|].
    destruct (String.eqb_spec "default_language" key); [congruence|]. reflexivity. }
  assert (Hrows : transcriptions (db s) = transcriptions before
                  /\ sequence (db s) = sequence before).
  { unfold s, initDatabase, defaults. cbn [db persist List.fold_left]. fold before.
    destruct (seed_rows (seed before ("auto_reply", "true")) ("default_language", "auto"))
      as [H1 H2].
    destruct (seed_rows before ("auto_reply", "true")) as [H3 H4].
    split; congruence. }
  destruct Hrows as [Hrows Hseq].
  split; [exact Hrows|]. split; [exact Hseq|]. split; [reflexivity|].
  intros Hnone. subst onDisk.
  split; [exact Hrows|]. split; [exact Hseq|]. split; [exact Hauto | exact Hlang].
Qed.

Lemma startup_supplies_missing_defaults_witness :
  (@None Database = None)
  /\ getSetting "auto_reply" (initDatabase None) = Some "true"
  /\ getSetting "auto_reply"
       (initDatabase (Some (db (setSetting "auto_reply" (VBoolean false) fresh_store))))
     = Some "false".
Proof.
  split; [reflexivity|]. split.
  - destruct (startup_supplies_missing_defaults None)
      as (_ & _ & _ & _ & _ & _ & _ & Hfirst).
    exact (proj1 (proj2 (proj2 (Hfirst eq_refl)))).
  - apply (proj1 (proj2 (proj2 (startup_supplies_missing_defaults
             (Some (db (setSetting "auto_reply" (VBoolean false) fresh_store))))))).
    reflexivity.
Defined.

End StoreMore.

(* ------------------------------------------------------------------ *)
(** ** The settings routes *)
(* ------------------------------------------------------------------ *)

Module SettingsFacts.
Import Js Storage Startup Api Webhook Observe Samples Reading ApiFacts QueueFacts.

Lemma decimal_not_true (z : Z) : decimal z <> "true".
Proof.
  unfold decimal. destruct (Z.to_int z) as [d|d]; [|discriminate].
  destruct d; discriminate.
Qed.

Lemma comma_is_not_true (a b : string) :
  String.eqb (a +:+ "," +:+ b) "true" = false.
Proof.
  destruct (String.eqb_spec (a +:+ "," +:+ b) "true") as [Heq|]; [|reflexivity].
  apply (f_equal (lacks ",")) in Heq. rewrite lacks_append in Heq.
  change (lacks "," ("," +:+ b)) with false in Heq. rewrite andb_false_r in Heq.
  discriminate Heq.
Qed.

(** The values whose text is true. *)
Lemma String_of_true : forall v : Value, String.eqb (String_of v) "true" = switches_on v.
Proof.
  fix IH 1. intros [|[|]|z|text|items|]; try reflexivity.
  - change (String.eqb (decimal z) "true" = false).
    apply String.eqb_neq, decimal_not_true.
  - destruct items as [|item [|next rest]]; [reflexivity| |].
    + change (String.eqb (match item with VNull => EmptyString | _ => String_of item end)
                         "true" = switches_on item).
      pose proof (IH item) as Hitem. destruct item; exact Hitem.
    + change (String_of (VArray (item :: next :: rest)))
        with ((match item with VNull => EmptyString | _ => String_of item end)
                +:+ "," +:+ String_of (VArray (next :: rest))).
      apply comma_is_not_true.
Qed.

Lemma patchSettings_lookup (key : string) (body : list (string * Value)) :
  is_allowed key = true ->
  forall s,
    getSetting key (patchSettings body s)
    = match last_value key body with
      | Some v => Some (String_of v)
      | None => getSetting key s
      end.
Proof.
  intros Hkey. induction body as [|entry body IH]; intros s; [reflexivity|].
  rewrite patchSettings_cons, IH. cbn [last_value].
  destruct (last_value key body); [reflexivity|].
  destruct (String.eqb_spec (fst entry) key) as [Heq|Hne].
  - rewrite Heq, Hkey. unfold getSetting, setSetting; simpl. apply lookup_insert_eq.
  - destruct (is_allowed (fst entry)); [|reflexivity].
    unfold getSetting, setSetting; simpl. apply lookup_insert_ne. exact Hne.
Qed.

(** X21: switching the auto reply.  After a settings update whose last
    auto_reply entry is [v], a value that [String] can print, the stored
    value is the text of [v].  A handler that reads this store replies to
    the sender, right after the save, exactly when that text is true:
    when [v] is the boolean true, the string true, or an array whose
    only element is such a value, as in ["true"] or [[true]].  For any
    other value (false, null, 1, yes, an empty or longer array, an
    object) it saves and goes on to forwarding without a reply. *)
Theorem patched_auto_reply_switches_the_reply (body : list (string * Value)) (s : Store)
    (v : Value) (w : World) (a : Audio) (senderPhone senderName : string)
    (timestamp : Z) (t : Whisper.TranscriptionResult) :
  last_value "auto_reply" body = Some v ->
  safe v = true ->
  auto_reply w = getSetting "auto_reply" (patchSettings body s) ->
  let effects := fst (saveAndNotify w a senderPhone senderName timestamp t) in
  getSetting "auto_reply" (patchSettings body s) = Some (String_of v)
  /\ (String_of v = "true" <-> switches_on v = true)
  /\ (switches_on v = true ->
      exists saved rest,
        effects = Save saved :: SendMessage senderPhone (replyText t) :: rest)
  /\ (switches_on v = false ->
      exists saved,
        saveAndNotify w a senderPhone senderName timestamp t
        = (Save saved :: forward w t senderName senderPhone, Returned tt)).
Proof.
  intros Hlast _ Hreads effects.
  assert (Hstored : getSetting "auto_reply" (patchSettings body s) = Some (String_of v)).
  { rewrite (patchSettings_lookup "auto_reply" body eq_refl), Hlast. reflexivity. }
  split; [exact Hstored|]. split.
  { rewrite <- String_of_true. symmetry. apply String.eqb_eq. }
  rewrite Hstored in Hreads. subst effects. unfold saveAndNotify. rewrite Hreads.
  unfold strict_equal. rewrite String_of_true. split; intros ->.
  - destruct (reply_delivery w); simpl; eauto.
  - eauto.
Qed.

Lemma patched_auto_reply_switches_the_reply_witness :
  last_value "auto_reply" [("auto_reply", VArray [VString "true"])]
  = Some (VArray [VString "true"])
  /\ safe (VArray [VString "true"]) = true
  /\ switches_on (VArray [VString "true"]) = true
  /\ getSetting "auto_reply"
       (patchSettings [("auto_reply", VArray [VString "true"])] fresh_store) = Some "true"
  /\ (exists saved rest,
         fst (saveAndNotify (forwarding (transcript None)) (voice_audio None) "40712345678" "Anna" 1700000000000
                            Cases.a_result)
         = Save saved :: SendMessage "40712345678" (replyText Cases.a_result) :: rest)
  /\ last_value "auto_reply" [("auto_reply", VNumber 1)] = Some (VNumber 1)
  /\ safe (VNumber 1) = true
  /\ switches_on (VNumber 1) = false
  /\ exists saved,
       saveAndNotify Cases.numbered (voice_audio None) "40712345678" "Anna" 1700000000000
                     Cases.a_result
       = (Save saved :: forward Cases.numbered Cases.a_result "Anna" "40712345678",
          Returned tt).
Proof.
  assert (Hon : last_value "auto_reply" [("auto_reply", VArray [VString "true"])]
                = Some (VArray [VString "true"])) by reflexivity.
  assert (Hoff : last_value "auto_reply" [("auto_reply", VNumber 1)] = Some (VNumber 1))
    by reflexivity.
  destruct (patched_auto_reply_switches_the_reply
              [("auto_reply", VArray [VString "true"])] fresh_store (VArray [VString "true"])
              (forwarding (transcript None)) (voice_audio None) "40712345678" "Anna" 1700000000000 Cases.a_result
              Hon eq_refl eq_refl)
    as (Hstored & _ & Hreply & _).
  destruct (patched_auto_reply_switches_the_reply
              [("auto_reply", VNumber 1)] fresh_store (VNumber 1) Cases.numbered
              (voice_audio None) "40712345678" "Anna" 1700000000000 Cases.a_result
              Hoff eq_refl eq_refl)
    as (_ & _ & _ & Hskip).
  split; [exact Hon|]. split; [reflexivity|]. split; [reflexivity|].
  split; [exact Hstored|]. split; [exact (Hreply eq_refl)|].
  split; [exact Hoff|]. split; [reflexivity|]. split; [reflexivity|].
  exact (Hskip eq_refl).
Defined.

(** X22: what the settings page shows after an update.  The report has
    webhook_url, which is BASE_URL (or the placeholder domain when it is
    unset or empty) followed by /webhook, and whatsapp_connected, which
    is true exactly when the access token and the phone number id are
    both set and not empty; both are computed and hide stored rows of the
    same name.  Every other key shows its stored text: for auto_reply and
    default_language the text of the last value the update gave, for any
    other key what was stored before the update. *)
Theorem settings_report_after_update (BASE_URL ACCESS_TOKEN PHONE_NUMBER_ID : option string)
    (body : list (string * Value)) (s : Store) :
  let report := getSettings BASE_URL ACCESS_TOKEN PHONE_NUMBER_ID (patchSettings body s) in
  (exists base,
      report !! "webhook_url" = Some (VString (base +:+ "/webhook"))
      /\ base <> ""
      /\ (forall url, BASE_URL = Some url -> url <> "" -> base = url)
      /\ (BASE_URL = None \/ BASE_URL = Some "" -> base = "https://your-domain.com"))
  /\ (exists connected,
         report !! "whatsapp_connected" = Some (VBoolean connected)
         /\ (connected = true <->
             exists token id,
               ACCESS_TOKEN = Some token /\ token <> ""
               /\ PHONE_NUMBER_ID = Some id /\ id <> ""))
  /\ (forall key,
         key <> "webhook_url" -> key <> "whatsapp_connected" -> key <> "__proto__" ->
         report !! key
         = VString <$>
             (if is_allowed key then
                match last_value key body with
                | Some v => Some (String_of v)
                | None => getSetting key s
                end
              else getSetting key s)).
Proof.
  intros report. subst report. unfold getSettings. split; [|split].
  - rewrite lookup_insert_ne by discriminate. rewrite lookup_insert_eq.
    eexists. split; [reflexivity|].
    destruct BASE_URL as [url|]; simpl.
    + unfold or_string, truthy_string.
      destruct (String.eqb_spec url "") as [->|Hne]; simpl.
      * split; [discriminate|]. split; [congruence | reflexivity].
      * split; [exact Hne|]. split; [congruence|]. intros [?|?]; congruence.
    + split; [discriminate|]. split; [discriminate | reflexivity].
  - rewrite lookup_insert_eq. eexists. split; [reflexivity|].
    unfold or_string, truthy_string.
    destruct ACCESS_TOKEN as [token|], PHONE_NUMBER_ID as [id|]; simpl;
      try (destruct (String.eqb_spec token "")); try (destruct (String.eqb_spec id ""));
      simpl; split; try discriminate;
      try (intros (token' & id' & Ht & Hne & Hi & Hne'); congruence);
      intros _; eauto 10.
  - intros key Hw Hc Hp.
    rewrite lookup_insert_ne by congruence. rewrite lookup_insert_ne by congruence.
    rewrite lookup_fmap. unfold getAllSettings. rewrite lookup_delete_ne by congruence.
    f_equal. destruct (is_allowed key) eqn:Hkey.
    + apply (patchSettings_lookup key body Hkey).
    + apply (patchSettings_frame key body Hkey).
Qed.

Lemma settings_report_after_update_witness :
  "auto_reply" <> "webhook_url"
  /\ getSettings None (Some "token") None
       (patchSettings [("auto_reply", VBoolean false)] fresh_store) !! "auto_reply"
     = Some (VString "false").
Proof.
  split; [discriminate|].
  destruct (settings_report_after_update None (Some "token") None
              [("auto_reply", VBoolean false)] fresh_store) as (_ & _ & Hkeys).
  exact (Hkeys "auto_reply" ltac:(discriminate) ltac:(discriminate) ltac:(discriminate)).
Defined.

End SettingsFacts.

(* ------------------------------------------------------------------ *)
(** ** The event stream *)
(* ------------------------------------------------------------------ *)

Module StreamFacts.
Import Stream Reading.

Lemma heard_app (client : nat) (w1 w2 : list (nat * Frame)) :
  heard client (w1 ++ w2) = heard client w1 ++ heard client w2.
Proof. unfold heard. rewrite List.filter_app, List.map_app. reflexivity. Qed.

Lemma heard_stranger (client : nat) (frame : Frame) (clients : list nat) :
  ~ List.In client clients ->
  heard client (List.map (fun c => (c, frame)) clients) = [].
Proof.
  induction clients as [|c clients IH]; [reflexivity|]. simpl. intros Hnotin.
  unfold heard in *. simpl. destruct (Nat.eqb_spec c client); [tauto|]. apply IH. tauto.
Qed.

Lemma heard_fanout (client : nat) (frame : Frame) (clients : list nat) :
  List.NoDup clients ->
  heard client (List.map (fun c => (c, frame)) clients)
  = if List.existsb (Nat.eqb client) clients then [frame] else [].
Proof.
  induction 1 as [|c clients Hnotin Hnd IH]; [reflexivity|]. simpl.
  destruct (Nat.eqb_spec client c) as [->|Hne]; simpl.
  - unfold heard. simpl. rewrite Nat.eqb_refl. simpl. f_equal.
    apply (heard_stranger c frame clients Hnotin).
  - unfold heard in *. simpl. destruct (Nat.eqb_spec c client); [congruence | exact IH].
Qed.

Lemma member_spec (client : nat) (clients : list nat) :
  List.existsb (Nat.eqb client) clients = true <-> List.In client clients.
Proof.
  rewrite List.existsb_exists. split.
  - intros (c & Hin & Heq). apply Nat.eqb_eq in Heq. congruence.
  - intros Hin. exists client. split; [exact Hin | apply Nat.eqb_refl].
Qed.

Lemma add_NoDup (client : nat) (clients : list nat) :
  List.NoDup clients -> List.NoDup (add client clients).
Proof.
  intros Hnd. unfold add. destruct (List.existsb (Nat.eqb client) clients) eqn:Hin; [exact Hnd|].
  apply List.NoDup_app; [exact Hnd | repeat constructor; simpl; tauto |].
  intros c Hc [<-|[]]. apply member_spec in Hc. congruence.
Qed.

Lemma remove_NoDup (client : nat) (clients : list nat) :
  List.NoDup clients -> List.NoDup (remove client clients).
Proof. apply List.NoDup_filter. Qed.

Lemma member_add (c client : nat) (clients : list nat) :
  List.existsb (Nat.eqb c) (add client clients)
  = Nat.eqb client c || List.existsb (Nat.eqb c) clients.
Proof.
  unfold add. destruct (List.existsb (Nat.eqb client) clients) eqn:Hin.
  - destruct (Nat.eqb_spec client c) as [->|_]; [|reflexivity]. rewrite Hin. reflexivity.
  - rewrite List.existsb_app. simpl. rewrite orb_false_r, orb_comm.
    rewrite (Nat.eqb_sym c client). reflexivity.
Qed.

Lemma member_remove (c client : nat) (clients : list nat) :
  List.existsb (Nat.eqb c) (remove client clients)
  = negb (Nat.eqb client c) && List.existsb (Nat.eqb c) clients.
Proof.
  unfold remove. induction clients as [|x clients IH]; simpl.
  - rewrite andb_false_r. reflexivity.
  - destruct (Nat.eqb_spec x client) as [->|Hne]; simpl.
    + rewrite IH. rewrite (Nat.eqb_sym c client).
      destruct (Nat.eqb client c); reflexivity.
    + rewrite IH. destruct (Nat.eqb_spec c x) as [->|_]; simpl; [|reflexivity].
      destruct (Nat.eqb_spec client x); [congruence | reflexivity].
Qed.

Lemma step_NoDup (h : Hub) (s : Signal) :
  List.NoDup (sseClients h) -> List.NoDup (sseClients (step h s)).
Proof.
  intros Hnd. destruct s; simpl; [apply add_NoDup | apply remove_NoDup |]; exact Hnd.
Qed.

Lemma run_NoDup (signals : list Signal) :
  forall h, List.NoDup (sseClients h) -> List.NoDup (sseClients (run signals h)).
Proof.
  induction signals as [|s signals IH]; intros h Hnd; [exact Hnd|].
  apply IH, step_NoDup, Hnd.
Qed.

Lemma run_heard (client : nat) (signals : list Signal) :
  forall h,
    List.NoDup (sseClients h) ->
    heard client (wire (run signals h))
    = heard client (wire h)
        ++ tuned client (List.existsb (Nat.eqb client) (sseClients h)) signals.
Proof.
  induction signals as [|s signals IH]; intros h Hnd.
  - simpl. rewrite List.app_nil_r. reflexivity.
  - change (run (s :: signals) h) with (run signals (step h s)).
    rewrite IH by (apply step_NoDup; exact Hnd).
    destruct s as [c|c|data]; cbn [step sseClients wire tuned].
    + rewrite heard_app, member_add, <- List.app_assoc. f_equal.
      unfold heard at 1. simpl. destruct (Nat.eqb c client); reflexivity.
    + rewrite member_remove. destruct (Nat.eqb c client); reflexivity.
    + rewrite heard_app, <- List.app_assoc. f_equal. f_equal.
      apply heard_fanout. exact Hnd.
Qed.

(** X23: what a client of the event stream receives.  Through any
    sequence of connections, disconnections and new records, starting
    with no client, each client is written exactly this, in this order:
    the greeting each time it connects, and each record that is emitted
    while it is connected, once.  Nothing is written to a client that
    has disconnected, and a record emitted while no one is connected is
    written to no one. *)
Theorem each_client_hears_its_own_stream (signals : list Signal) (client : nat) :
  heard client (wire (run signals quiet)) = tuned client false signals
  /\ List.NoDup (sseClients (run signals quiet))
  /\ (forall data,
         sseClients (run signals quiet) = [] ->
         wire (run (signals ++ [Emit data]) quiet) = wire (run signals quiet))
  /\ (forall data,
         ~ List.In client (sseClients (run signals quiet)) ->
         heard client (wire (run (signals ++ [Emit data]) quiet))
         = heard client (wire (run signals quiet))).
Proof.
  split; [apply (run_heard client signals quiet); constructor|].
  assert (Hnd : List.NoDup (sseClients (run signals quiet)))
    by (apply run_NoDup; constructor).
  split; [exact Hnd|]. split.
  - intros data Hnone. unfold run. rewrite List.fold_left_app. simpl.
    fold (run signals quiet). rewrite Hnone. apply List.app_nil_r.
  - intros data Hout. unfold run. rewrite List.fold_left_app. simpl.
    fold (run signals quiet). rewrite heard_app, heard_stranger by exact Hout.
    apply List.app_nil_r.
Qed.

Lemma each_client_hears_its_own_stream_witness :
  sseClients (run [Open 1%nat; Close 1%nat] quiet) = []
  /\ wire (run ([Open 1%nat; Close 1%nat] ++ [Emit (Cases.a_row 1 "Szia")]) quiet)
     = [(1%nat, Connected)]
  /\ heard 2%nat (wire (run [Open 1%nat; Emit (Cases.a_row 1 "Szia"); Open 2%nat;
                             Emit (Cases.a_row 2 "Hello"); Close 1%nat;
                             Emit (Cases.a_row 3 "Salut")] quiet))
     = [Connected; NewTranscription (Cases.a_row 2 "Hello");
        NewTranscription (Cases.a_row 3 "Salut")].
Proof.
  assert (Hnone : sseClients (run [Open 1%nat; Close 1%nat] quiet) = []) by reflexivity.
  split; [exact Hnone|]. split.
  - exact (proj1 (proj2 (proj2 (each_client_hears_its_own_stream
             [Open 1%nat; Close 1%nat] 1%nat))) (Cases.a_row 1 "Szia") Hnone).
  - exact (proj1 (each_client_hears_its_own_stream
             [Open 1%nat; Emit (Cases.a_row 1 "Szia"); Open 2%nat;
              Emit (Cases.a_row 2 "Hello"); Close 1%nat;
              Emit (Cases.a_row 3 "Salut")] 2%nat)).
Defined.

End StreamFacts.

(* ------------------------------------------------------------------ *)
(** ** The CSV export *)
(* ------------------------------------------------------------------ *)

Module CsvFacts.
Import Js Csv Reading JsFacts.

Lemma csvLine_cons (value : string) (rest : list string) :
  csvLine (value :: rest)
  = String double_quote (doubleQuotes value +:+ String double_quote (after_cell rest)).
Proof.
  unfold csvLine. destruct rest as [|next rest]; cbn [List.map join after_cell].
  - reflexivity.
  - unfold csvCell at 1.
    change (String double_quote
              ((doubleQuotes value +:+ String double_quote EmptyString)
                 +:+ (";" +:+ join ";" (csvCell next :: List.map csvCell rest)))
            = String double_quote
                (doubleQuotes value
                   +:+ String double_quote
                         (";" +:+ join ";" (csvCell next :: List.map csvCell rest)))).
    f_equal. rewrite append_assoc. reflexivity.
Qed.

Lemma readCell_written (value rest : string) :
  match rest with
  | EmptyString => True
  | String c _ => Ascii.eqb c double_quote = false
  end ->
  readCell (doubleQuotes value +:+ String double_quote rest) = Some (value, rest).
Proof.
  intros Hrest. induction value as [|c value IH].
  - change (readCell (String double_quote rest) = Some (EmptyString, rest)).
    cbn [readCell]. rewrite Ascii.eqb_refl. destruct rest as [|c' rest']; [reflexivity|].
    rewrite Hrest. reflexivity.
  - cbn [doubleQuotes]. destruct (Ascii.eqb c double_quote) eqn:Hc.
    + change (readCell (String c (String c (doubleQuotes value +:+ String double_quote rest)))
              = Some (String c value, rest)).
      cbn [readCell]. rewrite Hc, IH. reflexivity.
    + change (readCell (String c (doubleQuotes value +:+ String double_quote rest))
              = Some (String c value, rest)).
      cbn [readCell]. rewrite Hc, IH. reflexivity.
Qed.

Lemma after_cell_clean (rest : list string) :
  match after_cell rest with
  | EmptyString => True
  | String c _ => Ascii.eqb c double_quote = false
  end.
Proof. destruct rest; [exact I | reflexivity]. Qed.

Lemma readLine_written (values : list string) :
  values <> [] -> readLine (List.length values) (csvLine values) = Some values.
Proof.
  induction values as [|value rest IH]; [congruence|]. intros _.
  rewrite csvLine_cons. cbn [List.length readLine].
  rewrite Ascii.eqb_refl, (readCell_written value _ (after_cell_clean rest)).
  destruct rest as [|next rest]; [reflexivity|].
  cbn [after_cell]. change (";" +:+ csvLine (next :: rest))
    with (String ";" (csvLine (next :: rest))).
  cbn iota. change (Ascii.eqb ";" ";") with true. cbn iota.
  change (List.length (next :: rest)) with (S (List.length rest)) in *.
  rewrite IH by discriminate. reflexivity.
Qed.

Lemma csvLine_injective (values : list string) :
  forall values', csvLine values = csvLine values' -> values = values'.
Proof.
  induction values as [|value rest IH]; intros [|value' rest'] Hsame.
  - reflexivity.
  - rewrite csvLine_cons in Hsame. discriminate.
  - rewrite csvLine_cons in Hsame. discriminate.
  - rewrite !csvLine_cons in Hsame. injection Hsame as Hsame.
    apply (f_equal readCell) in Hsame.
    rewrite (readCell_written value _ (after_cell_clean rest)) in Hsame.
    rewrite (readCell_written value' _ (after_cell_clean rest')) in Hsame.
    injection Hsame as -> Hrest. f_equal.
    destruct rest as [|next rest], rest' as [|next' rest']; cbn [after_cell] in Hrest.
    + reflexivity.
    + discriminate.
    + discriminate.
    + apply IH. injection Hrest as Hrest. exact Hrest.
Qed.

(** X24: a line of the CSV export can be read back.  Whatever
    characters the values of a record contain (double quotes,
    semicolons, line feeds), the line written for it splits again, by the
    usual reading of quoted cells, into the nine values that were
    written; and two lists of values that give the same line are the
    same list. *)
Theorem exported_line_reads_back (number_text : Q -> string) (row : Storage.Row)
    (values values' : list string) :
  readLine 9 (csvLine (cells number_text row)) = Some (cells number_text row)
  /\ (values <> [] -> readLine (List.length values) (csvLine values) = Some values)
  /\ (csvLine values = csvLine values' -> values = values').
Proof.
  split; [apply (readLine_written (cells number_text row)); discriminate|].
  split; [apply readLine_written | apply csvLine_injective].
Qed.

Lemma exported_line_reads_back_witness :
  ["a;b"; "say " +:+ String double_quote "hi"] <> []
  /\ readLine 2 (csvLine ["a;b"; "say " +:+ String double_quote "hi"])
     = Some ["a;b"; "say " +:+ String double_quote "hi"]
  /\ (csvLine ["x"] = csvLine ["x"] -> ["x"] = ["x"]).
Proof.
  assert (Hsome : ["a;b"; "say " +:+ String double_quote "hi"] <> []) by discriminate.
  split; [exact Hsome|]. split.
  - exact (proj1 (proj2 (exported_line_reads_back (fun _ => "") (Cases.a_row 1 "Szia")
                           ["a;b"; "say " +:+ String double_quote "hi"] [])) Hsome).
  - exact (proj2 (proj2 (exported_line_reads_back (fun _ => "") (Cases.a_row 1 "Szia")
                           ["x"] ["x"]))).
Defined.

End CsvFacts.

(* ------------------------------------------------------------------ *)
(** ** The manual upload *)
(* ------------------------------------------------------------------ *)

Module UploadFacts.
Import Js Storage Upload Observe Samples Reading WhisperFacts StoreMore.

(** X25: the answer of a manual upload and the store.  The handler
    completes for every input.  Without a file it answers 400 and asks
    the transcription API nothing.  The answer, when there is one, is
    200, or else 400 or 500 with an error text; unless it is 200 the
    store is left as it was.  With 200 exactly one record has been added
    and written to the file: its sender and source are manual, its
    sender name is the form field, or the fixed label when the field is
    missing or empty, and its text, language and duration are the ones
    in the answer. *)
Theorem upload_answer_matches_the_store (api : Z -> Whisper.FetchOutcome) (clock : Z)
    (now : string) (rowid : Z) (upload : option File) (senderNameField : option string)
    (s : Store) :
  well_keyed (db s) ->
  exists o,
    postTranscribe api clock now rowid upload senderNameField s = Some o
    /\ (upload = None ->
        answer o = Some {| status := 400; body := ErrorBody "No audio file provided" |}
        /\ requests o = [])
    /\ (forall a, answer o = Some a ->
                  status a = 200
                  \/ ((status a = 400 \/ status a = 500) /\ exists msg, body a = ErrorBody msg))
    /\ ((forall a, answer o = Some a -> status a <> 200) -> store o = s)
    /\ (forall a,
           answer o = Some a -> status a = 200 ->
           exists r segments,
             getTranscription (sequence (db s) + 1) (store o) = Some r
             /\ row_sender r = "manual" /\ row_source r = "manual"
             /\ row_sender_name r <> ""
             /\ (forall name, senderNameField = Some name -> name <> "" ->
                              row_sender_name r = name)
             /\ row_timestamp r = clock / 1000
             /\ created_at r = now
             /\ body a = ResultBody rowid (row_transcription r) (row_language r)
                                    (row_duration r) segments
             /\ ids (db (store o)) = ids (db s) ++ [sequence (db s) + 1]
             /\ settings (db (store o)) = settings (db s)
             /\ file (store o) = Some (db (store o))).
Proof.
  intros Hkeyed. unfold postTranscribe. destruct upload as [f|].
  - destruct (transcribeAudio_total api (buffer f) (mimetype f) Whisper.no_options)
      as [[sent completion] Hrun].
    rewrite Hrun. destruct completion as [result|[error|]].
    + eexists. split; [reflexivity|]. cbn [answer requests store].
      split; [discriminate|]. split; [intros a [= <-]; left; reflexivity|].
      split; [intros Hnever; exfalso; exact (Hnever _ eq_refl eq_refl)|].
      intros a [= <-] _.
      match goal with
      | |- context [saved_store (saveTranscription now rowid ?t s)] =>
          destruct (saved_row now rowid t s Hkeyed) as [_ Hnew]
      end.
      eexists. exists (Whisper.segments result). split; [exact Hnew|].
      cbn [row_of row_sender row_source row_sender_name row_timestamp created_at
           row_transcription row_language row_duration
           sender source senderName timestamp transcription language duration].
      split; [reflexivity|]. split; [reflexivity|]. split.
      { unfold or_string, truthy_string. destruct senderNameField as [name|]; simpl.
        - destruct (String.eqb_spec name ""); simpl; [discriminate | assumption].
        - discriminate. }
      split.
      { intros name -> Hname. unfold or_string, truthy_string.
        destruct (String.eqb_spec name ""); [contradiction | reflexivity]. }
      split; [reflexivity|]. split; [reflexivity|]. split; [reflexivity|].
      split; [apply ids_insertRow|]. split; reflexivity.
    + eexists. split; [reflexivity|]. cbn [answer requests store].
      split; [discriminate|]. split.
      { intros a [= <-]. right. split; [right; reflexivity | eexists; reflexivity]. }
      split; [reflexivity|]. intros a [= <-] H. discriminate H.
    + eexists. split; [reflexivity|]. cbn [answer requests store].
      split; [discriminate|]. split; [discriminate|].
      split; [reflexivity | discriminate].
  - eexists. split; [reflexivity|]. cbn [answer requests store].
    split; [intros _; split; reflexivity|]. split.
    { intros a [= <-]. right. split; [left; reflexivity | eexists; reflexivity]. }
    split; [reflexivity|]. intros a [= <-] H. discriminate H.
Qed.

Lemma upload_answer_matches_the_store_witness :
  well_keyed (db fresh_store)
  /\ exists o,
       postTranscribe Cases.once_limited 1700000000999 "2024-01-01 10:00:00" 1
                      (Some Cases.an_upload) (Some "") fresh_store = Some o
       /\ Storage.file (store o) = Some (db (store o))
       /\ ids (db (store o)) = [1].
Proof.
  assert (Hkeyed : well_keyed (db fresh_store)) by (split; constructor).
  split; [exact Hkeyed|].
  destruct (upload_answer_matches_the_store Cases.once_limited 1700000000999
              "2024-01-01 10:00:00" 1 (Some Cases.an_upload) (Some "") fresh_store Hkeyed)
    as (o & Hrun & _ & _ & _ & Hok).
  exists o. split; [exact Hrun|].
  injection Hrun as <-.
  destruct (Hok _ eq_refl eq_refl) as (r & segments & _ & _ & _ & _ & _ & _ & _ & _ & Hids & _ & Hfile).
  split; [exact Hfile | exact Hids].
Defined.

End UploadFacts.

(* ------------------------------------------------------------------ *)
(** ** The media download *)
(* ------------------------------------------------------------------ *)

Module DownloadFacts.
Import Js WhatsApp.

(** X26: the two steps of a media download.  The first request goes to
    the Graph API address of the media id; a second request is made only
    when that one is answered with a 2xx status and a body that names a
    URL, and it goes to that URL, carrying the same Authorization header
    as the first.  There is never a third request.  A buffer is returned
    only when both answers have a 2xx status, and it is the body of the
    second; a first answer with any other status fails the download
    after one request with a message that gives the status. *)
Theorem download_takes_two_guarded_steps (accessToken : option string) (net : Network)
    (mediaId : string) :
  let gets := fst (downloadWhatsAppMedia accessToken net mediaId) in
  let result := snd (downloadWhatsAppMedia accessToken net mediaId) in
  let first := {| url := WHATSAPP_API_URL +:+ "/" +:+ mediaId;
                  authorization := bearer accessToken |} in
  (gets = [first]
   \/ exists mediaResponse mediaUrl,
        lookup net (url first) = Replied mediaResponse
        /\ ok mediaResponse = true
        /\ payload mediaResponse = inl (Some mediaUrl)
        /\ gets = [first; {| url := mediaUrl; authorization := bearer accessToken |}])
  /\ (forall audioBuffer,
         result = inl audioBuffer ->
         exists mediaResponse mediaUrl fileResponse,
           lookup net (url first) = Replied mediaResponse
           /\ ok mediaResponse = true
           /\ payload mediaResponse = inl (Some mediaUrl)
           /\ file net mediaUrl = Replied fileResponse
           /\ ok fileResponse = true
           /\ payload fileResponse = inl audioBuffer
           /\ List.length gets = 2%nat)
  /\ (forall mediaResponse,
         lookup net (url first) = Replied mediaResponse ->
         ok mediaResponse = false ->
         gets = [first]
         /\ result = inr {| message := "Failed to get media URL: "
                                         +:+ decimal (status mediaResponse) +:+ " "
                                         +:+ statusText mediaResponse |})
  /\ (forall mediaResponse mediaUrl fileResponse,
         lookup net (url first) = Replied mediaResponse ->
         ok mediaResponse = true ->
         payload mediaResponse = inl (Some mediaUrl) ->
         file net mediaUrl = Replied fileResponse ->
         ok fileResponse = false ->
         result = inr {| message := "Failed to download media: "
                                      +:+ decimal (status fileResponse) +:+ " "
                                      +:+ statusText fileResponse |}).
Proof.
  intros gets result first. subst gets result. unfold downloadWhatsAppMedia.
  fold first.
  destruct (lookup net (url first)) as [reason|mediaResponse] eqn:Hlookup;
    [|destruct (ok mediaResponse) eqn:Hok; cbn [negb];
      [destruct (payload mediaResponse) as [[mediaUrl|]|reason] eqn:Hpayload;
        [destruct (file net mediaUrl) as [reason|fileResponse] eqn:Hfile;
          [|destruct (ok fileResponse) eqn:Hok2; cbn [negb];
            [destruct (payload fileResponse) as [audioBuffer|reason] eqn:Hbody|]]| |]|]];
    cbn [fst snd];
    (split; [first [left; reflexivity | right; eauto 10]|]);
    (split; [intros ? Hres; first [discriminate Hres | injection Hres as <-; eauto 12]|]);
    (split; [intros mr Hl Hk;
             first [discriminate Hl
                   | injection Hl as <-; first [congruence | split; reflexivity]]|]);
    intros mr mu fr Hl Hk Hp Hf Hk2; first [discriminate Hl | injection Hl as <-];
    first [congruence | assert (mu = mediaUrl) by congruence; subst mu; congruence].
Qed.

Lemma download_takes_two_guarded_steps_witness :
  snd (downloadWhatsAppMedia (Some "token") (Cases.a_network "https://cdn.example/1") "42")
  = inl {| Buffer.length := 48000 |}
  /\ List.length (fst (downloadWhatsAppMedia (Some "token")
                         (Cases.a_network "https://cdn.example/1") "42")) = 2%nat.
Proof.
  assert (Hresult : snd (downloadWhatsAppMedia (Some "token")
                           (Cases.a_network "https://cdn.example/1") "42")
                    = inl {| Buffer.length := 48000 |}) by reflexivity.
  split; [exact Hresult|].
  destruct (proj1 (proj2 (download_takes_two_guarded_steps (Some "token")
                            (Cases.a_network "https://cdn.example/1") "42")) _ Hresult)
    as (? & ? & ? & _ & _ & _ & _ & _ & _ & Hlen).
  exact Hlen.
Defined.

End DownloadFacts.
